(** * Sustainability analysis scripts: a shallow embedding

    The repository is a family of pandas scripts.  Each one loads a CSV
    table, validates its header, derives a score or status column and
    ranks, prints, charts or exports the result.  This file embeds the
    computational part of every script as Rocq functions and proves the
    properties the specification states about them.

    Conventions of the embedding:
    - a float is a [cell]: a rational, one of the two infinities, or NaN.
      Arithmetic on the rationals is exact: rounding, overflow to an
      infinity, underflow to zero and the sign of a zero are idealised
      away, and a column of dtype [int64] is read as a column of floats,
      so that the wrap-around of [int64] is idealised away as well.
      What is kept is the part of IEEE arithmetic the scripts can observe
      without a rounding error: division by zero, NaN propagation and
      NaN comparisons.  A statement about the value of an entry
      therefore speaks of the code only where the idealisation is sound
      for it, and says so in a hypothesis ([bounded], [clear_of_NaN])
      where the values of the table matter;
    - a DataFrame is an ordered association list from column names to
      series, a series being a numeric or a string column;
    - a method is a function from the object and the outside world (log,
      standard output, files, charts) to an outcome and the new object
      and world, so that an exception keeps the state reached so far;
    - [scipy.optimize.minimize] is a library routine and enters the
      scoring methods as a parameter. *)

From Stdlib Require Import List String Ascii Bool Arith ZArith QArith Qreduction.
From Stdlib Require Import Lia Lqa.
From Stdlib Require Import Permutation Sorted.
Import ListNotations.

Local Open Scope string_scope.
Local Open Scope Q_scope.

(** ** Floats *)

Module Cell.

Inductive cell : Type :=
| Num (q : Q)
| PosInf
| NegInf
| NaN.

Definition is_nan (c : cell) : bool :=
  match c with NaN => true | _ => false end.

Definition is_num (c : cell) : bool :=
  match c with Num _ => true | _ => false end.

(** Sign of a rational as a comparison with zero. *)
Definition qsign (q : Q) : comparison := Qcompare q 0.

Definition add (a b : cell) : cell :=
  match a, b with
  | NaN, _ | _, NaN => NaN
  | Num x, Num y => Num (Qred (x + y))
  | PosInf, NegInf | NegInf, PosInf => NaN
  | PosInf, _ | _, PosInf => PosInf
  | NegInf, _ | _, NegInf => NegInf
  end.

Definition sub (a b : cell) : cell :=
  match a, b with
  | NaN, _ | _, NaN => NaN
  | Num x, Num y => Num (Qred (x - y))
  | PosInf, PosInf | NegInf, NegInf => NaN
  | PosInf, _ | _, NegInf => PosInf
  | NegInf, _ | _, PosInf => NegInf
  end.

(** An infinity scaled by a sign. *)
Definition inf_of_sign (s : comparison) : cell :=
  match s with
  | Gt => PosInf
  | Lt => NegInf
  | Eq => NaN
  end.

Definition flip (s : comparison) : comparison := CompOpp s.

Definition mul (a b : cell) : cell :=
  match a, b with
  | NaN, _ | _, NaN => NaN
  | Num x, Num y => Num (Qred (x * y))
  | Num x, PosInf | PosInf, Num x => inf_of_sign (qsign x)
  | Num x, NegInf | NegInf, Num x => inf_of_sign (flip (qsign x))
  | PosInf, PosInf | NegInf, NegInf => PosInf
  | PosInf, NegInf | NegInf, PosInf => NegInf
  end.

(** True division as numpy performs it on floats: a zero divisor gives an
    infinity of the sign of the dividend, or NaN for 0/0; nothing is
    raised.  The quotient of two rationals is exact.  There is one zero:
    the divisor [-0.0], for which numpy returns the infinity of the
    opposite sign, is not told apart from [0.0], and neither is a
    quotient that a float rounds to zero or to an infinity. *)
Definition div (a b : cell) : cell :=
  match a, b with
  | NaN, _ | _, NaN => NaN
  | Num x, Num y =>
      if Qeq_bool y 0 then inf_of_sign (qsign x) else Num (Qred (x / y))
  | Num _, PosInf | Num _, NegInf => Num 0
  | PosInf, Num y => match qsign y with Lt => NegInf | _ => PosInf end
  | NegInf, Num y => match qsign y with Lt => PosInf | _ => NegInf end
  | _, _ => NaN
  end.

(** Python's [<] on floats: false as soon as one side is NaN. *)
Definition ltb (a b : cell) : bool :=
  match a, b with
  | NaN, _ | _, NaN => false
  | Num x, Num y => match Qcompare x y with Lt => true | _ => false end
  | NegInf, NegInf => false
  | NegInf, _ => true
  | _, NegInf => false
  | PosInf, _ => false
  | _, PosInf => true
  end.

(** Python's [==] on floats. *)
Definition eqb (a b : cell) : bool :=
  match a, b with
  | Num x, Num y => Qeq_bool x y
  | PosInf, PosInf | NegInf, NegInf => true
  | _, _ => false
  end.

(** Python's [>=] on floats. *)
Definition geb (a b : cell) : bool := ltb b a || eqb a b.

Definition leb (a b : cell) : bool := geb b a.

End Cell.

Import Cell.

(** ** Series and data frames *)

(** What a row access [row['c']] yields: a float or a string. *)
Inductive value : Type :=
| VNum (c : cell)
| VStr (s : string).

(** A column of floats, or a column of dtype [object]: strings, with a
    float NaN where an entry is missing. *)
Inductive series : Type :=
| NumCol (l : list cell)
| ObjCol (l : list value).

Definition series_len (s : series) : nat :=
  match s with
  | NumCol l => List.length l
  | ObjCol l => List.length l
  end.

Definition series_values (s : series) : list value :=
  match s with
  | NumCol l => map VNum l
  | ObjCol l => l
  end.

(** A column of strings as [read_csv] builds it. *)
Definition StrCol (l : list string) : series := ObjCol (map VStr l).

(** Columns in header order; column names are unique, as in a frame that
    [read_csv] returns. *)
Definition DataFrame : Type := list (string * series).

Definition columns (df : DataFrame) : list string := map fst df.

(** [c in df.columns] *)
Definition has_column (c : string) (df : DataFrame) : bool :=
  existsb (String.eqb c) (columns df).

(** [df[c]], [None] standing for the KeyError. *)
Fixpoint df_get (c : string) (df : DataFrame) : option series :=
  match df with
  | [] => None
  | (k, s) :: rest => if String.eqb c k then Some s else df_get c rest
  end.

(** [df[c] = s]: an existing column is replaced where it stands, a new
    one is appended. *)
Fixpoint df_set (c : string) (s : series) (df : DataFrame) : DataFrame :=
  match df with
  | [] => [(c, s)]
  | (k, old) :: rest =>
      if String.eqb c k then (k, s) :: rest else (k, old) :: df_set c s rest
  end.

(** [Series.min()] and [Series.max()] with pandas' default [skipna]: NaN
    entries are ignored, and a series with no other entry gives NaN. *)
Fixpoint nanmin (l : list cell) : cell :=
  match l with
  | [] => NaN
  | x :: rest =>
      let m := nanmin rest in
      if is_nan x then m
      else if is_nan m then x
      else if ltb m x then m else x
  end.

Fixpoint nanmax (l : list cell) : cell :=
  match l with
  | [] => NaN
  | x :: rest =>
      let m := nanmax rest in
      if is_nan x then m
      else if is_nan m then x
      else if ltb x m then m else x
  end.

(** ** Exceptions, the outside world and methods *)

Inductive exn : Type :=
| ValueError (msg : string)
| KeyError (msg : string)
| TypeError (msg : string).

Inductive level : Type := INFO | ERROR.

(** What a script emits besides its log: printed lines (the blank lines
    around a title are left out), a score line standing for the
    formatted [f"{label}\t\t{score:.2f}"], a CSV file with its header,
    and a bar chart with its bars in drawing order. *)
Inductive event : Type :=
| Print (line : string)
| PrintScore (label : value) (score : cell)
| WriteCsv (path : string) (header : list string) (rows : list (value * cell))
| BarChart (title : string) (bars : list (value * value)).

Record world : Type := mkWorld {
  log : list (level * string);
  out : list event
}.

Definition empty_world : world := mkWorld [] [].

Module Method.

(** A method over objects of type [S]: it ends normally with a value or
    raises, and in both cases hands back the object and the world. *)
Definition M (S A : Type) : Type := S * world -> (exn + A) * (S * world).

Definition ret {S A} (a : A) : M S A := fun st => (inr a, st).

Definition raise {S A} (e : exn) : M S A := fun st => (inl e, st).

Definition bind {S A B} (m : M S A) (k : A -> M S B) : M S B :=
  fun st =>
    match m st with
    | (inl e, st') => (inl e, st')
    | (inr a, st') => k a st'
    end.

Definition self {S} : M S S := fun st => (inr (fst st), st).

Definition set_self {S} (s : S) : M S unit := fun st => (inr tt, (s, snd st)).

Definition logging {S} (lv : level) (msg : string) : M S unit :=
  fun st =>
    (inr tt, (fst st, mkWorld (log (snd st) ++ [(lv, msg)]) (out (snd st)))).

Definition emit {S} (e : event) : M S unit :=
  fun st =>
    (inr tt, (fst st, mkWorld (log (snd st)) (out (snd st) ++ [e]))).

(** A [for] loop whose body may raise. *)
Fixpoint for_each {S A} (l : list A) (body : A -> M S unit) : M S unit :=
  match l with
  | [] => ret tt
  | x :: rest => bind (body x) (fun _ => for_each rest body)
  end.

End Method.

Import Method.

Declare Scope method_scope.
Delimit Scope method_scope with method.
Notation "x <- m ;; k" := (bind m (fun x => k))
  (at level 61, m at next level, right associativity) : method_scope.
Notation "m ;;; k" := (bind m (fun _ => k))
  (at level 61, right associativity) : method_scope.
Local Open Scope method_scope.

(** ** Sorting *)

Section Insertion.

Context {A : Type}.
Variable lt : A -> A -> bool.

(** [x] goes after every entry that is smaller and before the first one
    that is not: the earlier of two equal entries stays first. *)
Fixpoint insert_by (x : A) (l : list A) : list A :=
  match l with
  | [] => [x]
  | y :: rest => if lt y x then y :: insert_by x rest else x :: y :: rest
  end.

Fixpoint sort_by (l : list A) : list A :=
  match l with
  | [] => []
  | x :: rest => insert_by x (sort_by rest)
  end.

End Insertion.

(** Python's [sorted(l, key=key)] on float keys.  The builtin is a stable
    sort that compares with [<] only; on keys free of NaN every stable
    sort returns this list.  With a NaN among the keys [<] is no order
    and the list the builtin returns depends on its merge strategy: this
    function is then one possible answer, and only what every answer
    shares (the entries are those of [l]) is stated of it. *)
Definition sorted {A : Type} (key : A -> cell) (l : list A) : list A :=
  sort_by (fun a b => ltb (key a) (key b)) l.

(** ** Code the optimizer and the simulator share *)

(** The name [f"{col}_normalized"]. *)
Definition normalized_name (col : string) : string := col ++ "_normalized".

(** [(s - s.min()) / (s.max() - s.min())] on the entries of a float
    column.  Nothing guards the divisor.  The differences are exact
    here; in the code [s.max() - s.min()] wraps around on an [int64]
    column and overflows to an infinity on a [float64] column when the
    entries are far enough apart, which entries of magnitude at most
    [2^53] are not. *)
Definition min_max (l : list cell) : list cell :=
  map (fun v => div (sub v (nanmin l)) (sub (nanmax l) (nanmin l))) l.

(** The same on a column of a frame.  Strings cannot be subtracted; a
    column without rows has no entry to subtract. *)
Definition normalize_series (s : series) : exn + series :=
  match s with
  | NumCol l => inr (NumCol (min_max l))
  | ObjCol [] => inr s
  | ObjCol (_ :: _) =>
      inl (TypeError "unsupported operand type(s) for -: 'str' and 'str'")
  end.

(** The loop of [normalize_columns] over a frame: columns that are absent
    are skipped, and an exception leaves the columns written so far. *)
Fixpoint normalize_loop (cols : list string) (df : DataFrame)
  : (exn + unit) * DataFrame :=
  match cols with
  | [] => (inr tt, df)
  | col :: rest =>
      match df_get col df with
      | None => normalize_loop rest df
      | Some s =>
          match normalize_series s with
          | inl e => (inl e, df)
          | inr s' => normalize_loop rest (df_set (normalized_name col) s' df)
          end
      end
  end.

(** Rows as [iterrows] yields them: the number of rows is the length of
    the index, here of the first column. *)
Definition row : Type := list (string * value).

Definition nrows (df : DataFrame) : nat :=
  match df with
  | [] => O
  | (_, s) :: _ => series_len s
  end.

Definition row_at (df : DataFrame) (i : nat) : row :=
  map (fun cs => (fst cs, nth i (series_values (snd cs)) (VNum NaN))) df.

Definition iterrows (df : DataFrame) : list row :=
  map (row_at df) (seq 0 (nrows df)).

(** [row[c]] *)
Fixpoint row_get (c : string) (r : row) : exn + value :=
  match r with
  | [] => inl (KeyError c)
  | (k, v) :: rest => if String.eqb c k then inr v else row_get c rest
  end.

(** An entry of the starting point: the solver needs a float there. *)
Definition row_float (c : string) (r : row) : exn + cell :=
  match row_get c r with
  | inl e => inl e
  | inr (VNum x) => inr x
  | inr (VStr s) => inl (ValueError ("could not convert string to float: " ++ s))
  end.

(** What [scipy.optimize.minimize] returns, as far as the scripts read
    it. *)
Record OptimizeResult : Type := mkResult {
  res_x : list cell;
  res_fun : cell
}.

(** The solver is a library routine: an objective, a starting point and
    one pair of bounds per dimension go in, a result comes out. *)
Definition solver : Type :=
  (list cell -> cell) -> list cell -> list (cell * cell) -> OptimizeResult.

(** [[(0, 1)] * 4] *)
Definition unit_bounds : list (cell * cell) := repeat (Num 0, Num 1) 4.

(** [x[i]] inside an objective. *)
Definition at_ (x : list cell) (i : nat) : cell := nth i x NaN.

(** The starting point [x0] of a row: its entries under the given
    columns, the first missing column raising. *)
Fixpoint start_point (features : list string) (r : row) : exn + list cell :=
  match features with
  | [] => inr []
  | c :: rest =>
      match row_float c r with
      | inl e => inl e
      | inr v =>
          match start_point rest r with
          | inl e => inl e
          | inr vs => inr (v :: vs)
          end
      end
  end.

(** One pass of the scoring loop: the pair [(row[label], res.fun)]. *)
Definition score_row (label : string) (features : list string)
    (minimize : solver) (objective : list cell -> cell) (r : row)
  : exn + (value * cell) :=
  match start_point features r with
  | inl e => inl e
  | inr x0 =>
      let res := minimize objective x0 unit_bounds in
      match row_get label r with
      | inl e => inl e
      | inr name => inr (name, res_fun res)
      end
  end.

(** The scoring loop, in row order; the first row that raises ends it. *)
Fixpoint score_rows (label : string) (features : list string)
    (minimize : solver) (objective : list cell -> cell) (rows : list row)
  : exn + list (value * cell) :=
  match rows with
  | [] => inr []
  | r :: rest =>
      match score_row label features minimize objective r with
      | inl e => inl e
      | inr scored =>
          match score_rows label features minimize objective rest with
          | inl e => inl e
          | inr others => inr (scored :: others)
          end
      end
  end.

(** The key [lambda x: x[1]] of the ranking. *)
Definition score_of (entry : value * cell) : cell := snd entry.

(** Labels and bar lengths as a chart takes them. *)
Definition bars_of (results : list (value * cell)) : list (value * value) :=
  map (fun r => (fst r, VNum (snd r))) results.

(** ** Packaging_Sustainability_Optimizer_Script.py *)

Module Packaging.

Record PackagingSustainabilityOptimizer : Type := mkOptimizer {
  data : DataFrame;
  (** [None] while the attribute does not exist ([hasattr] is false). *)
  optimized_results : option (list (value * cell))
}.

Abbreviation optimizer := PackagingSustainabilityOptimizer.

Definition required_columns : list string :=
  ["Material"; "Cost_per_unit"; "Recyclability"; "Carbon_Footprint";
   "Durability"].

Definition _validate_data : M optimizer unit :=
  for_each required_columns (fun col =>
    o <- self ;;
    if has_column col (data o) then ret tt
    else raise (ValueError ("Missing required column: " ++ col))).

Definition columns_to_normalize : list string :=
  ["Cost_per_unit"; "Recyclability"; "Carbon_Footprint"; "Durability"].

Definition normalize_columns : M optimizer unit :=
  fun st =>
    let o := fst st in
    let (outcome, df) := normalize_loop columns_to_normalize (data o) in
    (outcome, (mkOptimizer df (optimized_results o), snd st)).

Record weights : Type := mkWeights {
  weight_cost : cell;
  weight_recyclability : cell;
  weight_carbon_footprint : cell;
  weight_durability : cell
}.

Definition default_weights : weights :=
  mkWeights (Num (3 # 10)) (Num (4 # 10)) (Num (2 # 10)) (Num (1 # 10)).

Definition objective_function (w : weights) (x : list cell) : cell :=
  add (add (add (mul (weight_cost w) (at_ x 0))
                (mul (weight_recyclability w) (sub (Num 1) (at_ x 1))))
           (mul (weight_carbon_footprint w) (at_ x 2)))
      (mul (weight_durability w) (sub (Num 1) (at_ x 3))).

Definition normalized_features : list string :=
  ["Cost_per_unit_normalized"; "Recyclability_normalized";
   "Carbon_Footprint_normalized"; "Durability_normalized"].

Section Solver.

Variable minimize : solver.

Definition optimize (w : weights) : M optimizer (list (value * cell)) :=
  normalize_columns ;;;
  o <- self ;;
  match score_rows "Material" normalized_features minimize
          (objective_function w) (iterrows (data o)) with
  | inl e => raise e
  | inr results =>
      set_self (mkOptimizer (data o) (Some (sorted score_of results))) ;;;
      ret (sorted score_of results)
  end.

End Solver.

Definition display_results : M optimizer unit :=
  o <- self ;;
  match optimized_results o with
  | None => raise (ValueError "Run optimize() before displaying results.")
  | Some results =>
      emit (Print "Sustainable Packaging Recommendations:") ;;;
      emit (Print "Material		Score") ;;;
      emit (Print "--------------------------------") ;;;
      for_each results (fun r => emit (PrintScore (fst r) (snd r)))
  end.

Definition export_results (output_file : string) : M optimizer unit :=
  o <- self ;;
  match optimized_results o with
  | None => raise (ValueError "Run optimize() before exporting results.")
  | Some results =>
      emit (WriteCsv output_file ["Material"; "Score"] results) ;;;
      emit (Print ("Results exported to " ++ output_file))
  end.

Definition visualize_results : M optimizer unit :=
  o <- self ;;
  match optimized_results o with
  | None => raise (ValueError "Run optimize() before visualizing results.")
  | Some results =>
      emit (BarChart "Sustainability Optimization Results" (bars_of results))
  end.

Definition visualize_results_interactive : M optimizer unit :=
  o <- self ;;
  match optimized_results o with
  | None => raise (ValueError "Run optimize() before visualizing results.")
  | Some results =>
      emit (BarChart "Sustainability Optimization Results (Interactive)"
              (bars_of results))
  end.

End Packaging.

(** ** Lifecycle_Impact_Simulator_Script.py *)

Module Lifecycle.

Record LifecycleImpactSimulator : Type := mkSimulator {
  data : DataFrame;
  (** [None] while the attribute does not exist ([hasattr] is false). *)
  simulation_results : option (list (value * cell))
}.

Abbreviation simulator := LifecycleImpactSimulator.

Definition required_columns : list string :=
  ["Stage"; "Cost"; "Carbon_Footprint"; "Water_Usage"; "Energy_Consumption"].

Definition _validate_data : M simulator unit :=
  logging INFO "Validating input data." ;;;
  for_each required_columns (fun col =>
    o <- self ;;
    if has_column col (data o) then ret tt
    else
      logging ERROR ("Missing required column: " ++ col) ;;;
      raise (ValueError ("Missing required column: " ++ col))).

Definition columns_to_normalize : list string :=
  ["Cost"; "Carbon_Footprint"; "Water_Usage"; "Energy_Consumption"].

Definition normalize_columns : M simulator unit :=
  logging INFO "Normalizing columns for simulation." ;;;
  fun st =>
    let o := fst st in
    let (outcome, df) := normalize_loop columns_to_normalize (data o) in
    (outcome, (mkSimulator df (simulation_results o), snd st)).

Record weights : Type := mkWeights {
  weight_cost : cell;
  weight_carbon : cell;
  weight_water : cell;
  weight_energy : cell
}.

Definition default_weights : weights :=
  mkWeights (Num (3 # 10)) (Num (3 # 10)) (Num (2 # 10)) (Num (2 # 10)).

Definition objective_function (w : weights) (x : list cell) : cell :=
  add (add (add (mul (weight_cost w) (at_ x 0))
                (mul (weight_carbon w) (at_ x 1)))
           (mul (weight_water w) (at_ x 2)))
      (mul (weight_energy w) (at_ x 3)).

Definition normalized_features : list string :=
  ["Cost_normalized"; "Carbon_Footprint_normalized";
   "Water_Usage_normalized"; "Energy_Consumption_normalized"].

Section Solver.

Variable minimize : solver.

(** [executor.map] hands the results back in the order of the rows, so
    the worker pool is a plain loop here.  The log line keeps the format
    string; the weights it interpolates are left out. *)
Definition simulate (w : weights) : M simulator (list (value * cell)) :=
  logging INFO
    "Starting simulation with weights: cost=%s, carbon=%s, water=%s, energy=%s" ;;;
  normalize_columns ;;;
  o <- self ;;
  match score_rows "Stage" normalized_features minimize
          (objective_function w) (iterrows (data o)) with
  | inl e => raise e
  | inr results =>
      set_self (mkSimulator (data o) (Some (sorted score_of results))) ;;;
      logging INFO "Simulation completed." ;;;
      ret (sorted score_of results)
  end.

End Solver.

Definition display_results : M simulator unit :=
  o <- self ;;
  match simulation_results o with
  | None =>
      logging ERROR "Attempted to display results before running simulation." ;;;
      raise (ValueError "Run simulate() before displaying results.")
  | Some results =>
      emit (Print "Lifecycle Impact Simulation Results:") ;;;
      emit (Print "Stage		Impact Score") ;;;
      emit (Print "--------------------------------") ;;;
      for_each results (fun r => emit (PrintScore (fst r) (snd r)))
  end.

Definition visualize_results : M simulator unit :=
  o <- self ;;
  match simulation_results o with
  | None =>
      logging ERROR "Attempted to visualize results before running simulation." ;;;
      raise (ValueError "Run simulate() before visualizing results.")
  | Some results =>
      emit (BarChart "Lifecycle Impact Simulation Results" (bars_of results))
  end.

Definition export_results (output_file : string) : M simulator unit :=
  o <- self ;;
  match simulation_results o with
  | None =>
      logging ERROR "Attempted to export results before running simulation." ;;;
      raise (ValueError "Run simulate() before exporting results.")
  | Some results =>
      emit (WriteCsv output_file ["Stage"; "Impact_Score"] results) ;;;
      logging INFO ("Results exported to " ++ output_file)
  end.

End Lifecycle.

(** ** Regulatory_Compliance_Validator_Script.py *)

Module Compliance.

Record RegulatoryComplianceValidator : Type := mkValidator {
  data : DataFrame;
  regulations : DataFrame
}.

Abbreviation validator := RegulatoryComplianceValidator.

Definition required_data_columns : list string :=
  ["Entity"; "Requirement"; "Status"; "Date"].

Definition required_regulation_columns : list string :=
  ["Requirement"; "Description"; "Threshold"].

Definition _validate_data : M validator unit :=
  logging INFO "Validating input data format." ;;;
  for_each required_data_columns (fun col =>
    v <- self ;;
    if has_column col (data v) then ret tt
    else
      logging ERROR ("Missing required column in data: " ++ col) ;;;
      raise (ValueError ("Missing required column in data: " ++ col))) ;;;
  for_each required_regulation_columns (fun col =>
    v <- self ;;
    if has_column col (regulations v) then ret tt
    else
      logging ERROR ("Missing required column in regulations: " ++ col) ;;;
      raise (ValueError ("Missing required column in regulations: " ++ col))).

(** *** [DataFrame.merge(right, on=key, how='left')] *)

(** Equality of join keys.  Two missing keys match each other. *)
Definition key_eqb (a b : value) : bool :=
  match a, b with
  | VStr s, VStr t => String.eqb s t
  | VNum NaN, VNum NaN => true
  | VNum x, VNum y => eqb x y
  | _, _ => false
  end.

(** Positions, from [j] on, of the right keys equal to [k]. *)
Fixpoint matches_from (j : nat) (k : value) (rkeys : list value) : list nat :=
  match rkeys with
  | [] => []
  | r :: rest =>
      if key_eqb k r then j :: matches_from (S j) k rest
      else matches_from (S j) k rest
  end.

(** The rows of a left join: every left row in its place, once per
    matching right row in the order of the right table, or once with no
    partner. *)
Fixpoint join_from (i : nat) (lkeys rkeys : list value)
  : list (nat * option nat) :=
  match lkeys with
  | [] => []
  | k :: rest =>
      List.app
        match matches_from 0 k rkeys with
        | [] => [(i, None)]
        | js => map (fun j => (i, Some j)) js
        end
        (join_from (S i) rest rkeys)
  end.

Definition take_left (idx : list (nat * option nat)) (s : series) : series :=
  match s with
  | NumCol l => NumCol (map (fun p => nth (fst p) l NaN) idx)
  | ObjCol l => ObjCol (map (fun p => nth (fst p) l (VNum NaN)) idx)
  end.

(** A left row without partner gets NaN in every column of the right
    table. *)
Definition take_right (idx : list (nat * option nat)) (s : series) : series :=
  match s with
  | NumCol l =>
      NumCol (map (fun p => match snd p with
                            | Some j => nth j l NaN
                            | None => NaN
                            end) idx)
  | ObjCol l =>
      ObjCol (map (fun p => match snd p with
                            | Some j => nth j l (VNum NaN)
                            | None => VNum NaN
                            end) idx)
  end.

Definition same_dtype (a b : series) : bool :=
  match a, b with
  | NumCol _, NumCol _ | ObjCol _, ObjCol _ => true
  | _, _ => false
  end.

(** [(len(lk) and not len(rk)) or (not len(lk) and len(rk))]: pandas
    does not compare the dtypes of the two key columns when exactly one
    of them has no rows. *)
Definition one_side_empty (a b : series) : bool :=
  xorb (Nat.eqb (series_len a) 0) (Nat.eqb (series_len b) 0).

(** What pandas infers of a key column of dtype [object] before it
    refuses a join: the column counts as text when it holds a string or
    nothing at all, not when it holds missing entries only. *)
Definition string_like (s : series) : bool :=
  match s with
  | NumCol _ => false
  | ObjCol l =>
      Nat.eqb (List.length l) 0
      || existsb (fun v => match v with VStr _ => true | VNum _ => false end) l
  end.

(** The key columns pandas refuses to join: text against numbers. *)
Definition key_mismatch (a b : series) : bool :=
  negb (one_side_empty a b) && negb (same_dtype a b)
  && (string_like a || string_like b).

(** Columns of the left table, then those of the right one without the
    key; a name the two tables share gets the suffix [_x] on the left and
    [_y] on the right. *)
Definition merge_left (left right : DataFrame) (on : string)
  : exn + DataFrame :=
  match df_get on left, df_get on right with
  | Some lk, Some rk =>
      if negb (key_mismatch lk rk) then
        let idx := join_from 0 (series_values lk) (series_values rk) in
        inr (List.app
               (map (fun cs =>
                       (if negb (String.eqb (fst cs) on)
                           && has_column (fst cs) right
                        then fst cs ++ "_x" else fst cs,
                        take_left idx (snd cs))) left)
               (map (fun cs =>
                       (if has_column (fst cs) left
                        then fst cs ++ "_y" else fst cs,
                        take_right idx (snd cs)))
                    (filter (fun cs => negb (String.eqb (fst cs) on)) right)))
      else inl (ValueError "You are trying to merge on object and float64 columns")
  | _, _ => inl (KeyError on)
  end.

(** Python's [a >= b] on two entries of a row. *)
Definition value_ge (a b : value) : exn + bool :=
  match a, b with
  | VNum x, VNum y => inr (geb x y)
  | VStr s, VStr t => inr (String.leb t s)
  | _, _ =>
      inl (TypeError "'>=' not supported between instances of 'str' and 'float'")
  end.

(** The lambda of [check_compliance] on one row. *)
Definition compliance_of (r : row) : exn + string :=
  match row_get "Status" r with
  | inl e => inl e
  | inr status =>
      match row_get "Threshold" r with
      | inl e => inl e
      | inr threshold =>
          match value_ge status threshold with
          | inl e => inl e
          | inr true => inr "Compliant"
          | inr false => inr "Non-Compliant"
          end
      end
  end.

(** [DataFrame.apply(f, axis=1)] for a function to strings. *)
Fixpoint apply_rows (f : row -> exn + string) (rows : list row)
  : exn + list string :=
  match rows with
  | [] => inr []
  | r :: rest =>
      match f r with
      | inl e => inl e
      | inr label =>
          match apply_rows f rest with
          | inl e => inl e
          | inr labels => inr (label :: labels)
          end
      end
  end.

Definition check_compliance : M validator unit :=
  logging INFO "Checking compliance." ;;;
  v <- self ;;
  match merge_left (data v) (regulations v) "Requirement" with
  | inl e => raise e
  | inr merged =>
      set_self (mkValidator merged (regulations v)) ;;;
      match apply_rows compliance_of (iterrows merged) with
      | inl e => raise e
      | inr labels =>
          set_self (mkValidator (df_set "Compliance" (StrCol labels) merged)
                      (regulations v))
      end
  end.

End Compliance.

(** ** Sustainability_KPI_Tracker_Script.py *)

Module KPI.

Record SustainabilityKPITracker : Type := mkTracker {
  data : DataFrame
}.

Abbreviation tracker := SustainabilityKPITracker.

Definition required_columns : list string := ["KPI"; "Target"; "Actual"; "Date"].

Definition _validate_data : M tracker unit :=
  logging INFO "Validating input data." ;;;
  for_each required_columns (fun col =>
    t <- self ;;
    if has_column col (data t) then ret tt
    else
      logging ERROR ("Missing required column: " ++ col) ;;;
      raise (ValueError ("Missing required column: " ++ col))).

(** [a / b] on two columns of one frame, entry by entry.  Strings cannot
    be divided; columns without rows have nothing to divide. *)
Definition series_div (a b : series) : exn + list cell :=
  match a, b with
  | NumCol x, NumCol y =>
      inr (map (fun p => div (fst p) (snd p)) (combine x y))
  | ObjCol [], _ | _, ObjCol [] => inr []
  | _, _ => inl (TypeError "unsupported operand type(s) for /: 'str' and 'str'")
  end.

(** The lambda of [calculate_performance]. *)
Definition status_of (x : cell) : string :=
  if geb x (Num 100) then "On Track" else "Needs Improvement".

Definition calculate_performance : M tracker unit :=
  logging INFO "Calculating performance metrics." ;;;
  t <- self ;;
  match df_get "Actual" (data t), df_get "Target" (data t) with
  | Some actual, Some target =>
      match series_div actual target with
      | inl e => raise e
      | inr ratio =>
          let performance := map (fun q => mul q (Num 100)) ratio in
          set_self
            (mkTracker
               (df_set "Status" (StrCol (map status_of performance))
                  (df_set "Performance" (NumCol performance) (data t))))
      end
  | None, _ => raise (KeyError "Actual")
  | _, None => raise (KeyError "Target")
  end.

End KPI.

(** ** Circularity_Metrics_Analyzer_Script.py *)

Module Circularity.

(** Python's [<] between two entries of one column. *)
Definition value_ltb (a b : value) : bool :=
  match a, b with
  | VNum x, VNum y => ltb x y
  | VStr s, VStr t => String.ltb s t
  | _, _ => false
  end.

Definition value_isnan (v : value) : bool :=
  match v with
  | VNum NaN => true
  | _ => false
  end.

Definition is_str (v : value) : bool :=
  match v with
  | VStr _ => true
  | VNum _ => false
  end.

(** Strings and numbers in one column cannot be ordered. *)
Definition unorderable (keys : list value) : bool :=
  existsb is_str keys
  && existsb (fun v => negb (is_str v) && negb (value_isnan v)) keys.

Definition take (order : list nat) (s : series) : series :=
  match s with
  | NumCol l => NumCol (map (fun i => nth i l NaN) order)
  | ObjCol l => ObjCol (map (fun i => nth i l (VNum NaN)) order)
  end.

(** [df.sort_values(by=column, ascending=False)]: the rows by decreasing
    key, the rows without key last.  pandas' default sort does not fix
    the order of rows with equal keys; this function keeps them in their
    original order, and nothing proved below relies on that choice. *)
Definition sort_values_descending (column : string) (df : DataFrame)
  : exn + DataFrame :=
  match df_get column df with
  | None => inl (KeyError column)
  | Some s =>
      let keys := series_values s in
      if unorderable keys then
        inl (TypeError "'<' not supported between instances of 'str' and 'float'")
      else
        let key i := nth i keys (VNum NaN) in
        let rows := seq 0 (List.length keys) in
        let present := filter (fun i => negb (value_isnan (key i))) rows in
        let missing := filter (fun i => value_isnan (key i)) rows in
        let order :=
          List.app (sort_by (fun i j => value_ltb (key j) (key i)) present)
                   missing in
        inr (map (fun cs => (fst cs, take order (snd cs))) df)
  end.

(** The bars in the order [plt.bar] draws them.  The function wraps a
    KeyError in its own message and lets everything else through. *)
Definition visualize_circularity (df : DataFrame) : M unit unit :=
  match sort_values_descending "circularity_score" df with
  | inl (KeyError c) =>
      raise (KeyError ("Missing column for visualization: '" ++ c ++ "'"))
  | inl e => raise e
  | inr sorted_df =>
      match df_get "material" sorted_df, df_get "circularity_score" sorted_df with
      | Some material, Some score =>
          emit (BarChart "Circularity Scores by Material"
                  (combine (series_values material) (series_values score)))
      | None, _ =>
          raise (KeyError "Missing column for visualization: 'material'")
      | _, None =>
          raise (KeyError "Missing column for visualization: 'circularity_score'")
      end
  end.

End Circularity.

(** ** Reference solvers *)

(** The change of an objective when [x[i]] goes from 0 to 1, the other
    coordinates being 0. *)
Definition unit_vector (i : nat) : list cell :=
  map (fun j => if Nat.eqb i j then Num 1 else Num 0) (seq 0 4).

Definition origin : list cell := repeat (Num 0) 4.

Definition slope (f : list cell -> cell) (i : nat) : cell :=
  sub (f (unit_vector i)) (f origin).

(** The sixteen corners of the box. *)
Fixpoint corners (k : nat) : list (list cell) :=
  match k with
  | O => [ [] ]
  | S k' =>
      List.app (map (cons (Num 0)) (corners k'))
               (map (cons (Num 1)) (corners k'))
  end.

(** Scoring by corner evaluation, the shortcut the specification
    describes in place of the iterative solver: the least objective
    value over the corners of the box, whatever the starting point. *)
Definition corner_score (f : list cell -> cell) : cell :=
  nanmin (map f (corners 4)).

(** An exact solver for linear objectives, as an instance of [solver]:
    it moves every coordinate of the starting point to the bound the
    objective favours and leaves it where it is when the objective does
    not depend on it. *)
Definition coordinate_descent : solver :=
  fun f x0 bounds =>
    let x :=
      map (fun i =>
             if ltb (slope f i) (Num 0) then Num 1
             else if ltb (Num 0) (slope f i) then Num 0
             else nth i x0 NaN) (seq 0 4) in
    mkResult x (f x).

(** The corner each script's objective points to, read off the signs of
    its weights: a coordinate the objective grows with goes to 0, one it
    shrinks with goes to 1.  In the optimizer recyclability and
    durability enter as [1 - x], so their sign counts the other way. *)
Definition optimizer_corner (w : Packaging.weights) : list cell :=
  [ if ltb (Packaging.weight_cost w) (Num 0) then Num 1 else Num 0;
    if ltb (Packaging.weight_recyclability w) (Num 0) then Num 0 else Num 1;
    if ltb (Packaging.weight_carbon_footprint w) (Num 0) then Num 1 else Num 0;
    if ltb (Packaging.weight_durability w) (Num 0) then Num 0 else Num 1 ].

Definition simulator_corner (w : Lifecycle.weights) : list cell :=
  [ if ltb (Lifecycle.weight_cost w) (Num 0) then Num 1 else Num 0;
    if ltb (Lifecycle.weight_carbon w) (Num 0) then Num 1 else Num 0;
    if ltb (Lifecycle.weight_water w) (Num 0) then Num 1 else Num 0;
    if ltb (Lifecycle.weight_energy w) (Num 0) then Num 1 else Num 0 ].

(** ** Example tables *)

(** The two materials of the end-to-end example. *)
Definition example_materials : DataFrame :=
  [ ("Material", StrCol ["A"; "B"]);
    ("Cost_per_unit", NumCol [Num 10; Num 2]);
    ("Recyclability", NumCol [Num (2 # 10); Num (9 # 10)]);
    ("Carbon_Footprint", NumCol [Num 5; Num 1]);
    ("Durability", NumCol [Num (8 # 10); Num (3 # 10)]) ].

(** ** Vocabulary of the statements *)

(** A required column that the frame does not have. *)
Definition missing_column (required : list string) (df : DataFrame)
    (c : string) : Prop :=
  In c required /\ ~ In c (columns df).

(** The column, when the frame has it, holds floats. *)
Definition numeric (df : DataFrame) (c : string) : Prop :=
  forall s, df_get c df = Some s -> exists l, s = NumCol l.

(** The entries are numbers and two of them differ. *)
Definition not_all_equal (l : list cell) : Prop :=
  Forall (fun v => is_num v = true) l /\
  exists a b, In (Num a) l /\ In (Num b) l /\ ~ a == b.

(** A number of magnitude at most [b]. *)
Definition magnitude_at_most (b : Q) (v : cell) : Prop :=
  match v with
  | Num q => - b <= q <= b
  | _ => False
  end.

(** A finite entry of magnitude at most [2^53]: an integer of that size
    is the same number as [int64] and as [float64], and the difference
    of two such entries neither wraps around nor overflows. *)
Definition bounded (v : cell) : Prop := magnitude_at_most (2 ^ 53) v.

(** A bounded entry, or a missing one. *)
Definition bounded_or_missing (v : cell) : Prop := v = NaN \/ bounded v.

(** Two of the entries are numbers that differ. *)
Definition varied (l : list cell) : Prop :=
  exists a b, In (Num a) l /\ In (Num b) l /\ ~ a == b.

(** Two materials, the second with an infinite cost. *)
Definition unbounded_costs : DataFrame :=
  [ ("Material", StrCol ["A"; "B"]);
    ("Cost_per_unit", NumCol [Num 1; PosInf]);
    ("Recyclability", NumCol [Num (2 # 10); Num (9 # 10)]);
    ("Carbon_Footprint", NumCol [Num 5; Num 1]);
    ("Durability", NumCol [Num (8 # 10); Num (3 # 10)]) ].

(** Two facts about the columns a script normalises: no result is
    written over a source, and no two results share a name. *)
Definition results_apart (cols : list string) : Prop :=
  (forall c, In c cols -> ~ In (normalized_name c) cols) /\
  NoDup (map normalized_name cols).

(** A frame with one constant column. *)
Definition constant_costs : DataFrame :=
  [ ("Material", StrCol ["A"; "B"]);
    ("Cost_per_unit", NumCol [Num 5; Num 5]) ].

(** No entry of the ranking has a smaller score than an entry before it. *)
Definition ascending (ranked : list (value * cell)) : Prop :=
  StronglySorted (fun a b => ltb (score_of b) (score_of a) = false) ranked.

(** Entries with the same score stand in the ranking as they stood in the
    results. *)
Definition ties_in_order (results ranked : list (value * cell)) : Prop :=
  forall k, filter (fun e => eqb (score_of e) k) ranked
            = filter (fun e => eqb (score_of e) k) results.

(** No score is NaN. *)
Definition clear_of_NaN (results : list (value * cell)) : Prop :=
  Forall (fun e => is_nan (score_of e) = false) results.

(** [ranked] is [results] ranked: the same entries and, when no score is
    NaN, ascending with ties in the order of the results. *)
Definition is_ranking (results ranked : list (value * cell)) : Prop :=
  Permutation results ranked /\
  (clear_of_NaN results ->
   ascending ranked /\ ties_in_order results ranked).

(** The results list was filled in row order: its labels are the labels
    of the rows, one after the other. *)
Definition in_row_order (label : string) (rows : list row)
    (results : list (value * cell)) : Prop :=
  Forall2 (fun r e => row_get label r = inr (fst e)) rows results.

(** No bar is shorter than a bar after it. *)
Definition descending (bars : list (value * value)) : Prop :=
  StronglySorted
    (fun a b => Circularity.value_ltb (snd a) (snd b) = false) bars.

(** The bar stands for a score, not for a missing one. *)
Definition has_score (bar : value * value) : bool :=
  negb (Circularity.value_isnan (snd bar)).

(** The bars of the rows with a score, longest first, and after them the
    bars of the rows without one. *)
Definition descending_then_missing (bars : list (value * value)) : Prop :=
  exists scored missing,
    bars = List.app scored missing /\
    Forall (fun bar => has_score bar = true) scored /\
    Forall (fun bar => has_score bar = false) missing /\
    descending scored.

(** Two materials with their circularity scores. *)
Definition example_circularity : DataFrame :=
  [ ("material", StrCol ["X"; "Y"]);
    ("circularity_score", NumCol [Num 1; Num 2]) ].

(** Three KPI readings, one of them against a target of zero. *)
Definition example_kpis : DataFrame :=
  [ ("KPI", StrCol ["Energy"; "Water"; "Waste"]);
    ("Target", NumCol [Num 100; Num 50; Num 0]);
    ("Actual", NumCol [Num 120; Num 40; Num 3]);
    ("Date", StrCol ["2024-01-01"; "2024-01-01"; "2024-01-01"]) ].

(** What [check_compliance] needs of the two tables to run through:
    float columns [Status] and [Threshold], each in its own table only,
    and a [Requirement] column of one dtype in both. *)
Definition joinable (v : Compliance.validator) (status threshold : list cell)
    (lkeys rkeys : series) : Prop :=
  df_get "Status" (Compliance.data v) = Some (NumCol status) /\
  df_get "Threshold" (Compliance.regulations v) = Some (NumCol threshold) /\
  has_column "Threshold" (Compliance.data v) = false /\
  has_column "Status" (Compliance.regulations v) = false /\
  df_get "Requirement" (Compliance.data v) = Some lkeys /\
  df_get "Requirement" (Compliance.regulations v) = Some rkeys /\
  Compliance.same_dtype lkeys rkeys = true.

(** The label a row gets from its status and threshold. *)
Definition label_of (status threshold : cell) : string :=
  if geb status threshold then "Compliant" else "Non-Compliant".

(** Compliance data against two regulations; the third requirement has
    no regulation. *)
Definition example_validator : Compliance.validator :=
  Compliance.mkValidator
    [ ("Entity", StrCol ["Plant 1"; "Plant 2"; "Plant 3"]);
      ("Requirement", StrCol ["Emissions"; "Recycling"; "Noise"]);
      ("Status", NumCol [Num 50; Num 49; Num 70]);
      ("Date", StrCol ["2024-01-01"; "2024-01-02"; "2024-01-03"]) ]
    [ ("Requirement", StrCol ["Emissions"; "Recycling"]);
      ("Description", StrCol ["CO2 cap"; "Recycled share"]);
      ("Threshold", NumCol [Num 50; Num 50]) ].

(** A point of the closed unit box in four dimensions. *)
Definition in_unit_box (x : list cell) : Prop :=
  List.length x = 4%nat /\
  Forall (fun v => match v with
                   | Num q => 0 <= q <= 1
                   | _ => False
                   end) x.

(** What is assumed of [scipy.optimize.minimize] on an objective [f]:
    from every starting point in the box it returns a point of the box,
    reports the objective value there, and that value exceeds no value
    of [f] on the box by more than the tolerance. *)
Definition converges (minimize : solver) (f : list cell -> cell) (tol : Q)
  : Prop :=
  forall x0, in_unit_box x0 ->
    let r := minimize f x0 unit_bounds in
    in_unit_box (res_x r) /\
    res_fun r = f (res_x r) /\
    forall y, in_unit_box y -> leb (res_fun r) (add (f y) (Num tol)) = true.

(** A score within the tolerance above a reference value. *)
Definition within (tol : Q) (reference score : cell) : Prop :=
  exists m s, reference = Num m /\ score = Num s /\ m <= s <= m + tol.
(** ** Constructors and the simulator's script *)

(** [pd.read_csv] is input: a constructor takes the table it returns.
    The object starts without a results attribute, and a constructor
    that raises yields no object. *)
Definition construct {S : Type} (fresh : S) (body : M S unit) (w : world)
  : (exn + S) * world :=
  match body (fresh, w) with
  | (inl e, st) => (inl e, snd st)
  | (inr _, st) => (inr (fst st), snd st)
  end.

Module Optimizer.

Definition __init__ (table : DataFrame)
  : world -> (exn + Packaging.optimizer) * world :=
  construct (Packaging.mkOptimizer table None) Packaging._validate_data.

End Optimizer.

Module Simulator.

Definition __init__ (table : DataFrame)
  : world -> (exn + Lifecycle.simulator) * world :=
  construct (Lifecycle.mkSimulator table None)
    (logging INFO "Initializing Lifecycle Impact Simulator." ;;;
     Lifecycle._validate_data).

Section Script.

Variable minimize : solver.

(** The [__main__] block: construct, simulate with the default weights,
    display, draw, export.  Nothing catches an exception, so the first
    one ends the script. *)
Definition main (table : DataFrame) (w : world) : (exn + unit) * world :=
  match __init__ table w with
  | (inl e, w') => (inl e, w')
  | (inr simulator, w') =>
      let run :=
        (Lifecycle.simulate minimize Lifecycle.default_weights ;;;
         Lifecycle.display_results ;;;
         Lifecycle.visualize_results ;;;
         Lifecycle.export_results "simulation_results.csv") (simulator, w') in
      (fst run, snd (snd run))
  end.

End Script.

End Simulator.

Module Validator.

Definition __init__ (table regulations : DataFrame)
  : world -> (exn + Compliance.validator) * world :=
  construct (Compliance.mkValidator table regulations)
    (logging INFO "Initializing Regulatory Compliance Validator." ;;;
     Compliance._validate_data).

End Validator.

Module Tracker.

(** [pd.read_csv(data_file, parse_dates=['Date'])]: the parser itself
    refuses a file whose header has no [Date] column. *)
Definition read_csv (table : DataFrame) : exn + DataFrame :=
  if has_column "Date" table then inr table
  else inl (ValueError "Missing column provided to 'parse_dates': 'Date'").

(** The constructor logs its line, reads the file and validates what it
    read; when the parser raises, the validation is not reached. *)
Definition __init__ (table : DataFrame) (w : world)
  : (exn + KPI.tracker) * world :=
  let w1 := mkWorld (log w ++ [(INFO, "Initializing Sustainability KPI Tracker.")])
              (out w) in
  match read_csv table with
  | inl e => (inl e, w1)
  | inr data => construct (KPI.mkTracker data) KPI._validate_data w1
  end.

End Tracker.

(** ** The circularity score *)

Module Analyzer.

Definition CIRCULARITY_FACTORS : list (string * cell) :=
  [ ("recyclability", Num (4 # 10));
    ("reuse_potential", Num (3 # 10));
    ("end_of_life_recovery", Num (2 # 10));
    ("carbon_footprint", Num (- (1 # 10))) ].

(** [df[labels]]: the columns in the order asked for, or nothing when a
    label is missing. *)
Fixpoint getitem (labels : list string) (df : DataFrame)
  : option (list series) :=
  match labels with
  | [] => Some []
  | c :: rest =>
      match df_get c df, getitem rest df with
      | Some s, Some ss => Some (s :: ss)
      | _, _ => None
      end
  end.

(** An entry times a weight: a string cannot be multiplied by a float. *)
Definition times (v : value) (weight : cell) : exn + cell :=
  match v with
  | VNum x => inr (mul x weight)
  | VStr _ =>
      inl (TypeError "can't multiply sequence by non-int of type 'float'")
  end.

(** One entry of [frame.dot(weights)]: the sum of the products along a
    row. *)
Fixpoint dot_row (r : list value) (weights : list cell) : exn + cell :=
  match r, weights with
  | v :: vs, weight :: rest =>
      match times v weight with
      | inl e => inl e
      | inr p =>
          match dot_row vs rest with
          | inl e => inl e
          | inr s => inr (add p s)
          end
      end
  | _, _ => inr (Num 0)
  end.

Fixpoint dot_rows (rows : list (list value)) (weights : list cell)
  : exn + list cell :=
  match rows with
  | [] => inr []
  | r :: rest =>
      match dot_row r weights with
      | inl e => inl e
      | inr s =>
          match dot_rows rest weights with
          | inl e => inl e
          | inr ss => inr (s :: ss)
          end
      end
  end.

Definition is_float (s : series) : bool :=
  match s with
  | NumCol _ => true
  | ObjCol _ => false
  end.

Section Pandas.

(** The text pandas puts in its KeyError for the labels it did not
    find. *)
Variable not_in_index : list string -> string.

(** The frame is changed in place and handed back; an exception leaves
    it as it was.  The product is a float column when every factor is
    one, and an object column otherwise. *)
Definition calculate_circularity_score (df : DataFrame) : exn + DataFrame :=
  let factors := map fst CIRCULARITY_FACTORS in
  let weights := map snd CIRCULARITY_FACTORS in
  match getitem factors df with
  | None =>
      inl (KeyError
             ("Missing column in input data: "
              ++ not_in_index
                   (filter (fun c => negb (has_column c df)) factors)))
  | Some selected =>
      let rows :=
        map (fun i =>
               map (fun s => nth i (series_values s) (VNum NaN)) selected)
            (seq 0 (nrows df)) in
      match dot_rows rows weights with
      | inl e => inl e
      | inr scores =>
          inr (df_set "circularity_score"
                 (if forallb is_float selected then NumCol scores
                  else ObjCol (map VNum scores))
                 df)
      end
  end.

End Pandas.

End Analyzer.

(** ** Vocabulary of the further properties *)

(** The first required column a frame lacks, in the order of the list. *)
Fixpoint first_missing (required : list string) (df : DataFrame)
  : option string :=
  match required with
  | [] => None
  | c :: rest => if has_column c df then first_missing rest df else Some c
  end.

(** The log with one more line. *)
Definition logged (w : world) (lv : level) (msg : string) : world :=
  mkWorld (log w ++ [(lv, msg)]) (out w).

(** The standard output and the files with more events. *)
Definition emitted (w : world) (events : list event) : world :=
  mkWorld (log w) (out w ++ events).

(** A number between 0 and 1. *)
Definition in_unit_interval (v : cell) : Prop :=
  match v with
  | Num q => 0 <= q <= 1
  | _ => False
  end.

(** The two materials with their recyclability given in words. *)
Definition text_recyclability : DataFrame :=
  [ ("Material", StrCol ["A"; "B"]);
    ("Cost_per_unit", NumCol [Num 10; Num 2]);
    ("Recyclability", StrCol ["low"; "high"]);
    ("Carbon_Footprint", NumCol [Num 5; Num 1]);
    ("Durability", NumCol [Num (8 # 10); Num (3 # 10)]) ].

(** A table a scoring method can run on: the label column and the
    columns to normalise are there, the latter hold floats, and each of
    them has one entry per row. *)
Definition float_table (df : DataFrame) (label : string) (cols : list string)
    (labels : list value) (ls : list (list cell)) : Prop :=
  (exists s, df_get label df = Some s /\ series_values s = labels) /\
  List.length labels = nrows df /\
  Forall2 (fun c l => df_get c df = Some (NumCol l) /\
                      List.length l = nrows df) cols ls.

(** The results list of a scoring loop, written out: row by row the
    label and the value the solver reports when started from the row's
    normalised entries. *)
Definition row_scores (minimize : solver) (f : list cell -> cell)
    (labels : list value) (ls : list (list cell)) : list (value * cell) :=
  map (fun i =>
         (nth i labels (VNum NaN),
          res_fun (minimize f (map (fun l => nth i (min_max l) NaN) ls)
                     unit_bounds)))
      (seq 0 (List.length labels)).

(** Scoring as the specification describes it, in place of the loop
    over the rows: every label with the least value of the objective
    over the sixteen corners of the box.  This definition follows the
    specification, not the code. *)
Definition scores_by_corner_evaluation (f : list cell -> cell)
    (labels : list value) : list (value * cell) :=
  map (fun v => (v, corner_score f)) labels.

(** Entry by entry the same label, and a score within the tolerance
    above the score of the reference. *)
Definition agree_within (tol : Q) (reference results : list (value * cell))
  : Prop :=
  Forall2 (fun c e => fst e = fst c /\ within tol (score_of c) (score_of e))
    reference results.

(** The four measure columns of the two example materials. *)
Definition example_measures : list (list cell) :=
  [ [Num 10; Num 2];
    [Num (2 # 10); Num (9 # 10)];
    [Num 5; Num 1];
    [Num (8 # 10); Num (3 # 10)] ].

(** What the result methods of the optimizer put out for a ranking:
    the table of [display_results], the file and the line of
    [export_results], the chart of [visualize_results] and that of
    [visualize_results_interactive]. *)
Definition optimizer_report (output_file : string)
    (ranked : list (value * cell)) : list event :=
  List.app
    [ Print "Sustainable Packaging Recommendations:";
      Print "Material		Score";
      Print "--------------------------------" ]
    (List.app
       (map (fun r => PrintScore (fst r) (snd r)) ranked)
       [ WriteCsv output_file ["Material"; "Score"] ranked;
         Print ("Results exported to " ++ output_file);
         BarChart "Sustainability Optimization Results" (bars_of ranked);
         BarChart "Sustainability Optimization Results (Interactive)"
           (bars_of ranked) ]).

(** What the result methods of the simulator put out for a ranking, in
    the order of its script: the table, the chart, the file. *)
Definition simulator_report (output_file : string)
    (ranked : list (value * cell)) : list event :=
  List.app
    [ Print "Lifecycle Impact Simulation Results:";
      Print "Stage		Impact Score";
      Print "--------------------------------" ]
    (List.app
       (map (fun r => PrintScore (fst r) (snd r)) ranked)
       [ BarChart "Lifecycle Impact Simulation Results" (bars_of ranked);
         WriteCsv output_file ["Stage"; "Impact_Score"] ranked ]).

(** Two lifecycle stages. *)
Definition example_stages : DataFrame :=
  [ ("Stage", StrCol ["Production"; "Transport"]);
    ("Cost", NumCol [Num 100; Num 40]);
    ("Carbon_Footprint", NumCol [Num 30; Num 60]);
    ("Water_Usage", NumCol [Num 5; Num 1]);
    ("Energy_Consumption", NumCol [Num 70; Num 20]) ].

Definition example_stage_measures : list (list cell) :=
  [ [Num 100; Num 40]; [Num 30; Num 60]; [Num 5; Num 1]; [Num 70; Num 20] ].

(** Compliance data whose requirements are numbered, against
    regulations whose requirements are named. *)
Definition mismatched_validator : Compliance.validator :=
  Compliance.mkValidator
    [ ("Entity", StrCol ["Plant 1"]);
      ("Requirement", NumCol [Num 1]);
      ("Status", NumCol [Num 50]);
      ("Date", StrCol ["2024-01-01"]) ]
    [ ("Requirement", StrCol ["Emissions"]);
      ("Description", StrCol ["CO2 cap"]);
      ("Threshold", NumCol [Num 50]) ].

(** Compliance data whose status is given in words. *)
Definition worded_validator : Compliance.validator :=
  Compliance.mkValidator
    [ ("Entity", StrCol ["Plant 1"; "Plant 2"]);
      ("Requirement", StrCol ["Emissions"; "Recycling"]);
      ("Status", StrCol ["Pass"; "Fail"]);
      ("Date", StrCol ["2024-01-01"; "2024-01-02"]) ]
    [ ("Requirement", StrCol ["Emissions"; "Recycling"]);
      ("Description", StrCol ["CO2 cap"; "Recycled share"]);
      ("Threshold", NumCol [Num 50; Num 50]) ].

(** KPI readings whose actual values are given in words. *)
Definition worded_kpis : DataFrame :=
  [ ("KPI", StrCol ["Energy"; "Water"]);
    ("Target", NumCol [Num 100; Num 50]);
    ("Actual", StrCol ["high"; "low"]);
    ("Date", StrCol ["2024-01-01"; "2024-01-01"]) ].

(** Two materials with their four circularity factors. *)
Definition example_factors : DataFrame :=
  [ ("material", StrCol ["X"; "Y"]);
    ("recyclability", NumCol [Num 1; Num (1 # 2)]);
    ("reuse_potential", NumCol [Num 0; Num 1]);
    ("end_of_life_recovery", NumCol [Num 1; Num 1]);
    ("carbon_footprint", NumCol [Num 2; Num 1]) ].

(** A stand-in for the text of pandas' KeyError in the examples: the
    labels it did not find, one after the other. *)
Definition listed (missing : list string) : string :=
  String.concat ", " missing.

(** A table without rows: every column is empty, as in a CSV file that
    holds only its header. *)
Definition no_rows (df : DataFrame) : Prop :=
  Forall (fun cs => series_len (snd cs) = O) df.

(** The header of the materials table, without rows. *)
Definition header_only : DataFrame :=
  [ ("Material", ObjCol []);
    ("Cost_per_unit", ObjCol []);
    ("Recyclability", ObjCol []);
    ("Carbon_Footprint", ObjCol []);
    ("Durability", ObjCol []) ].

(** The two materials without their cost. *)
Definition no_cost : DataFrame :=
  [ ("Material", StrCol ["A"; "B"]);
    ("Recyclability", NumCol [Num (2 # 10); Num (9 # 10)]);
    ("Carbon_Footprint", NumCol [Num 5; Num 1]);
    ("Durability", NumCol [Num (8 # 10); Num (3 # 10)]) ].

(** * Properties *)

(** ** Column lookup *)

Lemma has_column_In (c : string) (df : DataFrame) :
  has_column c df = true <-> In c (columns df).
Proof.
  unfold has_column. rewrite existsb_exists. split.
  - intros [k [Hin Heq]]. apply String.eqb_eq in Heq. now subst.
  - intros Hin. exists c. split; [assumption | apply String.eqb_refl].
Qed.

Lemma has_column_false (c : string) (df : DataFrame) :
  has_column c df = false <-> ~ In c (columns df).
Proof.
  rewrite <- has_column_In. destruct (has_column c df); split; congruence.
Qed.

(** ** Validation *)

Section Validation.

Context {S : Type}.
Variable frame : S -> DataFrame.
Variable prefix : string.
Variable body : string -> M S unit.

(** What every validation loop body does: nothing when the column is
    there, and otherwise an exception that names it, the object being
    left as it was. *)
Hypothesis body_present : forall col st,
  has_column col (frame (fst st)) = true -> body col st = (inr tt, st).
Hypothesis body_absent : forall col st,
  has_column col (frame (fst st)) = false ->
  exists w', body col st = (inl (ValueError (prefix ++ col)), (fst st, w')).

(** The loop either passes and changes nothing, or stops at the first
    required column that is missing. *)
Lemma validation_loop_cases (required : list string) (st : S * world) :
  ((forall c, In c required -> In c (columns (frame (fst st)))) /\
   for_each required body st = (inr tt, st))
  \/
  (exists c w', missing_column required (frame (fst st)) c /\
                for_each required body st
                = (inl (ValueError (prefix ++ c)), (fst st, w'))).
Proof.
  induction required as [|c rest IH]; simpl.
  - left. split; [intros c [] | reflexivity].
  - unfold bind. destruct (has_column c (frame (fst st))) eqn:Hc.
    + rewrite (body_present _ _ Hc).
      destruct IH as [[Hall Hrun]|[m [w' [[Hin Hmiss] Hrun]]]].
      * left. split; [|assumption].
        intros c' [<-|Hc']; [now apply has_column_In | now apply Hall].
      * right. exists m, w'. split; [split; [now right | assumption]|assumption].
    + destruct (body_absent _ _ Hc) as [w' Hrun]. rewrite Hrun.
      right. exists c, w'. split; [split|reflexivity].
      * now left.
      * now apply has_column_false.
Qed.

End Validation.

Lemma packaging_validate (o : Packaging.optimizer) (w : world) :
  let r := Packaging._validate_data (o, w) in
  fst (snd r) = o /\
  ((exists c, missing_column Packaging.required_columns (Packaging.data o) c) <->
   (exists c, missing_column Packaging.required_columns (Packaging.data o) c /\
              fst r = inl (ValueError ("Missing required column: " ++ c)))) /\
  ((forall c, In c Packaging.required_columns ->
              In c (columns (Packaging.data o))) ->
   r = (inr tt, (o, w))).
Proof.
  intros r. subst r. unfold Packaging._validate_data.
  match goal with |- context [for_each _ ?b _] => set (body := b) end.
  destruct (validation_loop_cases Packaging.data "Missing required column: " body)
    with (required := Packaging.required_columns) (st := (o, w))
    as [[Hall Hrun]|[m [w' [Hmiss Hrun]]]].
  - intros col st H. unfold body, bind, self. simpl. now rewrite H.
  - intros col [o' w0] H. unfold body, bind, self, raise. simpl in *. rewrite H.
    eexists. reflexivity.
  - rewrite Hrun. cbn [fst snd] in *.
    split; [reflexivity | split; [split|]].
    + intros [c [Hin Hno]]. exfalso. apply Hno. now apply Hall.
    + intros [c [H _]]. now exists c.
    + intros _. reflexivity.
  - rewrite Hrun. cbn [fst snd] in *.
    split; [reflexivity | split; [split|]].
    + intros _. now exists m.
    + intros [c [H _]]. now exists c.
    + intros Hall. destruct Hmiss as [Hin Hno]. exfalso. apply Hno.
      now apply Hall.
Qed.

Lemma lifecycle_validate (o : Lifecycle.simulator) (w : world) :
  let r := Lifecycle._validate_data (o, w) in
  fst (snd r) = o /\
  ((exists c, missing_column Lifecycle.required_columns (Lifecycle.data o) c) <->
   (exists c, missing_column Lifecycle.required_columns (Lifecycle.data o) c /\
              fst r = inl (ValueError ("Missing required column: " ++ c)))) /\
  ((forall c, In c Lifecycle.required_columns ->
              In c (columns (Lifecycle.data o))) ->
   r = (inr tt, (o, mkWorld (log w ++ [(INFO, "Validating input data.")])
                            (out w)))).
Proof.
  intros r. subst r.
  cbv beta delta [Lifecycle._validate_data bind logging]. cbn [fst snd].
  match goal with |- context [for_each _ ?b ?s] => set (body := b); set (st := s) end.
  destruct (validation_loop_cases Lifecycle.data "Missing required column: " body)
    with (required := Lifecycle.required_columns) (st := st)
    as [[Hall Hrun]|[m [w' [Hmiss Hrun]]]].
  - intros col st' H. unfold body, bind, self. simpl. now rewrite H.
  - intros col [o' w0] H. unfold body, bind, self, logging, raise. simpl in *.
    rewrite H. eexists. reflexivity.
  - rewrite Hrun. cbn [fst snd] in *.
    split; [reflexivity | split; [split|]].
    + intros [c [Hin Hno]]. exfalso. apply Hno. now apply Hall.
    + intros [c [H _]]. now exists c.
    + intros _. reflexivity.
  - rewrite Hrun. cbn [fst snd] in *.
    split; [reflexivity | split; [split|]].
    + intros _. now exists m.
    + intros [c [H _]]. now exists c.
    + intros Hall. destruct Hmiss as [Hin Hno]. exfalso. apply Hno.
      now apply Hall.
Qed.

Lemma compliance_validate (v : Compliance.validator) (w : world) :
  let r := Compliance._validate_data (v, w) in
  fst (snd r) = v /\
  (((exists c, missing_column Compliance.required_data_columns
                 (Compliance.data v) c) \/
    (exists c, missing_column Compliance.required_regulation_columns
                 (Compliance.regulations v) c)) <->
   (exists c,
      (missing_column Compliance.required_data_columns (Compliance.data v) c /\
       fst r = inl (ValueError ("Missing required column in data: " ++ c))) \/
      (missing_column Compliance.required_regulation_columns
         (Compliance.regulations v) c /\
       fst r = inl (ValueError ("Missing required column in regulations: " ++ c))))) /\
  ((forall c, In c Compliance.required_data_columns ->
              In c (columns (Compliance.data v))) ->
   (forall c, In c Compliance.required_regulation_columns ->
              In c (columns (Compliance.regulations v))) ->
   r = (inr tt, (v, mkWorld (log w ++ [(INFO, "Validating input data format.")])
                            (out w)))).
Proof.
  intros r. subst r.
  cbv beta delta [Compliance._validate_data bind logging]. cbn [fst snd].
  match goal with
  | |- context [for_each Compliance.required_data_columns ?b ?s] =>
      set (body1 := b); set (st := s)
  end.
  match goal with
  | |- context [for_each Compliance.required_regulation_columns ?b] =>
      set (body2 := b)
  end.
  destruct (validation_loop_cases Compliance.data
              "Missing required column in data: " body1)
    with (required := Compliance.required_data_columns) (st := st)
    as [[Hall1 Hrun1]|[m [w' [Hmiss Hrun1]]]].
  - intros col st' H. unfold body1, bind, self. simpl. now rewrite H.
  - intros col [o' w0] H. unfold body1, bind, self, logging, raise. simpl in *.
    rewrite H. eexists. reflexivity.
  - rewrite Hrun1.
    destruct (validation_loop_cases Compliance.regulations
                "Missing required column in regulations: " body2)
      with (required := Compliance.required_regulation_columns) (st := st)
      as [[Hall2 Hrun2]|[m [w' [Hmiss Hrun2]]]].
    + intros col st' H. unfold body2, bind, self. simpl. now rewrite H.
    + intros col [o' w0] H. unfold body2, bind, self, logging, raise.
      simpl in *. rewrite H. eexists. reflexivity.
    + rewrite Hrun2. cbn [fst snd] in *.
      split; [reflexivity | split; [split|]].
      * intros [[c [Hin Hno]]|[c [Hin Hno]]]; exfalso; apply Hno;
          [now apply Hall1 | now apply Hall2].
      * intros [c [[H _]|[H _]]]; [left|right]; now exists c.
      * intros _ _. reflexivity.
    + rewrite Hrun2. cbn [fst snd] in *.
      split; [reflexivity | split; [split|]].
      * intros _. exists m. now right.
      * intros [c [[H _]|[H _]]]; [left|right]; now exists c.
      * intros _ Hall. destruct Hmiss as [Hin Hno]. exfalso. apply Hno.
        now apply Hall.
  - rewrite Hrun1. cbn [fst snd] in *.
    split; [reflexivity | split; [split|]].
    + intros _. exists m. now left.
    + intros [c [[H _]|[H _]]]; [left|right]; now exists c.
    + intros Hall _. destruct Hmiss as [Hin Hno]. exfalso. apply Hno.
      now apply Hall.
Qed.

(** ** Order on floats *)

Lemma ltb_Num (a b : Q) : ltb (Num a) (Num b) = true <-> a < b.
Proof.
  simpl. rewrite Qlt_alt. destruct (a ?= b); split; congruence.
Qed.

Lemma ltb_Num_false (a b : Q) : ltb (Num a) (Num b) = false <-> b <= a.
Proof.
  rewrite <- Bool.not_true_iff_false, ltb_Num. split.
  - apply Qnot_lt_le.
  - intros H1 H2. apply (Qlt_not_le _ _ H2 H1).
Qed.

Lemma eqb_Num (a b : Q) : eqb (Num a) (Num b) = true <-> a == b.
Proof. simpl. apply Qeq_bool_iff. Qed.

Lemma ltb_irrefl (a : cell) : ltb a a = false.
Proof.
  destruct a; try reflexivity. apply ltb_Num_false. apply Qle_refl.
Qed.

Lemma ltb_asym (a b : cell) : ltb a b = true -> ltb b a = false.
Proof.
  destruct a, b; simpl; try congruence.
  intros H. apply ltb_Num in H. apply ltb_Num_false. now apply Qlt_le_weak.
Qed.

(** On floats that are not NaN, "not smaller" is transitive. *)
Lemma not_ltb_trans (a b c : cell) :
  is_nan b = false ->
  ltb b a = false -> ltb c b = false -> ltb c a = false.
Proof.
  destruct a as [x| | |], b as [y| | |], c as [z| | |];
    simpl; try congruence.
  intros _ H1 H2.
  change (ltb (Num y) (Num x) = false) in H1.
  change (ltb (Num z) (Num y) = false) in H2.
  change (ltb (Num z) (Num x) = false).
  rewrite ltb_Num_false in *. eapply Qle_trans; eassumption.
Qed.

Lemma ltb_not_nan (a b : cell) :
  ltb a b = true -> is_nan a = false /\ is_nan b = false.
Proof. destruct a, b; simpl; intros; split; congruence. Qed.

(** ** Minimum and maximum of a series *)

Lemma nanmin_spec (l : list cell) :
  ((forall v, In v l -> is_nan v = true) /\ nanmin l = NaN)
  \/
  (is_nan (nanmin l) = false /\ In (nanmin l) l /\
   forall v, In v l -> is_nan v = false -> ltb v (nanmin l) = false).
Proof.
  induction l as [|x rest IH].
  - left. split; [intros v [] | reflexivity].
  - cbn [nanmin]. cbv zeta. destruct (is_nan x) eqn:Hx.
    + destruct IH as [[Hall Hmin]|[Hnan [Hin Hle]]].
      * left. split; [|assumption].
        intros v [<-|Hv]; [assumption | now apply Hall].
      * right. repeat split; [assumption | now right |].
        intros v [<-|Hv] Hv'; [congruence | now apply Hle].
    + right. destruct IH as [[Hall Hmin]|[Hnan [Hin Hle]]].
      * rewrite Hmin. cbn [is_nan]. repeat split; [assumption | now left |].
        intros v [<-|Hv] Hv'; [apply ltb_irrefl|].
        rewrite (Hall v Hv) in Hv'. discriminate.
      * rewrite Hnan. destruct (ltb (nanmin rest) x) eqn:Hlt.
        -- repeat split; [assumption | now right |].
           intros v [<-|Hv] Hv'; [now apply ltb_asym | now apply Hle].
        -- repeat split; [assumption | now left |].
           intros v [<-|Hv] Hv'; [apply ltb_irrefl|].
           apply (not_ltb_trans _ (nanmin rest)); [assumption|assumption|].
           now apply Hle.
Qed.

Lemma nanmax_spec (l : list cell) :
  ((forall v, In v l -> is_nan v = true) /\ nanmax l = NaN)
  \/
  (is_nan (nanmax l) = false /\ In (nanmax l) l /\
   forall v, In v l -> is_nan v = false -> ltb (nanmax l) v = false).
Proof.
  induction l as [|x rest IH].
  - left. split; [intros v [] | reflexivity].
  - cbn [nanmax]. cbv zeta. destruct (is_nan x) eqn:Hx.
    + destruct IH as [[Hall Hmax]|[Hnan [Hin Hle]]].
      * left. split; [|assumption].
        intros v [<-|Hv]; [assumption | now apply Hall].
      * right. repeat split; [assumption | now right |].
        intros v [<-|Hv] Hv'; [congruence | now apply Hle].
    + right. destruct IH as [[Hall Hmax]|[Hnan [Hin Hle]]].
      * rewrite Hmax. cbn [is_nan]. repeat split; [assumption | now left |].
        intros v [<-|Hv] Hv'; [apply ltb_irrefl|].
        rewrite (Hall v Hv) in Hv'. discriminate.
      * rewrite Hnan. destruct (ltb x (nanmax rest)) eqn:Hlt.
        -- repeat split; [assumption | now right |].
           intros v [<-|Hv] Hv'; [now apply ltb_asym | now apply Hle].
        -- repeat split; [assumption | now left |].
           intros v [<-|Hv] Hv'; [apply ltb_irrefl|].
           apply (not_ltb_trans _ (nanmax rest)); [assumption| |assumption].
           now apply Hle.
Qed.

(** ** Min-max scaling *)

Lemma div_nan_r (a : cell) : div a NaN = NaN.
Proof. now destruct a. Qed.

(** A column whose maximum equals its minimum scales to NaN throughout:
    every entry is 0/0, or NaN already. *)
Lemma min_max_degenerate (l : list cell) :
  eqb (nanmax l) (nanmin l) = true ->
  min_max l = map (fun _ => NaN) l.
Proof.
  intros Heq. unfold min_max. apply map_ext_in. intros v Hv.
  destruct (nanmin_spec l) as [[_ Hmin]|[Hmnan [_ Hmin]]];
    [rewrite Hmin in Heq; now destruct (nanmax l)|].
  destruct (nanmax_spec l) as [[_ Hmax]|[HMnan [_ Hmax]]];
    [rewrite Hmax in Heq; discriminate|].
  destruct (is_nan v) eqn:Hnan.
  { destruct v; try discriminate. reflexivity. }
  specialize (Hmin v Hv Hnan). specialize (Hmax v Hv Hnan).
  destruct (nanmin l) as [a| | |], (nanmax l) as [b| | |];
    try discriminate; try reflexivity.
  - destruct v as [x| | |]; try discriminate.
    apply ltb_Num_false in Hmin, Hmax. apply eqb_Num in Heq.
    cbn [sub div].
    assert (Hr : Qeq_bool (Qred (b - a)) 0 = true).
    { apply Qeq_bool_iff. rewrite Qred_correct. lra. }
    rewrite Hr. unfold qsign.
    assert (Hx : Qred (x - a) == 0) by (rewrite Qred_correct; lra).
    apply Qeq_alt in Hx. now rewrite Hx.
  - destruct v; try discriminate; reflexivity.
  - destruct v; try discriminate; reflexivity.
Qed.

(** A bounded entry is a number. *)
Lemma bounded_is_num (v : cell) : bounded v -> is_num v = true.
Proof. now destruct v. Qed.

Lemma bounded_or_missing_cases (v : cell) :
  bounded_or_missing v -> v = NaN \/ is_num v = true.
Proof. intros [->|H]; [now left | right; now apply bounded_is_num]. Qed.

(** On a column of numbers and missing entries whose numbers are not
    all equal, scaling puts the least number on 0 and the greatest on 1,
    and leaves the missing entries missing. *)
Lemma min_max_bounds (l : list cell) (a b : Q) :
  Forall (fun v => v = NaN \/ is_num v = true) l ->
  In (Num a) l -> In (Num b) l -> ~ a == b ->
  nanmin (min_max l) = Num 0 /\ nanmax (min_max l) = Num 1.
Proof.
  intros Hnum Ha Hb Hab.
  rewrite Forall_forall in Hnum.
  destruct (nanmin_spec l) as [[Hall _]|[Hmin_nn [Hmin_in Hmin]]];
    [specialize (Hall _ Ha); discriminate|].
  destruct (nanmax_spec l) as [[Hall _]|[Hmax_nn [Hmax_in Hmax]]];
    [specialize (Hall _ Ha); discriminate|].
  pose proof (Hnum _ Hmin_in) as Hp. pose proof (Hnum _ Hmax_in) as Hq.
  destruct (nanmin l) as [p| | |] eqn:Ep;
    try (destruct Hp; discriminate).
  destruct (nanmax l) as [q| | |] eqn:Eq;
    try (destruct Hq; discriminate).
  assert (Hbetween : forall x, In (Num x) l -> p <= x <= q).
  { intros x Hx. split.
    - apply ltb_Num_false. apply Hmin; [assumption | reflexivity].
    - apply ltb_Num_false. apply Hmax; [assumption | reflexivity]. }
  assert (Hpq : p < q).
  { destruct (Hbetween a Ha) as [Ha1 Ha2], (Hbetween b Hb) as [Hb1 Hb2].
    destruct (Qlt_le_dec p q) as [Hlt|Hge]; [assumption|].
    exfalso. apply Hab. lra. }
  set (r := Qred (q - p)).
  assert (Hr : 0 < r) by (unfold r; rewrite Qred_correct; lra).
  assert (Hr0 : Qeq_bool r 0 = false).
  { apply not_true_iff_false. rewrite Qeq_bool_iff. lra. }
  assert (Hscale : forall x, In (Num x) l ->
            div (sub (Num x) (Num p)) (sub (Num q) (Num p))
            = Num (Qred (Qred (x - p) / r))).
  { intros x Hx. cbn [sub div]. fold r. now rewrite Hr0. }
  assert (Hrange : forall x, In (Num x) l ->
            0 <= Qred (Qred (x - p) / r) <= 1).
  { intros x Hx. destruct (Hbetween x Hx) as [H1 H2].
    rewrite !Qred_correct. split.
    - apply Qle_shift_div_l; [assumption|]. lra.
    - apply Qle_shift_div_r; [assumption|]. unfold r. rewrite Qred_correct. lra. }
  assert (Hshape : forall v, In v (min_max l) -> is_nan v = false ->
            exists x, In (Num x) l /\ v = Num (Qred (Qred (x - p) / r))).
  { intros v Hv Hnn. unfold min_max in Hv. apply in_map_iff in Hv.
    destruct Hv as [u [Hu Hin]]. rewrite Ep, Eq in Hu.
    destruct (Hnum u Hin) as [->|Hnu].
    - rewrite <- Hu in Hnn. discriminate.
    - destruct u as [x| | |]; try discriminate.
      exists x. split; [assumption|]. rewrite <- Hu. now apply Hscale. }
  assert (Hzero : In (Num 0) (min_max l)).
  { unfold min_max. apply in_map_iff. exists (Num p). split; [|assumption].
    rewrite Ep, Eq, (Hscale p Hmin_in). f_equal.
    change 0 with (Qred 0). apply Qred_complete. rewrite Qred_correct.
    field. lra. }
  assert (Hone : In (Num 1) (min_max l)).
  { unfold min_max. apply in_map_iff. exists (Num q). split; [|assumption].
    rewrite Ep, Eq, (Hscale q Hmax_in). f_equal.
    change 1 with (Qred 1). apply Qred_complete. rewrite Qred_correct.
    unfold r. rewrite Qred_correct. field. lra. }
  split.
  - destruct (nanmin_spec (min_max l)) as [[Hall _]|[Hnn [Hin Hle]]];
      [specialize (Hall _ Hzero); discriminate|].
    destruct (Hshape _ Hin Hnn) as [x [Hx Hv]].
    specialize (Hle (Num 0) Hzero eq_refl). rewrite Hv in Hle |- *.
    apply ltb_Num_false in Hle. f_equal.
    destruct (Hrange x Hx) as [H0 _].
    change 0 with (Qred 0). apply Qred_complete.
    rewrite Qred_correct in Hle, H0. lra.
  - destruct (nanmax_spec (min_max l)) as [[Hall _]|[Hnn [Hin Hle]]];
      [specialize (Hall _ Hone); discriminate|].
    destruct (Hshape _ Hin Hnn) as [x [Hx Hv]].
    specialize (Hle (Num 1) Hone eq_refl). rewrite Hv in Hle |- *.
    apply ltb_Num_false in Hle. f_equal.
    destruct (Hrange x Hx) as [_ H1].
    change 1 with (Qred 1). apply Qred_complete.
    rewrite Qred_correct in Hle, H1. lra.
Qed.

(** ** Writing and reading columns *)

Lemma df_get_set_same (c : string) (s : series) (df : DataFrame) :
  df_get c (df_set c s df) = Some s.
Proof.
  induction df as [|[k old] rest IH]; simpl.
  - now rewrite String.eqb_refl.
  - destruct (String.eqb c k) eqn:E; simpl; rewrite E; [reflexivity | exact IH].
Qed.

Lemma df_get_set_other (c c' : string) (s : series) (df : DataFrame) :
  c <> c' -> df_get c' (df_set c s df) = df_get c' df.
Proof.
  intros Hne. induction df as [|[k old] rest IH]; simpl.
  - apply String.eqb_neq in Hne. rewrite String.eqb_sym in Hne. now rewrite Hne.
  - destruct (String.eqb c k) eqn:E; simpl.
    + apply String.eqb_eq in E. subst k.
      assert (E' : String.eqb c' c = false)
        by (apply String.eqb_neq; congruence).
      now rewrite E'.
    + now rewrite IH.
Qed.

(** ** The normalisation loop *)

Section NormalizeLoop.

Lemma normalize_loop_spec (cols : list string) :
  results_apart cols ->
  forall df,
    (forall c, In c cols -> numeric df c) ->
    exists df',
      normalize_loop cols df = (inr tt, df') /\
      (forall c l, In c cols -> df_get c df = Some (NumCol l) ->
                   df_get (normalized_name c) df' = Some (NumCol (min_max l))) /\
      (forall c, ~ In c (map normalized_name cols) -> df_get c df' = df_get c df).
Proof.
  induction cols as [|col rest IH]; intros [Hsrc Hdup] df Hnum.
  - exists df. split; [reflexivity|]. split; [intros c l []|reflexivity].
  - assert (Hrest : results_apart rest).
    { split.
      - intros c Hc Hin. apply (Hsrc c); [now right | now right].
      - now inversion Hdup. }
    simpl. destruct (df_get col df) as [s|] eqn:Hcol.
    + destruct (Hnum col (or_introl eq_refl) s Hcol) as [l ->].
      cbn [normalize_series].
      set (df1 := df_set (normalized_name col) (NumCol (min_max l)) df).
      assert (Hsame : forall c, In c (col :: rest) ->
                                df_get c df1 = df_get c df).
      { intros c Hc. apply df_get_set_other. intros Heq.
        apply (Hsrc col (or_introl eq_refl)). now rewrite Heq. }
      destruct (IH Hrest df1) as [df' [Hrun [Hnew Hold]]].
      { intros c Hc s Hs. rewrite (Hsame c (or_intror Hc)) in Hs.
        exact (Hnum c (or_intror Hc) s Hs). }
      exists df'. split; [assumption|]. split.
      * intros c l' [<-|Hc] Hget.
        -- rewrite Hold.
           ++ unfold df1. rewrite df_get_set_same. congruence.
           ++ now inversion Hdup.
        -- apply Hnew; [assumption|]. now rewrite (Hsame c (or_intror Hc)).
      * intros c Hc. rewrite Hold.
        -- apply df_get_set_other. intros Heq. apply Hc. left. exact Heq.
        -- intros Hin. apply Hc. now right.
    + destruct (IH Hrest df) as [df' [Hrun [Hnew Hold]]].
      { intros c Hc. apply Hnum. now right. }
      exists df'. split; [assumption|]. split.
      * intros c l' [<-|Hc] Hget; [congruence | now apply Hnew].
      * intros c Hc. apply Hold. intros Hin. apply Hc. now right.
Qed.

End NormalizeLoop.

Lemma packaging_results_apart : results_apart Packaging.columns_to_normalize.
Proof.
  split.
  - intros c Hc. simpl in Hc.
    repeat (destruct Hc as [<-|Hc]; [simpl; intuition discriminate|]).
    destruct Hc.
  - repeat constructor; simpl; intuition discriminate.
Qed.

Lemma lifecycle_results_apart : results_apart Lifecycle.columns_to_normalize.
Proof.
  split.
  - intros c Hc. simpl in Hc.
    repeat (destruct Hc as [<-|Hc]; [simpl; intuition discriminate|]).
    destruct Hc.
  - repeat constructor; simpl; intuition discriminate.
Qed.

Lemma packaging_normalize (o : Packaging.optimizer) (w : world) :
  (forall c, In c Packaging.columns_to_normalize ->
             numeric (Packaging.data o) c) ->
  exists o',
    Packaging.normalize_columns (o, w) = (inr tt, (o', w)) /\
    Packaging.optimized_results o' = Packaging.optimized_results o /\
    (forall c l, In c Packaging.columns_to_normalize ->
       df_get c (Packaging.data o) = Some (NumCol l) ->
       df_get (normalized_name c) (Packaging.data o')
       = Some (NumCol (min_max l))) /\
    (forall c, ~ In c (map normalized_name Packaging.columns_to_normalize) ->
       df_get c (Packaging.data o') = df_get c (Packaging.data o)).
Proof.
  intros Hnum.
  destruct (normalize_loop_spec _ packaging_results_apart _ Hnum)
    as [df' [Hrun [Hnew Hold]]].
  exists (Packaging.mkOptimizer df' (Packaging.optimized_results o)).
  unfold Packaging.normalize_columns. cbn [fst snd]. rewrite Hrun.
  repeat split; assumption.
Qed.

Lemma lifecycle_normalize (o : Lifecycle.simulator) (w : world) :
  (forall c, In c Lifecycle.columns_to_normalize ->
             numeric (Lifecycle.data o) c) ->
  exists o',
    Lifecycle.normalize_columns (o, w)
    = (inr tt, (o', mkWorld (log w ++ [(INFO, "Normalizing columns for simulation.")])
                            (out w))) /\
    Lifecycle.simulation_results o' = Lifecycle.simulation_results o /\
    (forall c l, In c Lifecycle.columns_to_normalize ->
       df_get c (Lifecycle.data o) = Some (NumCol l) ->
       df_get (normalized_name c) (Lifecycle.data o')
       = Some (NumCol (min_max l))) /\
    (forall c, ~ In c (map normalized_name Lifecycle.columns_to_normalize) ->
       df_get c (Lifecycle.data o') = df_get c (Lifecycle.data o)).
Proof.
  intros Hnum.
  destruct (normalize_loop_spec _ lifecycle_results_apart _ Hnum)
    as [df' [Hrun [Hnew Hold]]].
  exists (Lifecycle.mkSimulator df' (Lifecycle.simulation_results o)).
  unfold Lifecycle.normalize_columns, bind, logging. cbn [fst snd]. rewrite Hrun.
  repeat split; assumption.
Qed.



Lemma example_numeric (c : string) :
  In c Packaging.columns_to_normalize -> numeric example_materials c.
Proof.
  intros Hc s Hs. simpl in Hc.
  repeat (destruct Hc as [<-|Hc];
          [vm_compute in Hs; injection Hs as <-; eexists; reflexivity|]).
  destruct Hc.
Qed.

Lemma example_costs_bounded : Forall bounded_or_missing [Num 10; Num 2].
Proof.
  constructor; [right; vm_compute; split; discriminate|].
  constructor; [right; vm_compute; split; discriminate|].
  constructor.
Qed.

Lemma example_costs_varied : varied [Num 10; Num 2].
Proof. exists 10, 2. simpl. repeat split; try tauto. discriminate. Qed.


(** C5, as it stands, fails: on a frame whose cost column is constant
    (maximum equal to minimum) [normalize_columns] raises nothing and
    writes a column of NaN. *)
Lemma normalize_columns_degenerate_silent :
  let o := Packaging.mkOptimizer constant_costs None in
  let r := Packaging.normalize_columns (o, empty_world) in
  eqb (nanmax [Num 5; Num 5]) (nanmin [Num 5; Num 5]) = true /\
  df_get "Cost_per_unit" (Packaging.data o) = Some (NumCol [Num 5; Num 5]) /\
  ~ (exists e, fst r = inl e) /\
  fst r = inr tt /\
  df_get "Cost_per_unit_normalized" (Packaging.data (fst (snd r)))
  = Some (NumCol [NaN; NaN]).
Proof.
  cbv zeta. repeat split; try reflexivity.
  intros [e He]. vm_compute in He. discriminate.
Qed.

(** C5, amended.  [normalize_columns] never raises on account of a
    degenerate column: when the columns to normalise hold floats it ends
    normally, and a column whose maximum equals its minimum is
    normalised to NaN in every row. *)
Theorem normalize_columns_degenerate_nan :
  (forall (o : Packaging.optimizer) (w : world),
     (forall c, In c Packaging.columns_to_normalize ->
                numeric (Packaging.data o) c) ->
     exists o',
       Packaging.normalize_columns (o, w) = (inr tt, (o', w)) /\
       forall c l, In c Packaging.columns_to_normalize ->
         df_get c (Packaging.data o) = Some (NumCol l) ->
         eqb (nanmax l) (nanmin l) = true ->
         df_get (normalized_name c) (Packaging.data o')
         = Some (NumCol (map (fun _ => NaN) l)))
  /\
  (forall (o : Lifecycle.simulator) (w : world),
     (forall c, In c Lifecycle.columns_to_normalize ->
                numeric (Lifecycle.data o) c) ->
     exists o' w',
       Lifecycle.normalize_columns (o, w) = (inr tt, (o', w')) /\
       forall c l, In c Lifecycle.columns_to_normalize ->
         df_get c (Lifecycle.data o) = Some (NumCol l) ->
         eqb (nanmax l) (nanmin l) = true ->
         df_get (normalized_name c) (Lifecycle.data o')
         = Some (NumCol (map (fun _ => NaN) l))).
Proof.
  split.
  - intros o w Hnum.
    destruct (packaging_normalize o w Hnum) as [o' [Hrun [_ [Hnew _]]]].
    exists o'. split; [assumption|].
    intros c l Hc Hget Hdeg.
    rewrite (Hnew c l Hc Hget). now rewrite (min_max_degenerate l Hdeg).
  - intros o w Hnum.
    destruct (lifecycle_normalize o w Hnum) as [o' [Hrun [_ [Hnew _]]]].
    eexists o', _. split; [eassumption|].
    intros c l Hc Hget Hdeg.
    rewrite (Hnew c l Hc Hget). now rewrite (min_max_degenerate l Hdeg).
Qed.

Lemma constant_costs_numeric (c : string) :
  In c Packaging.columns_to_normalize -> numeric constant_costs c.
Proof.
  intros Hc s Hs. simpl in Hc.
  repeat (destruct Hc as [<-|Hc];
          [vm_compute in Hs; try discriminate;
           injection Hs as <-; eexists; reflexivity|]).
  destruct Hc.
Qed.

Lemma normalize_columns_degenerate_nan_witness :
  exists o',
    Packaging.normalize_columns
      (Packaging.mkOptimizer constant_costs None, empty_world)
    = (inr tt, (o', empty_world)) /\
    df_get "Cost_per_unit_normalized" (Packaging.data o')
    = Some (NumCol [NaN; NaN]).
Proof.
  destruct (proj1 normalize_columns_degenerate_nan
              (Packaging.mkOptimizer constant_costs None) empty_world
              constant_costs_numeric) as [o' [Hrun Hcols]].
  exists o'. split; [exact Hrun|].
  apply (Hcols "Cost_per_unit" [Num 5; Num 5]).
  - simpl. tauto.
  - reflexivity.
  - reflexivity.
Defined.

(** C4.  In the optimizer, the simulator and the compliance validator,
    [_validate_data] raises the missing-column error, naming a required
    column that is absent, exactly when some required column is absent;
    when all are present it returns normally; in every case the object,
    and so its tables, is left as it was. *)
Theorem validate_data_missing_column :
  (forall (o : Packaging.optimizer) (w : world),
     let r := Packaging._validate_data (o, w) in
     fst (snd r) = o /\
     ((exists c, missing_column Packaging.required_columns (Packaging.data o) c) <->
      (exists c, missing_column Packaging.required_columns (Packaging.data o) c /\
                 fst r = inl (ValueError ("Missing required column: " ++ c)))) /\
     ((forall c, In c Packaging.required_columns ->
                 In c (columns (Packaging.data o))) ->
      fst r = inr tt))
  /\
  (forall (o : Lifecycle.simulator) (w : world),
     let r := Lifecycle._validate_data (o, w) in
     fst (snd r) = o /\
     ((exists c, missing_column Lifecycle.required_columns (Lifecycle.data o) c) <->
      (exists c, missing_column Lifecycle.required_columns (Lifecycle.data o) c /\
                 fst r = inl (ValueError ("Missing required column: " ++ c)))) /\
     ((forall c, In c Lifecycle.required_columns ->
                 In c (columns (Lifecycle.data o))) ->
      fst r = inr tt))
  /\
  (forall (v : Compliance.validator) (w : world),
     let r := Compliance._validate_data (v, w) in
     fst (snd r) = v /\
     (((exists c, missing_column Compliance.required_data_columns
                    (Compliance.data v) c) \/
       (exists c, missing_column Compliance.required_regulation_columns
                    (Compliance.regulations v) c)) <->
      (exists c,
         (missing_column Compliance.required_data_columns (Compliance.data v) c /\
          fst r = inl (ValueError ("Missing required column in data: " ++ c))) \/
         (missing_column Compliance.required_regulation_columns
            (Compliance.regulations v) c /\
          fst r = inl (ValueError
                         ("Missing required column in regulations: " ++ c))))) /\
     ((forall c, In c Compliance.required_data_columns ->
                 In c (columns (Compliance.data v))) ->
      (forall c, In c Compliance.required_regulation_columns ->
                 In c (columns (Compliance.regulations v))) ->
      fst r = inr tt)).
Proof.
  split; [|split].
  - intros o w. destruct (packaging_validate o w) as [H1 [H2 H3]].
    cbv zeta. repeat split; try assumption; try apply H2.
    intros Hall. now rewrite (H3 Hall).
  - intros o w. destruct (lifecycle_validate o w) as [H1 [H2 H3]].
    cbv zeta. repeat split; try assumption; try apply H2.
    intros Hall. now rewrite (H3 Hall).
  - intros v w. destruct (compliance_validate v w) as [H1 [H2 H3]].
    cbv zeta. repeat split; try assumption; try apply H2.
    intros Hall1 Hall2. now rewrite (H3 Hall1 Hall2).
Qed.

Lemma validate_data_missing_column_witness :
  (exists c,
     missing_column Packaging.required_columns (tl example_materials) c /\
     fst (Packaging._validate_data
            (Packaging.mkOptimizer (tl example_materials) None, empty_world))
     = inl (ValueError ("Missing required column: " ++ c)))
  /\
  fst (Packaging._validate_data
         (Packaging.mkOptimizer example_materials None, empty_world))
  = inr tt.
Proof.
  split.
  - apply (proj1 validate_data_missing_column
             (Packaging.mkOptimizer (tl example_materials) None) empty_world).
    exists "Material". split.
    + simpl. tauto.
    + simpl. intuition discriminate.
  - apply (proj1 validate_data_missing_column
             (Packaging.mkOptimizer example_materials None) empty_world).
    intros c Hc. simpl in Hc |- *. tauto.
Defined.

(** ** Insertion sort *)

Section InsertionFacts.

Context {A : Type}.
Variable lt : A -> A -> bool.

Lemma insert_by_perm (x : A) (l : list A) :
  Permutation (x :: l) (insert_by lt x l).
Proof.
  induction l as [|y rest IH]; simpl.
  - apply Permutation_refl.
  - destruct (lt y x).
    + eapply perm_trans; [apply perm_swap|]. now apply perm_skip.
    + apply Permutation_refl.
Qed.

Lemma sort_by_perm (l : list A) : Permutation l (sort_by lt l).
Proof.
  induction l as [|x rest IH]; simpl.
  - constructor.
  - eapply perm_trans; [apply perm_skip, IH | apply insert_by_perm].
Qed.

(** Entries none of which is smaller than another keep their order. *)
Lemma insert_by_filter (p : A -> bool) (x : A) (l : list A) :
  (forall a, In a l -> p a = true -> p x = true -> lt a x = false) ->
  filter p (insert_by lt x l) = filter p (x :: l).
Proof.
  induction l as [|y rest IH]; intros Hp; simpl.
  - reflexivity.
  - destruct (lt y x) eqn:Hlt; [|reflexivity].
    simpl. rewrite IH by (intros a Ha; apply Hp; now right). simpl.
    destruct (p x) eqn:Hx, (p y) eqn:Hy; try reflexivity.
    rewrite (Hp y (or_introl eq_refl) Hy eq_refl) in Hlt. discriminate.
Qed.

Lemma sort_by_filter (p : A -> bool) (l : list A) :
  (forall a b, p a = true -> p b = true -> lt a b = false) ->
  filter p (sort_by lt l) = filter p l.
Proof.
  intros Hp. induction l as [|x rest IH]; simpl.
  - reflexivity.
  - rewrite insert_by_filter by (intros a _ Ha Hx; now apply Hp).
    simpl. now rewrite IH.
Qed.

(** Sortedness needs an order in which any two entries compare. *)
Variable ok : A -> Prop.
Hypothesis lt_asym : forall x y, lt x y = true -> lt y x = false.
Hypothesis not_lt_trans : forall x y z,
  ok y -> lt y x = false -> lt z y = false -> lt z x = false.

Lemma insert_by_sorted (x : A) (l : list A) :
  Forall ok l ->
  StronglySorted (fun a b => lt b a = false) l ->
  StronglySorted (fun a b => lt b a = false) (insert_by lt x l).
Proof.
  induction l as [|y rest IH]; intros Hok Hs; simpl.
  - repeat constructor.
  - inversion Hs as [|? ? Hrest Hy]; subst.
    inversion Hok as [|? ? Hoky Hokrest]; subst.
    destruct (lt y x) eqn:Hlt.
    + constructor; [now apply IH|].
      apply (Permutation_Forall (insert_by_perm x rest)).
      constructor; [now apply lt_asym | assumption].
    + constructor; [assumption|].
      constructor; [assumption|].
      rewrite Forall_forall in Hy |- *. intros z Hz.
      apply (not_lt_trans x y z); [assumption | assumption | now apply Hy].
Qed.

Lemma sort_by_sorted (l : list A) :
  Forall ok l -> StronglySorted (fun a b => lt b a = false) (sort_by lt l).
Proof.
  induction l as [|x rest IH]; intros Hok; simpl.
  - constructor.
  - inversion Hok; subst. apply insert_by_sorted.
    + apply (Permutation_Forall (sort_by_perm rest)). assumption.
    + now apply IH.
Qed.

End InsertionFacts.

(** ** Python's [sorted] *)

Lemma eqb_not_ltb (a b k : cell) :
  eqb a k = true -> eqb b k = true -> ltb a b = false.
Proof.
  destruct a as [x| | |], b as [y| | |], k as [z| | |];
    simpl; try congruence.
  intros H1 H2. apply Qeq_bool_iff in H1, H2.
  change (ltb (Num x) (Num y) = false). apply ltb_Num_false. lra.
Qed.

Lemma sorted_spec {A : Type} (key : A -> cell) (l : list A) :
  Permutation l (sorted key l) /\
  (Forall (fun a => is_nan (key a) = false) l ->
   StronglySorted (fun a b => ltb (key b) (key a) = false) (sorted key l)) /\
  (forall k, filter (fun a => eqb (key a) k) (sorted key l)
             = filter (fun a => eqb (key a) k) l).
Proof.
  unfold sorted. split; [apply sort_by_perm|]. split.
  - intros Hok.
    apply (sort_by_sorted (fun a b => ltb (key a) (key b))
             (fun a => is_nan (key a) = false)).
    + intros x y. apply ltb_asym.
    + intros x y z Hy. apply not_ltb_trans. exact Hy.
    + exact Hok.
  - intros k. apply sort_by_filter. intros a b. apply eqb_not_ltb.
Qed.

Lemma sorted_is_ranking (results : list (value * cell)) :
  is_ranking results (sorted score_of results).
Proof.
  destruct (sorted_spec score_of results) as [Hperm [Hsort Hties]].
  split; [assumption|]. intros Hok. split; [apply Hsort; exact Hok|exact Hties].
Qed.

Lemma score_rows_in_row_order (label : string) (features : list string)
    (minimize : solver) (objective : list cell -> cell) (rows : list row)
    (results : list (value * cell)) :
  score_rows label features minimize objective rows = inr results ->
  in_row_order label rows results.
Proof.
  revert results. induction rows as [|r rest IH]; intros results H; simpl in H.
  - injection H as <-. constructor.
  - unfold score_row in H.
    destruct (start_point features r) as [e|x0]; [discriminate|].
    destruct (row_get label r) as [e|name] eqn:Hname; [discriminate|].
    destruct (score_rows label features minimize objective rest)
      as [e|others]; [discriminate|].
    injection H as <-. constructor; [exact Hname | now apply IH].
Qed.

Lemma optimize_ranking (minimize : solver) (w : Packaging.weights)
    (o o' : Packaging.optimizer) (wd wd' : world)
    (ranked : list (value * cell)) :
  Packaging.optimize minimize w (o, wd) = (inr ranked, (o', wd')) ->
  Packaging.optimized_results o' = Some ranked /\
  exists results,
    in_row_order "Material" (iterrows (Packaging.data o')) results /\
    is_ranking results ranked.
Proof.
  unfold Packaging.optimize, bind, self, set_self, ret, raise.
  destruct (Packaging.normalize_columns (o, wd)) as [[e|[]] [o1 w1]];
    [discriminate|].
  cbn [fst snd].
  destruct (score_rows "Material" Packaging.normalized_features minimize
              (Packaging.objective_function w) (iterrows (Packaging.data o1)))
    as [e|results] eqn:Hrows; [discriminate|].
  intros H. injection H as <- <- <-. cbn.
  split; [reflexivity|]. exists results. split.
  - eapply score_rows_in_row_order. exact Hrows.
  - apply sorted_is_ranking.
Qed.

Lemma simulate_ranking (minimize : solver) (w : Lifecycle.weights)
    (o o' : Lifecycle.simulator) (wd wd' : world)
    (ranked : list (value * cell)) :
  Lifecycle.simulate minimize w (o, wd) = (inr ranked, (o', wd')) ->
  Lifecycle.simulation_results o' = Some ranked /\
  exists results,
    in_row_order "Stage" (iterrows (Lifecycle.data o')) results /\
    is_ranking results ranked.
Proof.
  unfold Lifecycle.simulate.
  unfold bind at 1. unfold logging at 1. cbn [fst snd].
  unfold bind at 1.
  destruct (Lifecycle.normalize_columns _) as [[e|[]] [o1 w1]];
    [discriminate|].
  unfold bind, self, set_self, ret, raise, logging. cbn [fst snd].
  destruct (score_rows "Stage" Lifecycle.normalized_features minimize
              (Lifecycle.objective_function w) (iterrows (Lifecycle.data o1)))
    as [e|results] eqn:Hrows; [discriminate|].
  intros H. injection H as <- <- <-. cbn.
  split; [reflexivity|]. exists results. split.
  - eapply score_rows_in_row_order. exact Hrows.
  - apply sorted_is_ranking.
Qed.

(** ** The bars of the circularity chart *)

Lemma StronglySorted_app {A : Type} (R : A -> A -> Prop) (l1 l2 : list A) :
  StronglySorted R l1 -> StronglySorted R l2 ->
  (forall a b, In a l1 -> In b l2 -> R a b) ->
  StronglySorted R (l1 ++ l2).
Proof.
  induction l1 as [|x rest IH]; intros H1 H2 H12; simpl.
  - assumption.
  - inversion H1 as [|? ? Hrest Hx]; subst. constructor.
    + apply IH; [assumption | assumption |].
      intros a b Ha Hb. apply H12; [now right | assumption].
    + apply Forall_app. split; [assumption|].
      apply Forall_forall. intros b Hb. apply H12; [now left | assumption].
Qed.

Lemma StronglySorted_map {A B : Type} (R : B -> B -> Prop) (f : A -> B)
    (l : list A) :
  StronglySorted (fun a b => R (f a) (f b)) l -> StronglySorted R (map f l).
Proof.
  induction 1 as [|x rest Hrest IH Hx]; simpl; constructor.
  - assumption.
  - apply Forall_map. assumption.
Qed.

Lemma filter_partition_perm {A : Type} (p : A -> bool) (l : list A) :
  Permutation (filter (fun a => negb (p a)) l ++ filter p l) l.
Proof.
  induction l as [|x rest IH]; simpl.
  - constructor.
  - destruct (p x); simpl.
    + apply Permutation_sym. apply Permutation_cons_app.
      now apply Permutation_sym.
    + now constructor.
Qed.

Lemma combine_map_same {A B C : Type} (f : A -> B) (g : A -> C) (l : list A) :
  combine (map f l) (map g l) = map (fun x => (f x, g x)) l.
Proof. induction l; simpl; congruence. Qed.

Lemma map_nth_seq {A : Type} (l : list A) (d : A) :
  map (fun i => nth i l d) (seq 0 (List.length l)) = l.
Proof.
  induction l as [|x rest IH]; simpl.
  - reflexivity.
  - f_equal. rewrite <- seq_shift, map_map. exact IH.
Qed.

Lemma df_get_map (f : series -> series) (c : string) (df : DataFrame) :
  df_get c (map (fun cs => (fst cs, f (snd cs))) df)
  = option_map f (df_get c df).
Proof.
  induction df as [|[k s] rest IH]; simpl.
  - reflexivity.
  - destruct (String.eqb c k); [reflexivity | exact IH].
Qed.

Lemma series_values_take (order : list nat) (s : series) :
  series_values (Circularity.take order s)
  = map (fun i => nth i (series_values s) (VNum NaN)) order.
Proof.
  destruct s as [l|l]; simpl.
  - rewrite map_map. apply map_ext. intros i.
    change (VNum NaN) with (VNum NaN). now rewrite (map_nth VNum).
  - reflexivity.
Qed.

Lemma existsb_is_str_floats (scores : list cell) :
  existsb Circularity.is_str (map VNum scores) = false.
Proof. induction scores; simpl; auto. Qed.

Lemma nan_rows_sorted (key : nat -> value) (l : list nat) :
  Forall (fun i => Circularity.value_isnan (key i) = true) l ->
  StronglySorted (fun a b => Circularity.value_ltb (key a) (key b) = false) l.
Proof.
  induction 1 as [|i rest Hi Hrest IH]; constructor; [assumption|].
  apply Forall_forall. intros j _.
  destruct (key i) as [[| | |]|]; try discriminate.
  now destruct (key j) as [[| | |]|].
Qed.

(** On a column of floats the bars come out by decreasing score, the
    bars without score last, and they are the rows of the frame. *)
Lemma visualize_circularity_bars (df : DataFrame) (material : series)
    (scores : list cell) (w : world) :
  df_get "circularity_score" df = Some (NumCol scores) ->
  df_get "material" df = Some material ->
  series_len material = List.length scores ->
  exists bars,
    Circularity.visualize_circularity df (tt, w)
    = (inr tt, (tt, mkWorld (log w)
                      (out w ++ [BarChart "Circularity Scores by Material" bars])))
    /\ Permutation (combine (series_values material) (map VNum scores)) bars
    /\ descending bars
    /\ descending_then_missing bars.
Proof.
  intros Hscore Hmat Hlen.
  unfold Circularity.visualize_circularity, Circularity.sort_values_descending.
  rewrite Hscore. cbn [series_values].
  unfold Circularity.unorderable. rewrite existsb_is_str_floats. cbn [andb].
  cbv zeta. rewrite !df_get_map, Hscore, Hmat. cbn [option_map].
  rewrite length_map.
  set (key := fun i => nth i (map VNum scores) (VNum NaN)).
  set (rows := seq 0 (List.length scores)).
  set (present := filter (fun i => negb (Circularity.value_isnan (key i))) rows).
  set (missing := filter (fun i => Circularity.value_isnan (key i)) rows).
  set (order := (sort_by (fun i j => Circularity.value_ltb (key j) (key i))
                   present ++ missing)%list).
  rewrite !series_values_take. cbn [series_values].
  rewrite combine_map_same.
  assert (Hkey : forall i, key i = VNum (nth i scores NaN)).
  { intros i. unfold key. apply (map_nth VNum). }
  assert (Hpresent : StronglySorted
            (fun i j => Circularity.value_ltb (key i) (key j) = false)
            (sort_by (fun i j => Circularity.value_ltb (key j) (key i)) present)).
  { apply (sort_by_sorted (fun i j => Circularity.value_ltb (key j) (key i))
             (fun i => Circularity.value_isnan (key i) = false)).
    - intros i j. rewrite !Hkey. simpl. apply ltb_asym.
    - intros i j k. rewrite !Hkey. simpl. intros Hj H1 H2.
      apply (not_ltb_trans _ (nth j scores NaN));
        [now destruct (nth j scores NaN) | assumption | assumption].
    - apply Forall_forall. intros i Hi. unfold present in Hi.
      apply filter_In in Hi. destruct Hi as [_ Hi].
      now apply negb_true_iff in Hi. }
  eexists. split; [reflexivity|]. split; [|split].
  - assert (Hperm : Permutation rows order).
    { unfold order. eapply perm_trans.
      - apply Permutation_sym.
        apply (filter_partition_perm
                 (fun i => Circularity.value_isnan (key i)) rows).
      - apply Permutation_app_tail. apply sort_by_perm. }
    eapply perm_trans; [|apply Permutation_map; exact Hperm].
    unfold rows. rewrite <- combine_map_same.
    assert (Hlen' : List.length scores = List.length (series_values material)).
    { rewrite <- Hlen. destruct material; simpl; [now rewrite length_map|reflexivity]. }
    rewrite Hlen' at 1. rewrite map_nth_seq.
    replace (List.length scores) with (List.length (map VNum scores))
      by apply length_map.
    rewrite map_nth_seq. apply Permutation_refl.
  - unfold descending. apply StronglySorted_map. cbn [snd]. fold key.
    unfold order. apply StronglySorted_app.
    + exact Hpresent.
    + refine (nan_rows_sorted key _ _).
      apply Forall_forall. intros i Hi. apply filter_In in Hi. tauto.
    + intros i j _ Hj. unfold missing in Hj. apply filter_In in Hj.
      destruct Hj as [_ Hj].
      pose proof (Hkey i) as Ki. pose proof (Hkey j) as Kj.
      unfold key in Ki, Kj, Hj. rewrite Kj in Hj. rewrite Ki, Kj. simpl in *.
      destruct (nth j scores NaN); try discriminate.
      now destruct (nth i scores NaN).
  - unfold order. rewrite map_app.
    eexists. eexists. split; [reflexivity|]. split; [|split].
    + apply Forall_forall. intros bar Hbar. apply in_map_iff in Hbar.
      destruct Hbar as [i [<- Hi]].
      apply (Permutation_in _ (Permutation_sym (sort_by_perm _ present))) in Hi.
      unfold present in Hi. apply filter_In in Hi.
      unfold has_score. cbn [snd]. tauto.
    + apply Forall_forall. intros bar Hbar. apply in_map_iff in Hbar.
      destruct Hbar as [i [<- Hi]].
      unfold missing in Hi. apply filter_In in Hi.
      unfold has_score. cbn [snd]. fold (key i).
      destruct Hi as [_ Hi]. change (Circularity.value_isnan (key i) = true) in Hi.
      now rewrite Hi.
    + unfold descending. apply StronglySorted_map. cbn [snd]. fold key.
      exact Hpresent.
Qed.

(** C3, as it stands, fails for the circularity analyzer: its chart shows
    the material with the greater score first, so the sequence is not
    ascending. *)
Lemma circularity_bars_not_ascending :
  out (snd (snd (Circularity.visualize_circularity example_circularity
                   (tt, empty_world))))
  = [BarChart "Circularity Scores by Material"
       [(VStr "Y", VNum (Num 2)); (VStr "X", VNum (Num 1))]]
  /\ ~ ascending [(VStr "Y", Num 2); (VStr "X", Num 1)].
Proof.
  split; [reflexivity|].
  intros H. inversion H as [|? ? _ Hfirst]; subst.
  inversion Hfirst as [|? ? Hlt _]; subst. discriminate.
Qed.

(** C3, amended.  What [optimize] and [simulate] return and store is the
    list of (label, score) pairs, filled in row order, ranked: the same
    entries and, when no score is NaN, ascending by score with entries
    of equal score in their original order.  [visualize_circularity]
    draws the rows of a frame with a float score column by descending
    score, the rows whose score is missing last. *)
Theorem ranking_order :
  (forall (minimize : solver) (w : Packaging.weights)
          (o o' : Packaging.optimizer) (wd wd' : world)
          (ranked : list (value * cell)),
     Packaging.optimize minimize w (o, wd) = (inr ranked, (o', wd')) ->
     Packaging.optimized_results o' = Some ranked /\
     exists results,
       in_row_order "Material" (iterrows (Packaging.data o')) results /\
       is_ranking results ranked)
  /\
  (forall (minimize : solver) (w : Lifecycle.weights)
          (o o' : Lifecycle.simulator) (wd wd' : world)
          (ranked : list (value * cell)),
     Lifecycle.simulate minimize w (o, wd) = (inr ranked, (o', wd')) ->
     Lifecycle.simulation_results o' = Some ranked /\
     exists results,
       in_row_order "Stage" (iterrows (Lifecycle.data o')) results /\
       is_ranking results ranked)
  /\
  (forall (df : DataFrame) (material : series) (scores : list cell)
          (w : world),
     df_get "circularity_score" df = Some (NumCol scores) ->
     df_get "material" df = Some material ->
     series_len material = List.length scores ->
     exists bars,
       Circularity.visualize_circularity df (tt, w)
       = (inr tt,
          (tt, mkWorld (log w)
                 (out w ++ [BarChart "Circularity Scores by Material" bars])))
       /\ Permutation (combine (series_values material) (map VNum scores)) bars
       /\ descending_then_missing bars).
Proof.
  split; [|split].
  - intros. eapply optimize_ranking. eassumption.
  - intros. eapply simulate_ranking. eassumption.
  - intros df material scores w Hscore Hmat Hlen.
    destruct (visualize_circularity_bars df material scores w Hscore Hmat Hlen)
      as [bars [Hrun [Hperm [_ Hbars]]]].
    exists bars. split; [exact Hrun|]. split; [exact Hperm|exact Hbars].
Qed.

Lemma ranking_order_witness :
  let run := Packaging.optimize coordinate_descent Packaging.default_weights
               (Packaging.mkOptimizer example_materials None, empty_world) in
  Packaging.optimized_results (fst (snd run))
  = Some [(VStr "A", Num 0); (VStr "B", Num 0)] /\
  exists results,
    in_row_order "Material" (iterrows (Packaging.data (fst (snd run)))) results /\
    is_ranking results [(VStr "A", Num 0); (VStr "B", Num 0)].
Proof.
  intros run.
  apply (proj1 ranking_order coordinate_descent Packaging.default_weights
           (Packaging.mkOptimizer example_materials None) (fst (snd run))
           empty_world (snd (snd run))).
  vm_compute. reflexivity.
Defined.

(** C9.  A result method called before the scoring stage raises before it
    does anything else: the object is as it was and nothing is printed,
    written or drawn.  The optimizer leaves the world untouched; the
    simulator first logs one error line. *)
Theorem results_before_scoring_raise :
  (forall (o : Packaging.optimizer) (w : world) (output_file : string),
     Packaging.optimized_results o = None ->
     Packaging.display_results (o, w)
     = (inl (ValueError "Run optimize() before displaying results."), (o, w)) /\
     Packaging.visualize_results (o, w)
     = (inl (ValueError "Run optimize() before visualizing results."), (o, w)) /\
     Packaging.visualize_results_interactive (o, w)
     = (inl (ValueError "Run optimize() before visualizing results."), (o, w)) /\
     Packaging.export_results output_file (o, w)
     = (inl (ValueError "Run optimize() before exporting results."), (o, w)))
  /\
  (forall (o : Lifecycle.simulator) (w : world) (output_file : string),
     Lifecycle.simulation_results o = None ->
     Lifecycle.display_results (o, w)
     = (inl (ValueError "Run simulate() before displaying results."),
        (o, mkWorld
              (log w ++ [(ERROR, "Attempted to display results before running simulation.")])
              (out w))) /\
     Lifecycle.visualize_results (o, w)
     = (inl (ValueError "Run simulate() before visualizing results."),
        (o, mkWorld
              (log w ++ [(ERROR, "Attempted to visualize results before running simulation.")])
              (out w))) /\
     Lifecycle.export_results output_file (o, w)
     = (inl (ValueError "Run simulate() before exporting results."),
        (o, mkWorld
              (log w ++ [(ERROR, "Attempted to export results before running simulation.")])
              (out w)))).
Proof.
  split.
  - intros o [lg ot] output_file Hnone.
    unfold Packaging.display_results, Packaging.visualize_results,
      Packaging.visualize_results_interactive, Packaging.export_results,
      bind, self, raise.
    cbn [fst snd]. rewrite Hnone. repeat split.
  - intros o [lg ot] output_file Hnone.
    unfold Lifecycle.display_results, Lifecycle.visualize_results,
      Lifecycle.export_results, bind, self, raise, logging.
    cbn [fst snd]. rewrite Hnone. repeat split.
Qed.

Lemma results_before_scoring_raise_witness :
  Packaging.export_results "optimized_results.csv"
    (Packaging.mkOptimizer example_materials None, empty_world)
  = (inl (ValueError "Run optimize() before exporting results."),
     (Packaging.mkOptimizer example_materials None, empty_world)).
Proof.
  apply (proj1 results_before_scoring_raise
           (Packaging.mkOptimizer example_materials None) empty_world
           "optimized_results.csv").
  reflexivity.
Defined.

(** ** KPI performance *)

Lemma nth_error_combine {A B : Type} (l1 : list A) (l2 : list B) (i : nat)
    (a : A) (b : B) :
  nth_error l1 i = Some a -> nth_error l2 i = Some b ->
  nth_error (combine l1 l2) i = Some (a, b).
Proof.
  revert l2 i. induction l1 as [|x r1 IH]; intros [|y r2] [|i]; simpl;
    try discriminate.
  - congruence.
  - apply IH.
Qed.

(** C7.  On float columns [Actual] and [Target] of one length,
    [calculate_performance] ends normally and writes, row by row,
    [Performance = Actual / Target * 100] and a [Status] that is
    ['On Track'] exactly when [Performance >= 100] and
    ['Needs Improvement'] otherwise. *)
Theorem calculate_performance_rows (t : KPI.tracker) (w : world)
    (actual target : list cell) :
  df_get "Actual" (KPI.data t) = Some (NumCol actual) ->
  df_get "Target" (KPI.data t) = Some (NumCol target) ->
  List.length actual = List.length target ->
  exists t' w' performance status,
    KPI.calculate_performance (t, w) = (inr tt, (t', w')) /\
    df_get "Performance" (KPI.data t') = Some (NumCol performance) /\
    df_get "Status" (KPI.data t') = Some (StrCol status) /\
    List.length performance = List.length actual /\
    List.length status = List.length actual /\
    forall i a g,
      nth_error actual i = Some a -> nth_error target i = Some g ->
      nth_error performance i = Some (mul (div a g) (Num 100)) /\
      exists s,
        nth_error status i = Some s /\
        (geb (mul (div a g) (Num 100)) (Num 100) = true -> s = "On Track") /\
        (geb (mul (div a g) (Num 100)) (Num 100) = false ->
         s = "Needs Improvement").
Proof.
  intros Ha Ht Hlen.
  unfold KPI.calculate_performance, bind, logging, self, set_self.
  cbn [fst snd]. rewrite Ha, Ht. cbn [KPI.series_div].
  set (ratio := map (fun p => div (fst p) (snd p)) (combine actual target)).
  set (performance := map (fun q => mul q (Num 100)) ratio).
  eexists _, _, performance, (map KPI.status_of performance).
  split; [reflexivity|]. cbn [KPI.data].
  split; [rewrite df_get_set_other by discriminate; apply df_get_set_same|].
  split; [apply df_get_set_same|].
  assert (Hperf : List.length performance = List.length actual).
  { unfold performance, ratio. rewrite !length_map, length_combine. lia. }
  split; [exact Hperf|]. split; [now rewrite length_map|].
  intros i a g Hia Hig.
  assert (Hp : nth_error performance i = Some (mul (div a g) (Num 100))).
  { unfold performance, ratio. rewrite !nth_error_map.
    now rewrite (nth_error_combine _ _ _ _ _ Hia Hig). }
  split; [exact Hp|].
  exists (KPI.status_of (mul (div a g) (Num 100))). split.
  - now rewrite nth_error_map, Hp.
  - unfold KPI.status_of. split; intros ->; reflexivity.
Qed.

Lemma calculate_performance_rows_witness :
  exists t' w' performance status,
    KPI.calculate_performance (KPI.mkTracker example_kpis, empty_world)
    = (inr tt, (t', w')) /\
    df_get "Performance" (KPI.data t') = Some (NumCol performance) /\
    df_get "Status" (KPI.data t') = Some (StrCol status) /\
    nth_error performance 1 = Some (Num 80) /\
    nth_error status 1 = Some "Needs Improvement".
Proof.
  destruct (calculate_performance_rows (KPI.mkTracker example_kpis) empty_world
              [Num 120; Num 40; Num 3] [Num 100; Num 50; Num 0]
              eq_refl eq_refl eq_refl)
    as [t' [w' [performance [status [Hrun [Hp [Hs [_ [_ Hrows]]]]]]]]].
  exists t', w', performance, status.
  destruct (Hrows 1%nat (Num 40) (Num 50) eq_refl eq_refl)
    as [Hperf [s [Hstat [_ Hlow]]]].
  repeat split; try assumption.
  rewrite Hstat. f_equal. apply Hlow. reflexivity.
Defined.

(** ** The left join *)

Lemma df_get_app (c : string) (l1 l2 : DataFrame) :
  df_get c (List.app l1 l2)
  = match df_get c l1 with
    | Some s => Some s
    | None => df_get c l2
    end.
Proof.
  induction l1 as [|[k s] rest IH]; simpl.
  - reflexivity.
  - destruct (String.eqb c k); [reflexivity | exact IH].
Qed.

Lemma df_get_None (c : string) (df : DataFrame) :
  df_get c df = None <-> has_column c df = false.
Proof.
  unfold has_column, columns. induction df as [|[k s] rest IH]; simpl.
  - tauto.
  - destruct (String.eqb c k); simpl; [split; discriminate | exact IH].
Qed.

Lemma df_get_In (c : string) (s : series) (df : DataFrame) :
  df_get c df = Some s -> In c (columns df).
Proof.
  intros H. apply has_column_In.
  destruct (has_column c df) eqn:E; [reflexivity|].
  apply df_get_None in E. congruence.
Qed.

(** Renaming the columns of a frame does not disturb a column whose name
    no other column takes. *)
Lemma df_get_rename (rename : string -> string) (f : series -> series)
    (c : string) (df : DataFrame) :
  (forall k, In k (columns df) ->
             (k = c -> rename k = c) /\ (k <> c -> rename k <> c)) ->
  df_get c (map (fun cs => (rename (fst cs), f (snd cs))) df)
  = option_map f (df_get c df).
Proof.
  induction df as [|[k s] rest IH]; intros Hr; simpl.
  - reflexivity.
  - destruct (Hr k (or_introl eq_refl)) as [Hsame Hother].
    destruct (String.eqb c k) eqn:E.
    + apply String.eqb_eq in E. subst k. rewrite (Hsame eq_refl).
      now rewrite String.eqb_refl.
    + apply String.eqb_neq in E.
      assert (E' : String.eqb c (rename k) = false).
      { apply String.eqb_neq. intros Heq. apply (Hother (not_eq_sym E)).
        now symmetry. }
      rewrite E'. apply IH. intros k' Hk'. apply Hr. now right.
Qed.

Lemma df_get_filter_other (c on : string) (df : DataFrame) :
  c <> on ->
  df_get c (filter (fun cs => negb (String.eqb (fst cs) on)) df) = df_get c df.
Proof.
  intros Hne. induction df as [|[k s] rest IH]; simpl.
  - reflexivity.
  - destruct (String.eqb k on) eqn:E; simpl.
    + apply String.eqb_eq in E. subst k.
      apply String.eqb_neq in Hne. now rewrite Hne.
    + destruct (String.eqb c k); [reflexivity | exact IH].
Qed.

Lemma columns_filter_In (on k : string) (df : DataFrame) :
  In k (columns (filter (fun cs => negb (String.eqb (fst cs) on)) df)) ->
  In k (columns df) /\ k <> on.
Proof.
  unfold columns. rewrite in_map_iff. intros [[k' s] [Hk Hin]].
  simpl in Hk. subst k'. apply filter_In in Hin. destruct Hin as [Hin Hne].
  simpl in Hne. apply negb_true_iff, String.eqb_neq in Hne.
  split; [|assumption]. apply in_map_iff. now exists (k, s).
Qed.

(** The suffixes of the join never produce the names the lambda reads. *)
Lemma suffix_x_not_Status (k : string) : k ++ "_x" <> "Status".
Proof.
  intros H.
  do 6 (destruct k as [|? k]; [discriminate | simpl in H; injection H as _ H]).
  destruct k; discriminate.
Qed.

Lemma suffix_x_not_Threshold (k : string) : k ++ "_x" <> "Threshold".
Proof.
  intros H.
  do 9 (destruct k as [|? k]; [discriminate | simpl in H; injection H as _ H]).
  destruct k; discriminate.
Qed.

Lemma suffix_y_not_Threshold (k : string) : k ++ "_y" <> "Threshold".
Proof.
  intros H.
  do 9 (destruct k as [|? k]; [discriminate | simpl in H; injection H as _ H]).
  destruct k; discriminate.
Qed.

Lemma row_get_row_at (c : string) (df : DataFrame) (i : nat) :
  row_get c (row_at df i)
  = match df_get c df with
    | Some s => inr (nth i (series_values s) (VNum NaN))
    | None => inl (KeyError c)
    end.
Proof.
  unfold row_at. induction df as [|[k s] rest IH]; simpl.
  - reflexivity.
  - destruct (String.eqb c k); [reflexivity | exact IH].
Qed.

Lemma apply_rows_map (f : row -> exn + string) (g : row -> string)
    (rows : list row) :
  (forall r, In r rows -> f r = inr (g r)) ->
  Compliance.apply_rows f rows = inr (map g rows).
Proof.
  induction rows as [|r rest IH]; intros H; simpl.
  - reflexivity.
  - rewrite (H r (or_introl eq_refl)), IH; [reflexivity|].
    intros r' Hr'. apply H. now right.
Qed.

Lemma map_seq_nth2 {A B C D : Type} (f1 : A -> B) (f2 : A -> C)
    (h : B -> C -> D) (d1 : B) (d2 : C) (l : list A) :
  map (fun i => h (nth i (map f1 l) d1) (nth i (map f2 l) d2))
      (seq 0 (List.length l))
  = map (fun p => h (f1 p) (f2 p)) l.
Proof.
  induction l as [|x rest IH]; simpl.
  - reflexivity.
  - f_equal. rewrite <- seq_shift, map_map. exact IH.
Qed.

Lemma nrows_df_set (c : string) (s : series) (df : DataFrame) :
  df <> [] -> series_len s = nrows df -> nrows (df_set c s df) = nrows df.
Proof.
  destruct df as [|[k old] rest]; intros Hne Hlen; [congruence|].
  simpl. destruct (String.eqb c k); simpl; [exact Hlen | reflexivity].
Qed.

Lemma key_mismatch_same (a b : series) :
  Compliance.same_dtype a b = true -> Compliance.key_mismatch a b = false.
Proof.
  intros H. unfold Compliance.key_mismatch. rewrite H.
  cbn [negb]. now rewrite andb_false_r.
Qed.

Section Join.

Variable v : Compliance.validator.
Variables status threshold : list cell.
Variables lkeys rkeys : series.
Hypothesis Hjoin : joinable v status threshold lkeys rkeys.

Let idx : list (nat * option nat) :=
  Compliance.join_from 0 (series_values lkeys) (series_values rkeys).

Let status_of_row (p : nat * option nat) : cell := nth (fst p) status NaN.

Let threshold_of_row (p : nat * option nat) : cell :=
  match snd p with
  | Some j => nth j threshold NaN
  | None => NaN
  end.

(** The run of [check_compliance] on joinable tables, column by column:
    one row per pair of the join, with the status of its data row, the
    threshold of its regulation or NaN, and the label of the two. *)
Lemma check_compliance_run (w : world) :
  exists v' w',
    Compliance.check_compliance (v, w) = (inr tt, (v', w')) /\
    nrows (Compliance.data v') = List.length idx /\
    df_get "Status" (Compliance.data v')
    = Some (NumCol (map status_of_row idx)) /\
    df_get "Threshold" (Compliance.data v')
    = Some (NumCol (map threshold_of_row idx)) /\
    df_get "Compliance" (Compliance.data v')
    = Some (StrCol (map (fun p => label_of (status_of_row p)
                                           (threshold_of_row p)) idx)).
Proof.
  destruct Hjoin as [Hst [Hth [Hno_th [Hno_st [Hlk [Hrk Hdt]]]]]].
  unfold Compliance.check_compliance, bind, logging, self, set_self, raise.
  cbn [fst snd]. unfold Compliance.merge_left.
  rewrite Hlk, Hrk, (key_mismatch_same _ _ Hdt). cbn [negb].
  fold idx.
  set (left' := map _ (Compliance.data v)).
  set (right' := map _ (filter _ (Compliance.regulations v))).
  set (merged := (left' ++ right')%list).
  assert (Hms : df_get "Status" merged = Some (NumCol (map status_of_row idx))).
  { unfold merged. rewrite df_get_app. unfold left'.
    rewrite (df_get_rename
               (fun k => if negb (String.eqb k "Requirement")
                            && has_column k (Compliance.regulations v)
                         then k ++ "_x" else k)
               (Compliance.take_left idx)).
    - rewrite Hst. reflexivity.
    - intros k _. split.
      + intros ->. now rewrite Hno_st.
      + intros Hne. destruct (_ && _); [apply suffix_x_not_Status | exact Hne]. }
  assert (Hmt : df_get "Threshold" merged
                = Some (NumCol (map threshold_of_row idx))).
  { unfold merged. rewrite df_get_app. unfold left'.
    rewrite (df_get_rename
               (fun k => if negb (String.eqb k "Requirement")
                            && has_column k (Compliance.regulations v)
                         then k ++ "_x" else k)
               (Compliance.take_left idx)).
    - rewrite (proj2 (df_get_None _ _) Hno_th). cbn [option_map].
      unfold right'.
      rewrite (df_get_rename
                 (fun k => if has_column k (Compliance.data v)
                           then k ++ "_y" else k)
                 (Compliance.take_right idx)).
      + rewrite df_get_filter_other by discriminate. rewrite Hth. reflexivity.
      + intros k _. split.
        * intros ->. now rewrite Hno_th.
        * intros Hne. destruct (has_column k _);
            [apply suffix_y_not_Threshold | exact Hne].
    - intros k Hk. split.
      + intros ->. exfalso. apply has_column_false in Hno_th. contradiction.
      + intros Hne. destruct (_ && _); [apply suffix_x_not_Threshold | exact Hne]. }
  assert (Hrows : nrows merged = List.length idx).
  { unfold merged, left'. destruct (Compliance.data v) as [|[k s] rest].
    - discriminate.
    - simpl. destruct s; simpl; apply length_map. }
  assert (Hne : merged <> []).
  { intros E. rewrite E in Hms. discriminate. }
  assert (Hlabels :
            Compliance.apply_rows Compliance.compliance_of (iterrows merged)
            = inr (map (fun p => label_of (status_of_row p) (threshold_of_row p))
                       idx)).
  { unfold iterrows. rewrite Hrows.
    rewrite (apply_rows_map _
               (fun r => match row_get "Status" r, row_get "Threshold" r with
                         | inr (VNum s), inr (VNum t) => label_of s t
                         | _, _ => ""
                         end)).
    - rewrite map_map. f_equal.
      rewrite <- (map_seq_nth2 status_of_row threshold_of_row label_of NaN NaN).
      apply map_ext. intros i.
      rewrite !row_get_row_at, Hms, Hmt. cbn [series_values].
      now rewrite !(map_nth VNum).
    - intros r Hr. apply in_map_iff in Hr. destruct Hr as [i [<- _]].
      unfold Compliance.compliance_of.
      rewrite !row_get_row_at, Hms, Hmt. cbn [series_values].
      rewrite !(map_nth VNum). cbn [Compliance.value_ge]. unfold label_of.
      now destruct (geb _ _). }
  rewrite Hlabels. cbn [fst snd].
  eexists _, _. split; [reflexivity|]. cbn [Compliance.data].
  split; [|split; [|split]].
  - rewrite nrows_df_set; [exact Hrows | exact Hne |].
    unfold StrCol. simpl. rewrite !length_map. now rewrite Hrows.
  - rewrite df_get_set_other by discriminate. exact Hms.
  - rewrite df_get_set_other by discriminate. exact Hmt.
  - apply df_get_set_same.
Qed.

End Join.

Lemma ltb_not_geb (s t : cell) : ltb s t = true -> geb s t = false.
Proof.
  intros H. unfold geb. rewrite (ltb_asym _ _ H). simpl.
  destruct s as [x| | |], t as [y| | |]; simpl in *; try congruence.
  change (ltb (Num x) (Num y) = true) in H. apply ltb_Num in H.
  apply not_true_iff_false. rewrite Qeq_bool_iff. lra.
Qed.

Lemma eqb_geb (s t : cell) : eqb s t = true -> geb s t = true.
Proof. intros H. unfold geb. rewrite H. apply orb_true_r. Qed.

Lemma geb_nan (s : cell) : geb s NaN = false.
Proof. now destruct s. Qed.

Lemma nth_map_default {A B : Type} (f : A -> B) (l : list A) (i : nat)
    (d : B) (d' : A) :
  (i < List.length l)%nat -> nth i (map f l) d = f (nth i l d').
Proof.
  intros Hi. rewrite (nth_indep _ d (f d')) by now rewrite length_map.
  apply map_nth.
Qed.

(** C6.  On joinable tables [check_compliance] ends normally, and in its
    result every row whose status equals its threshold is labelled
    ['Compliant'] and every row whose status is below its threshold is
    labelled ['Non-Compliant']. *)
Theorem check_compliance_threshold_boundary (v : Compliance.validator)
    (w : world) (status threshold : list cell) (lkeys rkeys : series) :
  joinable v status threshold lkeys rkeys ->
  exists v' w',
    Compliance.check_compliance (v, w) = (inr tt, (v', w')) /\
    forall i s t,
      (i < nrows (Compliance.data v'))%nat ->
      row_get "Status" (row_at (Compliance.data v') i) = inr (VNum s) ->
      row_get "Threshold" (row_at (Compliance.data v') i) = inr (VNum t) ->
      (eqb s t = true ->
       row_get "Compliance" (row_at (Compliance.data v') i)
       = inr (VStr "Compliant")) /\
      (ltb s t = true ->
       row_get "Compliance" (row_at (Compliance.data v') i)
       = inr (VStr "Non-Compliant")).
Proof.
  intros Hjoin.
  destruct (check_compliance_run v status threshold lkeys rkeys Hjoin w)
    as [v' [w' [Hrun [Hrows [Hs [Ht Hc]]]]]].
  exists v', w'. split; [exact Hrun|].
  intros i s t Hi Hsi Hti.
  rewrite row_get_row_at, Hs in Hsi. rewrite row_get_row_at, Ht in Hti.
  rewrite row_get_row_at, Hc. cbn [series_values] in *. unfold StrCol.
  cbn [series_values].
  rewrite Hrows in Hi.
  set (d := (List.length status, @None nat)).
  rewrite (nth_map_default VNum _ _ _ NaN) in Hsi by now rewrite length_map.
  rewrite (nth_map_default VNum _ _ _ NaN) in Hti by now rewrite length_map.
  rewrite (nth_map_default _ _ _ _ d) in Hsi by assumption.
  rewrite (nth_map_default _ _ _ _ d) in Hti by assumption.
  rewrite (nth_map_default VStr _ _ _ "") by now rewrite length_map.
  rewrite (nth_map_default _ _ _ _ d) by assumption.
  injection Hsi as Hsi. injection Hti as Hti. rewrite Hsi, Hti.
  unfold label_of. split.
  - intros H. now rewrite (eqb_geb _ _ H).
  - intros H. now rewrite (ltb_not_geb _ _ H).
Qed.

Lemma example_joinable :
  joinable example_validator [Num 50; Num 49; Num 70] [Num 50; Num 50]
    (StrCol ["Emissions"; "Recycling"; "Noise"])
    (StrCol ["Emissions"; "Recycling"]).
Proof. repeat split. Qed.

Lemma check_compliance_threshold_boundary_witness :
  exists v' w',
    Compliance.check_compliance (example_validator, empty_world)
    = (inr tt, (v', w')) /\
    row_get "Compliance" (row_at (Compliance.data v') 0)
    = inr (VStr "Compliant") /\
    row_get "Compliance" (row_at (Compliance.data v') 1)
    = inr (VStr "Non-Compliant").
Proof.
  destruct (check_compliance_threshold_boundary example_validator empty_world
              _ _ _ _ example_joinable) as [v' [w' [Hrun Hrows]]].
  exists v', w'. split; [exact Hrun|].
  vm_compute in Hrun. injection Hrun as <- <-.
  split.
  - apply (Hrows 0%nat (Num 50) (Num 50)); try reflexivity. vm_compute. lia.
  - apply (Hrows 1%nat (Num 49) (Num 50)); try reflexivity. vm_compute. lia.
Defined.

(** ** Rows without regulation *)

Lemma matches_from_none (j : nat) (key : value) (rkeys : list value) :
  (forall k, In k rkeys -> Compliance.key_eqb key k = false) ->
  Compliance.matches_from j key rkeys = [].
Proof.
  revert j. induction rkeys as [|r rest IH]; intros j H; simpl.
  - reflexivity.
  - rewrite (H r (or_introl eq_refl)). apply IH. intros k Hk. apply H. now right.
Qed.

Lemma join_from_unmatched (i0 i : nat) (key : value) (lkeys rkeys : list value) :
  nth_error lkeys i = Some key ->
  Compliance.matches_from 0 key rkeys = [] ->
  In ((i0 + i)%nat, None) (Compliance.join_from i0 lkeys rkeys).
Proof.
  revert i0 i. induction lkeys as [|k rest IH]; intros i0 [|i] Hkey Hnone;
    simpl in Hkey; try discriminate.
  - injection Hkey as ->. simpl. rewrite Hnone. left. f_equal. lia.
  - simpl. apply in_or_app. right.
    replace (i0 + S i)%nat with (S i0 + i)%nat by lia. now apply IH.
Qed.

Lemma join_head_fst (i0 : nat) (ms : list nat) (p : nat * option nat) :
  In p match ms with
       | [] => [(i0, None)]
       | m :: rest => map (fun j => (i0, Some j)) (m :: rest)
       end ->
  fst p = i0.
Proof.
  destruct ms as [|m ms]; simpl.
  - intros [<-|[]]. reflexivity.
  - intros [<-|H]; [reflexivity|].
    apply in_map_iff in H. destruct H as [j [<- _]]. reflexivity.
Qed.

Lemma join_from_fst (i0 : nat) (lkeys rkeys : list value)
    (p : nat * option nat) :
  In p (Compliance.join_from i0 lkeys rkeys) -> (i0 <= fst p)%nat.
Proof.
  revert i0. induction lkeys as [|k rest IH]; intros i0 Hp;
    cbn [Compliance.join_from] in Hp.
  - destruct Hp.
  - apply in_app_or in Hp. destruct Hp as [Hp|Hp].
    + apply join_head_fst in Hp. lia.
    + specialize (IH _ Hp). lia.
Qed.

Lemma join_from_partner (i0 i : nat) (oj : option nat) (key : value)
    (lkeys rkeys : list value) :
  In ((i0 + i)%nat, oj) (Compliance.join_from i0 lkeys rkeys) ->
  nth_error lkeys i = Some key ->
  Compliance.matches_from 0 key rkeys = [] ->
  oj = None.
Proof.
  revert i0 i. induction lkeys as [|k rest IH]; intros i0 i Hin Hkey Hnone.
  - destruct i; discriminate.
  - cbn [Compliance.join_from] in Hin. apply in_app_or in Hin.
    destruct Hin as [Hin|Hin].
    + pose proof (join_head_fst _ _ _ Hin) as Hfst. simpl in Hfst.
      assert (i = 0)%nat as -> by lia.
      simpl in Hkey. injection Hkey as ->. rewrite Hnone in Hin.
      destruct Hin as [Hin|[]]. now injection Hin.
    + destruct i as [|i].
      * exfalso. apply join_from_fst in Hin. simpl in Hin. lia.
      * simpl in Hkey. apply (IH (S i0) i); [|assumption|assumption].
        now replace (S i0 + i)%nat with (i0 + S i)%nat by lia.
Qed.

(** C10.  On joinable tables [check_compliance] ends normally; every
    data row whose requirement matches no regulation is in the result
    without partner, and each result row that stems from it has a
    missing (NaN) threshold and the label ['Non-Compliant']. *)
Theorem unmatched_requirement_non_compliant (v : Compliance.validator)
    (w : world) (status threshold : list cell) (lkeys rkeys : series) :
  joinable v status threshold lkeys rkeys ->
  exists v' w',
    Compliance.check_compliance (v, w) = (inr tt, (v', w')) /\
    forall i key,
      nth_error (series_values lkeys) i = Some key ->
      (forall k, In k (series_values rkeys) ->
                 Compliance.key_eqb key k = false) ->
      let rows := Compliance.join_from 0 (series_values lkeys)
                    (series_values rkeys) in
      In (i, None) rows /\
      forall n oj,
        nth_error rows n = Some (i, oj) ->
        oj = None /\
        row_get "Status" (row_at (Compliance.data v') n)
        = inr (VNum (nth i status NaN)) /\
        row_get "Threshold" (row_at (Compliance.data v') n) = inr (VNum NaN) /\
        row_get "Compliance" (row_at (Compliance.data v') n)
        = inr (VStr "Non-Compliant").
Proof.
  intros Hjoin.
  destruct (check_compliance_run v status threshold lkeys rkeys Hjoin w)
    as [v' [w' [Hrun [Hrows [Hs [Ht Hc]]]]]].
  exists v', w'. split; [exact Hrun|].
  intros i key Hkey Hnone rows.
  pose proof (matches_from_none 0 key _ Hnone) as Hm.
  split.
  - apply (join_from_unmatched 0 i key); assumption.
  - intros n oj Hn.
    assert (Hoj : oj = None).
    { apply (join_from_partner 0 i oj key (series_values lkeys)
               (series_values rkeys)); try assumption.
      simpl. eapply nth_error_In. exact Hn. }
    subst oj. split; [reflexivity|].
    assert (Hlt : (n < List.length rows)%nat).
    { apply nth_error_Some. congruence. }
    apply (nth_error_nth _ _ (List.length status, @None nat)) in Hn.
    rewrite !row_get_row_at, Hs, Ht, Hc. unfold StrCol. cbn [series_values].
    rewrite !(nth_map_default VNum _ _ _ NaN) by now rewrite length_map.
    rewrite (nth_map_default VStr _ _ _ "") by now rewrite length_map.
    rewrite !(nth_map_default _ _ _ _ (List.length status, @None nat))
      by assumption.
    fold rows. rewrite Hn. cbn [fst snd]. unfold label_of.
    now rewrite geb_nan.
Qed.

Lemma unmatched_requirement_non_compliant_witness :
  exists v' w',
    Compliance.check_compliance (example_validator, empty_world)
    = (inr tt, (v', w')) /\
    row_get "Threshold" (row_at (Compliance.data v') 2) = inr (VNum NaN) /\
    row_get "Compliance" (row_at (Compliance.data v') 2)
    = inr (VStr "Non-Compliant").
Proof.
  destruct (unmatched_requirement_non_compliant example_validator empty_world
              _ _ _ _ example_joinable) as [v' [w' [Hrun Hrows]]].
  exists v', w'. split; [exact Hrun|].
  destruct (Hrows 2%nat (VStr "Noise") eq_refl) as [_ Hrow].
  - intros k Hk. simpl in Hk.
    destruct Hk as [<-|[<-|[]]]; reflexivity.
  - destruct (Hrow 2%nat None eq_refl) as [_ [_ [Hth Hlabel]]].
    split; assumption.
Defined.

(** ** Linear objectives on the unit box *)

Lemma leb_Num (a b : Q) : leb (Num a) (Num b) = true <-> a <= b.
Proof.
  unfold leb, geb. rewrite orb_true_iff, ltb_Num. simpl.
  rewrite Qeq_bool_iff. split.
  - intros [H|H]; lra.
  - intros H. destruct (Qlt_le_dec a b) as [Hlt|Hge]; [now left|right]. lra.
Qed.

Lemma box_inv (x : list cell) :
  in_unit_box x ->
  exists a b c d,
    x = [Num a; Num b; Num c; Num d] /\
    0 <= a <= 1 /\ 0 <= b <= 1 /\ 0 <= c <= 1 /\ 0 <= d <= 1.
Proof.
  intros [Hlen Hall].
  destruct x as [|[a| | |] [|[b| | |] [|[c| | |] [|[d| | |] [|? ?]]]]];
    try discriminate;
    repeat match goal with
           | H : Forall _ (_ :: _) |- _ => inversion H; clear H; subst
           end; try contradiction.
  exists a, b, c, d. tauto.
Qed.

Lemma box_intro (a b c d : Q) :
  0 <= a <= 1 -> 0 <= b <= 1 -> 0 <= c <= 1 -> 0 <= d <= 1 ->
  in_unit_box [Num a; Num b; Num c; Num d].
Proof. intros. split; [reflexivity | repeat constructor; tauto]. Qed.

Lemma corners_in_box (y : list cell) : In y (corners 4) -> in_unit_box y.
Proof.
  intros H. vm_compute in H.
  repeat (destruct H as [<-|H]; [apply box_intro; lra|]). destruct H.
Qed.

Section CornerOptimum.

Variable f : list cell -> cell.
Variable corner : list cell.

(** What the two objectives have in common: on the box they yield a
    number in lowest terms, and no value is below the one at the corner
    their weights point to. *)
Hypothesis f_number : forall y, in_unit_box y -> exists q, f y = Num (Qred q).
Hypothesis corner_is_corner : In corner (corners 4).
Hypothesis corner_least : forall y q m,
  in_unit_box y -> f y = Num q -> f corner = Num m -> m <= q.

Lemma corner_score_at_corner : corner_score f = f corner.
Proof.
  unfold corner_score.
  assert (Hin : In (f corner) (map f (corners 4))) by now apply in_map.
  destruct (f_number corner (corners_in_box _ corner_is_corner)) as [m Hm].
  destruct (nanmin_spec (map f (corners 4))) as [[Hall _]|[_ [Hmin Hle]]].
  - specialize (Hall _ Hin). rewrite Hm in Hall. discriminate.
  - apply in_map_iff in Hmin. destruct Hmin as [y [Hy Hyc]].
    destruct (f_number y (corners_in_box _ Hyc)) as [q Hq].
    rewrite <- Hy, Hq, Hm. f_equal. apply Qred_complete.
    assert (H1 : Qred m <= Qred q).
    { apply (corner_least y); [now apply corners_in_box | assumption | assumption]. }
    assert (H2 : Qred q <= Qred m).
    { apply ltb_Num_false. rewrite <- Hq, <- Hm, Hy.
      apply Hle; [assumption | now rewrite Hm]. }
    rewrite !Qred_correct in H1, H2. lra.
Qed.

Lemma solver_within_tolerance (minimize : solver) (tol : Q) (x0 : list cell) :
  converges minimize f tol ->
  in_unit_box x0 ->
  within tol (f corner) (res_fun (minimize f x0 unit_bounds)).
Proof.
  intros Hconv Hx0. destruct (Hconv x0 Hx0) as [Hbox [Hfun Hbest]].
  pose proof (corners_in_box _ corner_is_corner) as Hcb.
  destruct (f_number corner Hcb) as [m Hm].
  destruct (f_number _ Hbox) as [s Hs].
  exists (Qred m), (Qred s). split; [assumption|].
  split; [congruence|]. split.
  - apply (corner_least (res_x (minimize f x0 unit_bounds)));
      [assumption | assumption | assumption].
  - specialize (Hbest corner Hcb). rewrite Hfun, Hs, Hm in Hbest.
    cbn [add] in Hbest. apply leb_Num in Hbest.
    rewrite !Qred_correct in Hbest. rewrite !Qred_correct. exact Hbest.
Qed.

End CornerOptimum.

Lemma term_least_negative (a x : Q) : a < 0 -> x <= 1 -> a <= a * x.
Proof. intros. nra. Qed.

Lemma term_least_positive (a x : Q) : 0 <= a -> 0 <= x -> 0 <= a * x.
Proof. intros. nra. Qed.

Lemma packaging_objective_value (a b c d x0 x1 x2 x3 : Q) :
  exists q,
    Packaging.objective_function
      (Packaging.mkWeights (Num a) (Num b) (Num c) (Num d))
      [Num x0; Num x1; Num x2; Num x3] = Num (Qred q) /\
    q == a * x0 + b * (1 - x1) + c * x2 + d * (1 - x3).
Proof.
  eexists. split; [reflexivity|]. rewrite !Qred_correct. reflexivity.
Qed.

Lemma lifecycle_objective_value (a b c d x0 x1 x2 x3 : Q) :
  exists q,
    Lifecycle.objective_function
      (Lifecycle.mkWeights (Num a) (Num b) (Num c) (Num d))
      [Num x0; Num x1; Num x2; Num x3] = Num (Qred q) /\
    q == a * x0 + b * x1 + c * x2 + d * x3.
Proof.
  eexists. split; [reflexivity|]. rewrite !Qred_correct. reflexivity.
Qed.

(** The sign of a weight, as the corner reads it. *)
Lemma sign_cases (a : Q) :
  (ltb (Num a) (Num 0) = true /\ a < 0) \/
  (ltb (Num a) (Num 0) = false /\ 0 <= a).
Proof.
  destruct (ltb (Num a) (Num 0)) eqn:E.
  - left. split; [reflexivity | now apply ltb_Num].
  - right. split; [reflexivity | now apply ltb_Num_false].
Qed.

Section PackagingCorner.

Variables a b c d : Q.

Let w : Packaging.weights :=
  Packaging.mkWeights (Num a) (Num b) (Num c) (Num d).

Lemma packaging_number (y : list cell) :
  in_unit_box y -> exists q, Packaging.objective_function w y = Num (Qred q).
Proof.
  intros Hy. destruct (box_inv y Hy) as [x0 [x1 [x2 [x3 [-> _]]]]].
  destruct (packaging_objective_value a b c d x0 x1 x2 x3) as [q [Hq _]].
  now exists q.
Qed.

Lemma packaging_corner_is_corner : In (optimizer_corner w) (corners 4).
Proof.
  unfold optimizer_corner, w.
  cbn [Packaging.weight_cost Packaging.weight_recyclability
       Packaging.weight_carbon_footprint Packaging.weight_durability].
  destruct (ltb (Num a) (Num 0)), (ltb (Num b) (Num 0)),
           (ltb (Num c) (Num 0)), (ltb (Num d) (Num 0));
    vm_compute; tauto.
Qed.

Lemma packaging_corner_least (y : list cell) (q m : Q) :
  in_unit_box y ->
  Packaging.objective_function w y = Num q ->
  Packaging.objective_function w (optimizer_corner w) = Num m ->
  m <= q.
Proof.
  intros Hy Hq Hm.
  destruct (box_inv y Hy) as [x0 [x1 [x2 [x3 [-> [H0 [H1 [H2 H3]]]]]]]].
  destruct (packaging_objective_value a b c d x0 x1 x2 x3) as [q' [Eq Hq']].
  fold w in Eq. rewrite Eq in Hq. injection Hq as <-.
  rewrite Qred_correct, Hq'. clear Eq Hq' q'.
  unfold optimizer_corner, w in Hm.
  cbn [Packaging.weight_cost Packaging.weight_recyclability
       Packaging.weight_carbon_footprint Packaging.weight_durability] in Hm.
  fold w in Hm.
  pose proof (term_least_negative a x0) as Na.
  pose proof (term_least_positive a x0) as Pa.
  pose proof (term_least_negative b (1 - x1)) as Nb.
  pose proof (term_least_positive b (1 - x1)) as Pb.
  pose proof (term_least_negative c x2) as Nc.
  pose proof (term_least_positive c x2) as Pc.
  pose proof (term_least_negative d (1 - x3)) as Nd.
  pose proof (term_least_positive d (1 - x3)) as Pd.
  destruct (sign_cases a) as [[Ea Sa]|[Ea Sa]],
           (sign_cases b) as [[Eb Sb]|[Eb Sb]],
           (sign_cases c) as [[Ec Sc]|[Ec Sc]],
           (sign_cases d) as [[Ed Sd]|[Ed Sd]];
    rewrite Ea, Eb, Ec, Ed in Hm;
    match type of Hm with
    | Packaging.objective_function w [Num ?c0; Num ?c1; Num ?c2; Num ?c3] = _ =>
        destruct (packaging_objective_value a b c d c0 c1 c2 c3)
          as [m' [Em Hm']]
    end;
    fold w in Em; rewrite Em in Hm; injection Hm as <-;
    rewrite Qred_correct, Hm'; lra.
Qed.

End PackagingCorner.

Section LifecycleCorner.

Variables a b c d : Q.

Let w : Lifecycle.weights :=
  Lifecycle.mkWeights (Num a) (Num b) (Num c) (Num d).

Lemma lifecycle_number (y : list cell) :
  in_unit_box y -> exists q, Lifecycle.objective_function w y = Num (Qred q).
Proof.
  intros Hy. destruct (box_inv y Hy) as [x0 [x1 [x2 [x3 [-> _]]]]].
  destruct (lifecycle_objective_value a b c d x0 x1 x2 x3) as [q [Hq _]].
  now exists q.
Qed.

Lemma lifecycle_corner_is_corner : In (simulator_corner w) (corners 4).
Proof.
  unfold simulator_corner, w.
  cbn [Lifecycle.weight_cost Lifecycle.weight_carbon
       Lifecycle.weight_water Lifecycle.weight_energy].
  destruct (ltb (Num a) (Num 0)), (ltb (Num b) (Num 0)),
           (ltb (Num c) (Num 0)), (ltb (Num d) (Num 0));
    vm_compute; tauto.
Qed.

Lemma lifecycle_corner_least (y : list cell) (q m : Q) :
  in_unit_box y ->
  Lifecycle.objective_function w y = Num q ->
  Lifecycle.objective_function w (simulator_corner w) = Num m ->
  m <= q.
Proof.
  intros Hy Hq Hm.
  destruct (box_inv y Hy) as [x0 [x1 [x2 [x3 [-> [H0 [H1 [H2 H3]]]]]]]].
  destruct (lifecycle_objective_value a b c d x0 x1 x2 x3) as [q' [Eq Hq']].
  fold w in Eq. rewrite Eq in Hq. injection Hq as <-.
  rewrite Qred_correct, Hq'. clear Eq Hq' q'.
  unfold simulator_corner, w in Hm.
  cbn [Lifecycle.weight_cost Lifecycle.weight_carbon
       Lifecycle.weight_water Lifecycle.weight_energy] in Hm.
  fold w in Hm.
  pose proof (term_least_negative a x0) as Na.
  pose proof (term_least_positive a x0) as Pa.
  pose proof (term_least_negative b x1) as Nb.
  pose proof (term_least_positive b x1) as Pb.
  pose proof (term_least_negative c x2) as Nc.
  pose proof (term_least_positive c x2) as Pc.
  pose proof (term_least_negative d x3) as Nd.
  pose proof (term_least_positive d x3) as Pd.
  destruct (sign_cases a) as [[Ea Sa]|[Ea Sa]],
           (sign_cases b) as [[Eb Sb]|[Eb Sb]],
           (sign_cases c) as [[Ec Sc]|[Ec Sc]],
           (sign_cases d) as [[Ed Sd]|[Ed Sd]];
    rewrite Ea, Eb, Ec, Ed in Hm;
    match type of Hm with
    | Lifecycle.objective_function w [Num ?c0; Num ?c1; Num ?c2; Num ?c3] = _ =>
        destruct (lifecycle_objective_value a b c d c0 c1 c2 c3)
          as [m' [Em Hm']]
    end;
    fold w in Em; rewrite Em in Hm; injection Hm as <-;
    rewrite Qred_correct, Hm'; lra.
Qed.

End LifecycleCorner.

(** Coordinate descent is exact on the optimizer's objective with the
    default weights: it ends in the corner (0, 1, 0, 1). *)
Lemma coordinate_descent_converges :
  converges coordinate_descent
    (Packaging.objective_function Packaging.default_weights) 0.
Proof.
  intros x0 Hx0.
  assert (Hres : coordinate_descent
                   (Packaging.objective_function Packaging.default_weights)
                   x0 unit_bounds
                 = mkResult [Num 0; Num 1; Num 0; Num 1] (Num 0))
    by (vm_compute; reflexivity).
  cbv zeta. rewrite Hres. cbn [res_x res_fun].
  split; [apply box_intro; lra|]. split; [vm_compute; reflexivity|].
  intros y Hy.
  destruct (box_inv y Hy) as [y0 [y1 [y2 [y3 [-> [H0 [H1 [H2 H3]]]]]]]].
  destruct (packaging_objective_value (3 # 10) (4 # 10) (2 # 10) (1 # 10)
              y0 y1 y2 y3) as [q [Hq Hval]].
  change (Packaging.mkWeights (Num (3 # 10)) (Num (4 # 10)) (Num (2 # 10))
            (Num (1 # 10))) with Packaging.default_weights in Hq.
  rewrite Hq. cbn [add]. apply leb_Num. rewrite !Qred_correct, Hval. lra.
Qed.

(** ** Coordinate descent meets the contract *)

(** The coordinate the descent picks for a slope [v]: the upper bound
    when the objective falls, the lower bound when it grows, the start
    when it does neither.  No point of the interval does better. *)
Lemma descent_coordinate (v wi p : Q) :
  v == wi -> 0 <= p <= 1 ->
  exists xi,
    (if ltb (Num v) (Num 0) then Num 1
     else if ltb (Num 0) (Num v) then Num 0 else Num p) = Num xi /\
    0 <= xi <= 1 /\
    forall y, 0 <= y <= 1 -> wi * xi <= wi * y.
Proof.
  intros Hv Hp.
  destruct (ltb (Num v) (Num 0)) eqn:Eneg.
  - apply ltb_Num in Eneg. exists 1. split; [reflexivity|]. split; [lra|].
    intros y Hy. nra.
  - apply ltb_Num_false in Eneg.
    destruct (ltb (Num 0) (Num v)) eqn:Epos.
    + apply ltb_Num in Epos. exists 0. split; [reflexivity|]. split; [lra|].
      intros y Hy. nra.
    + apply ltb_Num_false in Epos. exists p. split; [reflexivity|].
      split; [exact Hp|]. intros y Hy.
      assert (Hz : wi == 0) by lra. rewrite Hz. lra.
Qed.

Section LifecycleDescent.

Variables a b c d : Q.

Let w : Lifecycle.weights :=
  Lifecycle.mkWeights (Num a) (Num b) (Num c) (Num d).

Let f : list cell -> cell := Lifecycle.objective_function w.

Lemma lifecycle_difference (u0 u1 u2 u3 : Q) :
  exists s,
    sub (f [Num u0; Num u1; Num u2; Num u3]) (f [Num 0; Num 0; Num 0; Num 0])
    = Num s /\
    s == a * u0 + b * u1 + c * u2 + d * u3.
Proof.
  destruct (lifecycle_objective_value a b c d u0 u1 u2 u3) as [q [Hq Hv]].
  destruct (lifecycle_objective_value a b c d 0 0 0 0) as [q0 [Hq0 Hv0]].
  unfold f, w. rewrite Hq, Hq0. cbn [sub].
  eexists. split; [reflexivity|]. rewrite !Qred_correct, Hv, Hv0. ring.
Qed.

Lemma lifecycle_slopes :
  exists s0 s1 s2 s3,
    slope f 0 = Num s0 /\ slope f 1 = Num s1 /\
    slope f 2 = Num s2 /\ slope f 3 = Num s3 /\
    s0 == a /\ s1 == b /\ s2 == c /\ s3 == d.
Proof.
  destruct (lifecycle_difference 1 0 0 0) as [s0 [E0 V0]].
  destruct (lifecycle_difference 0 1 0 0) as [s1 [E1 V1]].
  destruct (lifecycle_difference 0 0 1 0) as [s2 [E2 V2]].
  destruct (lifecycle_difference 0 0 0 1) as [s3 [E3 V3]].
  exists s0, s1, s2, s3.
  repeat (split; [assumption|]).
  repeat split; lra.
Qed.

Lemma lifecycle_descent_converges : converges coordinate_descent f 0.
Proof.
  intros x0 Hx0.
  destruct (box_inv x0 Hx0) as [p0 [p1 [p2 [p3 [-> [H0 [H1 [H2 H3]]]]]]]].
  destruct lifecycle_slopes
    as [s0 [s1 [s2 [s3 [E0 [E1 [E2 [E3 [V0 [V1 [V2 V3]]]]]]]]]]].
  destruct (descent_coordinate s0 a p0 V0 H0) as [x0' [C0 [B0 L0]]].
  destruct (descent_coordinate s1 b p1 V1 H1) as [x1' [C1 [B1 L1]]].
  destruct (descent_coordinate s2 c p2 V2 H2) as [x2' [C2 [B2 L2]]].
  destruct (descent_coordinate s3 d p3 V3 H3) as [x3' [C3 [B3 L3]]].
  assert (Hres : coordinate_descent f [Num p0; Num p1; Num p2; Num p3]
                   unit_bounds
                 = mkResult [Num x0'; Num x1'; Num x2'; Num x3']
                     (f [Num x0'; Num x1'; Num x2'; Num x3'])).
  { unfold coordinate_descent. cbn [map seq nth].
    rewrite E0, E1, E2, E3, C0, C1, C2, C3. reflexivity. }
  cbv zeta. rewrite Hres. cbn [res_x res_fun].
  split; [now apply box_intro|]. split; [reflexivity|].
  intros y Hy.
  destruct (box_inv y Hy) as [y0 [y1 [y2 [y3 [-> [Y0 [Y1 [Y2 Y3]]]]]]]].
  destruct (lifecycle_objective_value a b c d x0' x1' x2' x3') as [q [Hq Hval]].
  destruct (lifecycle_objective_value a b c d y0 y1 y2 y3) as [q' [Hq' Hval']].
  unfold f, w. rewrite Hq, Hq'. cbn [add]. apply leb_Num.
  rewrite !Qred_correct, Hval, Hval'.
  specialize (L0 y0 Y0). specialize (L1 y1 Y1).
  specialize (L2 y2 Y2). specialize (L3 y3 Y3). lra.
Qed.

End LifecycleDescent.

Section PackagingDescent.

Variables a b c d : Q.

Let w : Packaging.weights :=
  Packaging.mkWeights (Num a) (Num b) (Num c) (Num d).

Let f : list cell -> cell := Packaging.objective_function w.

Lemma packaging_difference (u0 u1 u2 u3 : Q) :
  exists s,
    sub (f [Num u0; Num u1; Num u2; Num u3]) (f [Num 0; Num 0; Num 0; Num 0])
    = Num s /\
    s == a * u0 - b * u1 + c * u2 - d * u3.
Proof.
  destruct (packaging_objective_value a b c d u0 u1 u2 u3) as [q [Hq Hv]].
  destruct (packaging_objective_value a b c d 0 0 0 0) as [q0 [Hq0 Hv0]].
  unfold f, w. rewrite Hq, Hq0. cbn [sub].
  eexists. split; [reflexivity|]. rewrite !Qred_correct, Hv, Hv0. ring.
Qed.

Lemma packaging_slopes :
  exists s0 s1 s2 s3,
    slope f 0 = Num s0 /\ slope f 1 = Num s1 /\
    slope f 2 = Num s2 /\ slope f 3 = Num s3 /\
    s0 == a /\ s1 == - b /\ s2 == c /\ s3 == - d.
Proof.
  destruct (packaging_difference 1 0 0 0) as [s0 [E0 V0]].
  destruct (packaging_difference 0 1 0 0) as [s1 [E1 V1]].
  destruct (packaging_difference 0 0 1 0) as [s2 [E2 V2]].
  destruct (packaging_difference 0 0 0 1) as [s3 [E3 V3]].
  exists s0, s1, s2, s3.
  repeat (split; [assumption|]).
  repeat split; lra.
Qed.

Lemma packaging_descent_converges : converges coordinate_descent f 0.
Proof.
  intros x0 Hx0.
  destruct (box_inv x0 Hx0) as [p0 [p1 [p2 [p3 [-> [H0 [H1 [H2 H3]]]]]]]].
  destruct packaging_slopes
    as [s0 [s1 [s2 [s3 [E0 [E1 [E2 [E3 [V0 [V1 [V2 V3]]]]]]]]]]].
  destruct (descent_coordinate s0 a p0 V0 H0) as [x0' [C0 [B0 L0]]].
  destruct (descent_coordinate s1 (- b) p1 V1 H1) as [x1' [C1 [B1 L1]]].
  destruct (descent_coordinate s2 c p2 V2 H2) as [x2' [C2 [B2 L2]]].
  destruct (descent_coordinate s3 (- d) p3 V3 H3) as [x3' [C3 [B3 L3]]].
  assert (Hres : coordinate_descent f [Num p0; Num p1; Num p2; Num p3]
                   unit_bounds
                 = mkResult [Num x0'; Num x1'; Num x2'; Num x3']
                     (f [Num x0'; Num x1'; Num x2'; Num x3'])).
  { unfold coordinate_descent. cbn [map seq nth].
    rewrite E0, E1, E2, E3, C0, C1, C2, C3. reflexivity. }
  cbv zeta. rewrite Hres. cbn [res_x res_fun].
  split; [now apply box_intro|]. split; [reflexivity|].
  intros y Hy.
  destruct (box_inv y Hy) as [y0 [y1 [y2 [y3 [-> [Y0 [Y1 [Y2 Y3]]]]]]]].
  destruct (packaging_objective_value a b c d x0' x1' x2' x3') as [q [Hq Hval]].
  destruct (packaging_objective_value a b c d y0 y1 y2 y3) as [q' [Hq' Hval']].
  unfold f, w. rewrite Hq, Hq'. cbn [add]. apply leb_Num.
  rewrite !Qred_correct, Hval, Hval'.
  specialize (L0 y0 Y0). specialize (L1 y1 Y1).
  specialize (L2 y2 Y2). specialize (L3 y3 Y3). lra.
Qed.

End PackagingDescent.

(** ** The end-to-end example *)

(** With the default weights every row scores the least value of the
    objective on the box, which is 0, whatever the row holds. *)
Lemma default_score_exact (minimize : solver) (x0 : list cell) :
  converges minimize (Packaging.objective_function Packaging.default_weights) 0 ->
  in_unit_box x0 ->
  res_fun (minimize (Packaging.objective_function Packaging.default_weights)
             x0 unit_bounds) = Num 0.
Proof.
  intros Hconv Hx0.
  destruct (solver_within_tolerance
              (Packaging.objective_function Packaging.default_weights)
              (optimizer_corner Packaging.default_weights)
              (packaging_number (3 # 10) (4 # 10) (2 # 10) (1 # 10))
              (packaging_corner_is_corner (3 # 10) (4 # 10) (2 # 10) (1 # 10))
              (packaging_corner_least (3 # 10) (4 # 10) (2 # 10) (1 # 10))
              minimize 0 x0 Hconv Hx0)
    as [m [s [Hm [Hs Hms]]]].
  vm_compute in Hm. injection Hm as <-.
  destruct (Hconv x0 Hx0) as [Hbox [Hfun _]].
  destruct (packaging_number (3 # 10) (4 # 10) (2 # 10) (1 # 10) _ Hbox)
    as [q Hq].
  change (Packaging.mkWeights (Num (3 # 10)) (Num (4 # 10)) (Num (2 # 10))
            (Num (1 # 10))) with Packaging.default_weights in Hq.
  rewrite Hfun, Hq in Hs |- *. injection Hs as <-. f_equal.
  change 0 with (Qred 0). apply Qred_complete.
  rewrite Qred_correct in Hms. lra.
Qed.

(** C8 on the code.  On the two-material example with the default
    weights and a solver that converges exactly, both materials score 0
    and the ranking keeps the input order: Material A is first. *)
Theorem example_ranks_A_first (minimize : solver) (wd : world) :
  converges minimize (Packaging.objective_function Packaging.default_weights) 0 ->
  exists o',
    Packaging.optimize minimize Packaging.default_weights
      (Packaging.mkOptimizer example_materials None, wd)
    = (inr [(VStr "A", Num 0); (VStr "B", Num 0)], (o', wd)) /\
    Packaging.optimized_results o'
    = Some [(VStr "A", Num 0); (VStr "B", Num 0)].
Proof.
  intros Hconv.
  pose proof (default_score_exact minimize [Num 1; Num 0; Num 1; Num 1] Hconv)
    as HA.
  pose proof (default_score_exact minimize [Num 0; Num 1; Num 0; Num 0] Hconv)
    as HB.
  remember (Packaging.objective_function Packaging.default_weights) as f eqn:Hf.
  unfold unit_bounds in HA, HB. cbn [repeat] in HA, HB.
  unfold Packaging.optimize. rewrite <- Hf. clear Hf Hconv.
  unfold bind, Packaging.normalize_columns, self, set_self, ret, raise.
  cbn.
  rewrite HA by (apply box_intro; lra). rewrite HB by (apply box_intro; lra).
  eexists. split; reflexivity.
Qed.

Lemma example_ranks_A_first_witness :
  exists o',
    Packaging.optimize coordinate_descent Packaging.default_weights
      (Packaging.mkOptimizer example_materials None, empty_world)
    = (inr [(VStr "A", Num 0); (VStr "B", Num 0)], (o', empty_world)) /\
    Packaging.optimized_results o'
    = Some [(VStr "A", Num 0); (VStr "B", Num 0)].
Proof.
  apply (example_ranks_A_first coordinate_descent empty_world).
  exact coordinate_descent_converges.
Defined.
(** * Further properties of the code *)

(** ** Validation stops at the first missing column *)

Section FirstMissing.

Context {S : Type}.
Variable frame : S -> DataFrame.
Variable body : string -> M S unit.
Variable failure : string -> S * world -> (exn + unit) * (S * world).

Hypothesis body_present : forall col st,
  has_column col (frame (fst st)) = true -> body col st = (inr tt, st).
Hypothesis body_absent : forall col st,
  has_column col (frame (fst st)) = false -> body col st = failure col st.
Hypothesis failure_raises : forall col st, exists e st',
  failure col st = (inl e, st').

Lemma for_each_first_missing (required : list string) (st : S * world) :
  for_each required body st
  = match first_missing required (frame (fst st)) with
    | None => (inr tt, st)
    | Some c => failure c st
    end.
Proof.
  induction required as [|c rest IH]; simpl.
  - reflexivity.
  - unfold bind. destruct (has_column c (frame (fst st))) eqn:Hc.
    + rewrite (body_present _ _ Hc). exact IH.
    + rewrite (body_absent _ _ Hc).
      destruct (failure_raises c st) as [e [st' ->]]. reflexivity.
Qed.

End FirstMissing.

Lemma packaging_validate_first :
  forall (o : Packaging.optimizer) (w : world),
    Packaging._validate_data (o, w)
    = match first_missing Packaging.required_columns (Packaging.data o) with
      | None => (inr tt, (o, w))
      | Some c => (inl (ValueError ("Missing required column: " ++ c)), (o, w))
      end.
Proof.
  intros o w. unfold Packaging._validate_data.
  rewrite (for_each_first_missing Packaging.data _
             (fun c st => (inl (ValueError ("Missing required column: " ++ c)), st))).
  - cbn [fst]. now destruct (first_missing _ _).
  - intros col st H. unfold bind, self. cbn [fst snd]. now rewrite H.
  - intros col st H. unfold bind, self, raise. cbn [fst snd]. now rewrite H.
  - intros col st. eexists _, _. reflexivity.
Qed.

Lemma lifecycle_validate_first :
  forall (o : Lifecycle.simulator) (w : world),
    Lifecycle._validate_data (o, w)
    = let w1 := logged w INFO "Validating input data." in
      match first_missing Lifecycle.required_columns (Lifecycle.data o) with
      | None => (inr tt, (o, w1))
      | Some c =>
          (inl (ValueError ("Missing required column: " ++ c)),
           (o, logged w1 ERROR ("Missing required column: " ++ c)))
      end.
Proof.
  intros o w. unfold Lifecycle._validate_data.
  unfold bind at 1. unfold logging at 1. cbn [fst snd].
  rewrite (for_each_first_missing Lifecycle.data _
             (fun c st =>
                (inl (ValueError ("Missing required column: " ++ c)),
                 (fst st, logged (snd st) ERROR ("Missing required column: " ++ c))))).
  - cbn [fst snd]. now destruct (first_missing _ _).
  - intros col st H. unfold bind, self. cbn [fst snd]. now rewrite H.
  - intros col st H. unfold bind, self, raise, logging. cbn [fst snd].
    now rewrite H.
  - intros col st. eexists _, _. reflexivity.
Qed.

Lemma compliance_validate_first :
  forall (v : Compliance.validator) (w : world),
    Compliance._validate_data (v, w)
    = let w1 := logged w INFO "Validating input data format." in
      match first_missing Compliance.required_data_columns (Compliance.data v) with
      | Some c =>
          (inl (ValueError ("Missing required column in data: " ++ c)),
           (v, logged w1 ERROR ("Missing required column in data: " ++ c)))
      | None =>
          match first_missing Compliance.required_regulation_columns
                  (Compliance.regulations v) with
          | Some c =>
              (inl (ValueError ("Missing required column in regulations: " ++ c)),
               (v, logged w1 ERROR
                     ("Missing required column in regulations: " ++ c)))
          | None => (inr tt, (v, w1))
          end
      end.
Proof.
  intros v w. unfold Compliance._validate_data.
  unfold bind at 1. unfold logging at 1. cbn [fst snd].
  unfold bind at 1.
  rewrite (for_each_first_missing Compliance.data _
             (fun c st =>
                (inl (ValueError ("Missing required column in data: " ++ c)),
                 (fst st,
                  logged (snd st) ERROR ("Missing required column in data: " ++ c))))).
  - cbn [fst snd]. destruct (first_missing _ _); [reflexivity|].
    rewrite (for_each_first_missing Compliance.regulations _
               (fun c st =>
                  (inl (ValueError ("Missing required column in regulations: " ++ c)),
                   (fst st,
                    logged (snd st) ERROR
                      ("Missing required column in regulations: " ++ c))))).
    + cbn [fst snd]. now destruct (first_missing _ _).
    + intros col st H. unfold bind, self. cbn [fst snd]. now rewrite H.
    + intros col st H. unfold bind, self, raise, logging. cbn [fst snd].
      now rewrite H.
    + intros col st. eexists _, _. reflexivity.
  - intros col st H. unfold bind, self. cbn [fst snd]. now rewrite H.
  - intros col st H. unfold bind, self, raise, logging. cbn [fst snd].
    now rewrite H.
  - intros col st. eexists _, _. reflexivity.
Qed.

Lemma kpi_validate_first :
  forall (t : KPI.tracker) (w : world),
    KPI._validate_data (t, w)
    = let w1 := logged w INFO "Validating input data." in
      match first_missing KPI.required_columns (KPI.data t) with
      | None => (inr tt, (t, w1))
      | Some c =>
          (inl (ValueError ("Missing required column: " ++ c)),
           (t, logged w1 ERROR ("Missing required column: " ++ c)))
      end.
Proof.
  intros t w. unfold KPI._validate_data.
  unfold bind at 1. unfold logging at 1. cbn [fst snd].
  rewrite (for_each_first_missing KPI.data _
             (fun c st =>
                (inl (ValueError ("Missing required column: " ++ c)),
                 (fst st, logged (snd st) ERROR ("Missing required column: " ++ c))))).
  - cbn [fst snd]. now destruct (first_missing _ _).
  - intros col st H. unfold bind, self. cbn [fst snd]. now rewrite H.
  - intros col st H. unfold bind, self, raise, logging. cbn [fst snd].
    now rewrite H.
  - intros col st. eexists _, _. reflexivity.
Qed.

(** X1.  Each [_validate_data] checks the required columns in the order
    of its list and raises for the first one the table lacks; the
    validator checks the compliance data before the regulations.  The
    object is unchanged; the scripts that log write one INFO line and,
    on failure, one ERROR line with the text of the exception. *)
Theorem validate_data_first_missing :
  (forall (o : Packaging.optimizer) (w : world),
     Packaging._validate_data (o, w)
     = match first_missing Packaging.required_columns (Packaging.data o) with
       | None => (inr tt, (o, w))
       | Some c => (inl (ValueError ("Missing required column: " ++ c)), (o, w))
       end)
  /\
  (forall (o : Lifecycle.simulator) (w : world),
     Lifecycle._validate_data (o, w)
     = let w1 := logged w INFO "Validating input data." in
       match first_missing Lifecycle.required_columns (Lifecycle.data o) with
       | None => (inr tt, (o, w1))
       | Some c =>
           (inl (ValueError ("Missing required column: " ++ c)),
            (o, logged w1 ERROR ("Missing required column: " ++ c)))
       end)
  /\
  (forall (v : Compliance.validator) (w : world),
     Compliance._validate_data (v, w)
     = let w1 := logged w INFO "Validating input data format." in
       match first_missing Compliance.required_data_columns (Compliance.data v) with
       | Some c =>
           (inl (ValueError ("Missing required column in data: " ++ c)),
            (v, logged w1 ERROR ("Missing required column in data: " ++ c)))
       | None =>
           match first_missing Compliance.required_regulation_columns
                   (Compliance.regulations v) with
           | Some c =>
               (inl (ValueError ("Missing required column in regulations: " ++ c)),
                (v, logged w1 ERROR
                      ("Missing required column in regulations: " ++ c)))
           | None => (inr tt, (v, w1))
           end
       end)
  /\
  (forall (t : KPI.tracker) (w : world),
     KPI._validate_data (t, w)
     = let w1 := logged w INFO "Validating input data." in
       match first_missing KPI.required_columns (KPI.data t) with
       | None => (inr tt, (t, w1))
       | Some c =>
           (inl (ValueError ("Missing required column: " ++ c)),
            (t, logged w1 ERROR ("Missing required column: " ++ c)))
       end).
Proof.
  split; [|split; [|split]].
  - exact packaging_validate_first.
  - exact lifecycle_validate_first.
  - exact compliance_validate_first.
  - exact kpi_validate_first.
Qed.

Lemma validate_data_first_missing_witness :
  KPI._validate_data (KPI.mkTracker example_materials, empty_world)
  = (inl (ValueError "Missing required column: KPI"),
     (KPI.mkTracker example_materials,
      logged (logged empty_world INFO "Validating input data.")
        ERROR "Missing required column: KPI")).
Proof.
  exact (proj2 (proj2 (proj2 validate_data_first_missing))
           (KPI.mkTracker example_materials) empty_world).
Defined.

(** ** More on min-max scaling *)

(** On a column of numbers that are not all equal, scaling is the affine
    map that sends the least entry to 0 and the greatest to 1. *)
Lemma min_max_scale (l : list cell) :
  not_all_equal l ->
  exists p q,
    p < q /\
    (forall x, In (Num x) l -> p <= x <= q) /\
    min_max l
    = map (fun v => match v with
                    | Num x => Num (Qred (Qred (x - p) / Qred (q - p)))
                    | _ => NaN
                    end) l.
Proof.
  intros [Hnum [a [b [Ha [Hb Hab]]]]].
  rewrite Forall_forall in Hnum.
  destruct (nanmin_spec l) as [[Hall _]|[_ [Hmin_in Hmin]]];
    [specialize (Hall _ Ha); discriminate|].
  destruct (nanmax_spec l) as [[Hall _]|[_ [Hmax_in Hmax]]];
    [specialize (Hall _ Ha); discriminate|].
  pose proof (Hnum _ Hmin_in) as Hp. pose proof (Hnum _ Hmax_in) as Hq.
  destruct (nanmin l) as [p| | |] eqn:Ep; try discriminate.
  destruct (nanmax l) as [q| | |] eqn:Eq; try discriminate.
  assert (Hbetween : forall x, In (Num x) l -> p <= x <= q).
  { intros x Hx. split.
    - apply ltb_Num_false. apply Hmin; [assumption | reflexivity].
    - apply ltb_Num_false. apply Hmax; [assumption | reflexivity]. }
  assert (Hpq : p < q).
  { destruct (Hbetween a Ha) as [Ha1 Ha2], (Hbetween b Hb) as [Hb1 Hb2].
    destruct (Qlt_le_dec p q) as [Hlt|Hge]; [assumption|].
    exfalso. apply Hab. lra. }
  exists p, q. split; [assumption|]. split; [assumption|].
  unfold min_max. rewrite Ep, Eq. apply map_ext_in. intros v Hv.
  pose proof (Hnum v Hv) as Hnv. destruct v as [x| | |]; try discriminate.
  cbn [sub div].
  assert (Hr0 : Qeq_bool (Qred (q - p)) 0 = false).
  { apply not_true_iff_false. rewrite Qeq_bool_iff, Qred_correct. lra. }
  now rewrite Hr0.
Qed.

Lemma scaled_range (p q x : Q) :
  p < q -> p <= x <= q -> 0 <= Qred (Qred (x - p) / Qred (q - p)) <= 1.
Proof.
  intros Hpq [H1 H2]. rewrite !Qred_correct. split.
  - apply Qle_shift_div_l; lra.
  - apply Qle_shift_div_r; lra.
Qed.

Lemma scaled_order (p q x y : Q) :
  p < q ->
  (Qred (Qred (x - p) / Qred (q - p)) < Qred (Qred (y - p) / Qred (q - p))
   <-> x < y).
Proof.
  intros Hpq. rewrite !Qred_correct.
  assert (Hr : 0 < q - p) by lra.
  assert (Hinv : 0 < / (q - p)) by now apply Qinv_lt_0_compat.
  unfold Qdiv. split; intros H.
  - apply Qnot_le_lt. intros Hle.
    assert ((y - p) * / (q - p) <= (x - p) * / (q - p)).
    { apply Qmult_le_compat_r; lra. }
    lra.
  - apply Qmult_lt_compat_r; lra.
Qed.

(** Scaling keeps every entry within [0, 1] and keeps the order of the
    entries. *)
Lemma min_max_order (l : list cell) :
  not_all_equal l ->
  List.length (min_max l) = List.length l /\
  Forall in_unit_interval (min_max l) /\
  forall i j x y,
    nth_error l i = Some x -> nth_error l j = Some y ->
    exists x' y',
      nth_error (min_max l) i = Some x' /\
      nth_error (min_max l) j = Some y' /\
      ltb x' y' = ltb x y.
Proof.
  intros Hne. pose proof Hne as [Hnum _]. rewrite Forall_forall in Hnum.
  destruct (min_max_scale l Hne) as [p [q [Hpq [Hbetween Hscale]]]].
  split; [unfold min_max; apply length_map|]. split.
  - rewrite Hscale. apply Forall_forall. intros v Hv.
    apply in_map_iff in Hv. destruct Hv as [u [<- Hu]].
    pose proof (Hnum u Hu) as Hnu. destruct u as [x| | |]; try discriminate.
    cbn [in_unit_interval]. apply scaled_range; [assumption | now apply Hbetween].
  - intros i j x y Hi Hj. rewrite Hscale, !nth_error_map, Hi, Hj.
    cbn [option_map]. eexists _, _. split; [reflexivity|]. split; [reflexivity|].
    pose proof (Hnum x (nth_error_In _ _ Hi)) as Hx.
    pose proof (Hnum y (nth_error_In _ _ Hj)) as Hy.
    destruct x as [x| | |]; try discriminate.
    destruct y as [y| | |]; try discriminate.
    destruct (ltb (Num x) (Num y)) eqn:E.
    + apply ltb_Num. apply scaled_order; [assumption|]. now apply ltb_Num.
    + apply ltb_Num_false. apply ltb_Num_false in E.
      apply Qnot_lt_le. intros H. apply scaled_order in H; [lra | assumption].
Qed.

(** Bounded numbers two of which differ are numbers that are not all
    equal. *)
Lemma bounded_varied (l : list cell) :
  Forall bounded l -> varied l -> not_all_equal l.
Proof.
  intros Hb Hv. split; [|exact Hv].
  eapply Forall_impl; [|exact Hb]. apply bounded_is_num.
Qed.

Lemma bounded_varied_columns (ls : list (list cell)) :
  Forall (Forall bounded) ls -> Forall varied ls -> Forall not_all_equal ls.
Proof.
  intros Hb Hv. rewrite Forall_forall in *. intros l Hl.
  apply bounded_varied; [now apply Hb | now apply Hv].
Qed.


Lemma example_costs_in_bounds : Forall bounded [Num 10; Num 2].
Proof.
  constructor; [vm_compute; split; discriminate|].
  constructor; [vm_compute; split; discriminate|].
  constructor.
Qed.


(** ** What the normalisation loop leaves alone *)

(** Whatever the outcome, the loop writes to no column but the results
    of the columns it was given. *)
Lemma normalize_loop_others (cols : list string) (c : string) :
  ~ In c (map normalized_name cols) ->
  forall df, df_get c (snd (normalize_loop cols df)) = df_get c df.
Proof.
  induction cols as [|col rest IH]; intros Hc df; simpl.
  - reflexivity.
  - assert (Hrest : ~ In c (map normalized_name rest)).
    { intros H. apply Hc. now right. }
    destruct (df_get col df) as [s|]; [|now apply IH].
    destruct (normalize_series s) as [e|s']; [reflexivity|].
    rewrite (IH Hrest). apply df_get_set_other.
    intros Heq. apply Hc. now left.
Qed.

Lemma source_not_result (cols : list string) (c : string) :
  results_apart cols -> In c cols -> ~ In c (map normalized_name cols).
Proof.
  intros [Hsrc _] Hc Hin. apply in_map_iff in Hin.
  destruct Hin as [c' [Heq Hc']]. apply (Hsrc c' Hc'). now rewrite Heq.
Qed.

(** X3.  [normalize_columns] never touches a column other than the
    [*_normalized] ones, whether it returns or raises: every other
    column, the four source columns among them, reads as before; the
    results attribute is kept, the optimizer emits nothing and the
    simulator only logs its INFO line. *)
Theorem normalize_columns_keeps_other_columns :
  (forall (o : Packaging.optimizer) (w : world),
     let r := Packaging.normalize_columns (o, w) in
     Packaging.optimized_results (fst (snd r)) = Packaging.optimized_results o /\
     snd (snd r) = w /\
     (forall c, ~ In c Packaging.normalized_features ->
        df_get c (Packaging.data (fst (snd r))) = df_get c (Packaging.data o)) /\
     (forall c, In c Packaging.columns_to_normalize ->
        df_get c (Packaging.data (fst (snd r))) = df_get c (Packaging.data o)))
  /\
  (forall (o : Lifecycle.simulator) (w : world),
     let r := Lifecycle.normalize_columns (o, w) in
     Lifecycle.simulation_results (fst (snd r)) = Lifecycle.simulation_results o /\
     snd (snd r) = logged w INFO "Normalizing columns for simulation." /\
     (forall c, ~ In c Lifecycle.normalized_features ->
        df_get c (Lifecycle.data (fst (snd r))) = df_get c (Lifecycle.data o)) /\
     (forall c, In c Lifecycle.columns_to_normalize ->
        df_get c (Lifecycle.data (fst (snd r))) = df_get c (Lifecycle.data o))).
Proof.
  split.
  - intros o w r. subst r. unfold Packaging.normalize_columns. cbn [fst snd].
    pose proof (fun c H => normalize_loop_others Packaging.columns_to_normalize
                             c H (Packaging.data o)) as Hkeep.
    destruct (normalize_loop _ _) as [outcome df']. cbn [fst snd] in *.
    split; [reflexivity|]. split; [reflexivity|]. split.
    + exact Hkeep.
    + intros c Hc. apply Hkeep.
      exact (source_not_result _ c packaging_results_apart Hc).
  - intros o w r. subst r. unfold Lifecycle.normalize_columns, bind, logging.
    cbn [fst snd].
    pose proof (fun c H => normalize_loop_others Lifecycle.columns_to_normalize
                             c H (Lifecycle.data o)) as Hkeep.
    destruct (normalize_loop _ _) as [outcome df']. cbn [fst snd] in *.
    split; [reflexivity|]. split; [reflexivity|]. split.
    + exact Hkeep.
    + intros c Hc. apply Hkeep.
      exact (source_not_result _ c lifecycle_results_apart Hc).
Qed.

Lemma normalize_columns_keeps_other_columns_witness :
  df_get "Cost_per_unit"
    (Packaging.data
       (fst (snd (Packaging.normalize_columns
                    (Packaging.mkOptimizer text_recyclability None,
                     empty_world)))))
  = Some (NumCol [Num 10; Num 2]).
Proof.
  destruct (proj1 normalize_columns_keeps_other_columns
              (Packaging.mkOptimizer text_recyclability None) empty_world)
    as [_ [_ [_ Hsources]]].
  rewrite (Hsources "Cost_per_unit"); [reflexivity | simpl; tauto].
Defined.

(** ** A column of text stops the loop *)

Lemma NoDup_app_disjoint {A : Type} (l1 l2 : list A) (x : A) :
  NoDup (l1 ++ l2) -> In x l1 -> In x l2 -> False.
Proof.
  induction l1 as [|y rest IH]; simpl; intros Hnd H1 H2.
  - exact H1.
  - inversion Hnd as [|? ? Hy Hrest]; subst. destruct H1 as [->|H1].
    + apply Hy. apply in_or_app. now right.
    + now apply IH.
Qed.

Lemma results_apart_tail (col : string) (rest : list string) :
  results_apart (col :: rest) -> results_apart rest.
Proof.
  intros [Hsrc Hdup]. split.
  - intros c Hc Hin. apply (Hsrc c); now right.
  - now inversion Hdup.
Qed.

(** The loop over columns of floats ends at the first column of text:
    the columns before it are normalised, nothing else is written. *)
Lemma normalize_loop_text (pre post : list string) (c : string) :
  results_apart (pre ++ c :: post) ->
  forall (df : DataFrame) (v : value) (vs : list value),
    (forall k, In k pre -> numeric df k) ->
    df_get c df = Some (ObjCol (v :: vs)) ->
    exists df',
      normalize_loop (pre ++ c :: post) df
      = (inl (TypeError "unsupported operand type(s) for -: 'str' and 'str'"),
         df') /\
      (forall k l, In k pre -> df_get k df = Some (NumCol l) ->
         df_get (normalized_name k) df' = Some (NumCol (min_max l))) /\
      (forall k, ~ In k (map normalized_name pre) -> df_get k df' = df_get k df).
Proof.
  induction pre as [|p pre' IH]; intros Hapart df v vs Hnum Hget.
  - exists df. cbn [List.app normalize_loop]. rewrite Hget. cbn [normalize_series].
    split; [reflexivity|]. split; [intros k l []|reflexivity].
  - pose proof Hapart as [Hsrc Hdup].
    pose proof (results_apart_tail _ _ Hapart) as Hrest.
    change ((p :: pre') ++ c :: post)%list with (p :: (pre' ++ c :: post))%list
      in *.
    cbn [normalize_loop].
    assert (Hother : forall k s, In k (pre' ++ c :: post)%list ->
              df_get k (df_set (normalized_name p) s df) = df_get k df).
    { intros k s Hk. apply df_get_set_other. intros Heq.
      apply (Hsrc p (or_introl eq_refl)). rewrite Heq. now right. }
    cbn [map] in Hdup. inversion Hdup as [|? ? Hfresh Hdup']; subst.
    destruct (df_get p df) as [s|] eqn:Hp.
    + destruct (Hnum p (or_introl eq_refl) s Hp) as [l ->].
      cbn [normalize_series].
      set (df1 := df_set (normalized_name p) (NumCol (min_max l)) df).
      destruct (IH Hrest df1 v vs) as [df' [Hrun [Hnew Hold]]].
      { intros k Hk s Hs. unfold df1 in Hs. rewrite Hother in Hs.
        - exact (Hnum k (or_intror Hk) s Hs).
        - apply in_or_app. now left. }
      { unfold df1. rewrite Hother; [exact Hget|].
        apply in_or_app. right. now left. }
      exists df'. split; [exact Hrun|]. split.
      * intros k l' [<-|Hk] Hk'.
        -- rewrite Hold.
           ++ unfold df1. rewrite df_get_set_same. congruence.
           ++ intros Hin. apply Hfresh. rewrite map_app. apply in_or_app.
              now left.
        -- apply Hnew; [assumption|]. unfold df1. rewrite Hother; [exact Hk'|].
           apply in_or_app. now left.
      * intros k Hk. rewrite Hold.
        -- unfold df1. apply df_get_set_other. intros Heq. apply Hk. now left.
        -- intros Hin. apply Hk. now right.
    + destruct (IH Hrest df v vs) as [df' [Hrun [Hnew Hold]]].
      { intros k Hk. apply Hnum. now right. }
      { exact Hget. }
      exists df'. split; [exact Hrun|]. split.
      * intros k l' [<-|Hk] Hk'; [congruence | now apply Hnew].
      * intros k Hk. apply Hold. intros Hin. apply Hk. now right.
Qed.

Lemma result_of_later_column (pre post : list string) (c k : string) :
  results_apart (pre ++ c :: post) ->
  In k (c :: post) -> ~ In (normalized_name k) (map normalized_name pre).
Proof.
  intros [_ Hdup] Hk Hin. rewrite map_app in Hdup.
  apply (NoDup_app_disjoint _ _ (normalized_name k) Hdup Hin).
  now apply in_map.
Qed.

(** X4.  A column of text among the columns to normalise makes
    [normalize_columns] raise a TypeError when the loop reaches it.  By
    then the float columns before it have been normalised and stay so:
    the table is left half updated.  The column of text and the columns
    after it get no result. *)
Theorem normalize_columns_text_column :
  (forall (o : Packaging.optimizer) (w : world) (pre post : list string)
          (c first : string) (others : list string),
     Packaging.columns_to_normalize = (pre ++ c :: post)%list ->
     (forall k, In k pre -> numeric (Packaging.data o) k) ->
     df_get c (Packaging.data o) = Some (StrCol (first :: others)) ->
     exists msg o',
       Packaging.normalize_columns (o, w) = (inl (TypeError msg), (o', w)) /\
       Packaging.optimized_results o' = Packaging.optimized_results o /\
       (forall k l, In k pre -> df_get k (Packaging.data o) = Some (NumCol l) ->
          df_get (normalized_name k) (Packaging.data o')
          = Some (NumCol (min_max l))) /\
       (forall k, In k (c :: post) ->
          df_get (normalized_name k) (Packaging.data o')
          = df_get (normalized_name k) (Packaging.data o)))
  /\
  (forall (o : Lifecycle.simulator) (w : world) (pre post : list string)
          (c first : string) (others : list string),
     Lifecycle.columns_to_normalize = (pre ++ c :: post)%list ->
     (forall k, In k pre -> numeric (Lifecycle.data o) k) ->
     df_get c (Lifecycle.data o) = Some (StrCol (first :: others)) ->
     exists msg o',
       Lifecycle.normalize_columns (o, w)
       = (inl (TypeError msg),
          (o', logged w INFO "Normalizing columns for simulation.")) /\
       Lifecycle.simulation_results o' = Lifecycle.simulation_results o /\
       (forall k l, In k pre -> df_get k (Lifecycle.data o) = Some (NumCol l) ->
          df_get (normalized_name k) (Lifecycle.data o')
          = Some (NumCol (min_max l))) /\
       (forall k, In k (c :: post) ->
          df_get (normalized_name k) (Lifecycle.data o')
          = df_get (normalized_name k) (Lifecycle.data o))).
Proof.
  split.
  - intros o w pre post c first others Hcols Hnum Hget.
    pose proof packaging_results_apart as Hapart. rewrite Hcols in Hapart.
    destruct (normalize_loop_text pre post c Hapart (Packaging.data o)
                (VStr first) (map VStr others) Hnum Hget)
      as [df' [Hrun [Hnew Hold]]].
    eexists _, (Packaging.mkOptimizer df' (Packaging.optimized_results o)).
    unfold Packaging.normalize_columns. cbn [fst snd]. rewrite Hcols, Hrun.
    split; [reflexivity|]. split; [reflexivity|]. split; [exact Hnew|].
    intros k Hk. apply Hold. exact (result_of_later_column _ _ _ _ Hapart Hk).
  - intros o w pre post c first others Hcols Hnum Hget.
    pose proof lifecycle_results_apart as Hapart. rewrite Hcols in Hapart.
    destruct (normalize_loop_text pre post c Hapart (Lifecycle.data o)
                (VStr first) (map VStr others) Hnum Hget)
      as [df' [Hrun [Hnew Hold]]].
    eexists _, (Lifecycle.mkSimulator df' (Lifecycle.simulation_results o)).
    unfold Lifecycle.normalize_columns, bind, logging. cbn [fst snd].
    rewrite Hcols, Hrun.
    split; [reflexivity|]. split; [reflexivity|]. split; [exact Hnew|].
    intros k Hk. apply Hold. exact (result_of_later_column _ _ _ _ Hapart Hk).
Qed.

Lemma normalize_columns_text_column_witness :
  exists msg o',
    Packaging.normalize_columns
      (Packaging.mkOptimizer text_recyclability None, empty_world)
    = (inl (TypeError msg), (o', empty_world)) /\
    df_get "Cost_per_unit_normalized" (Packaging.data o')
    = Some (NumCol [Num 1; Num 0]) /\
    df_get "Recyclability_normalized" (Packaging.data o') = None.
Proof.
  destruct (proj1 normalize_columns_text_column
              (Packaging.mkOptimizer text_recyclability None) empty_world
              ["Cost_per_unit"] ["Carbon_Footprint"; "Durability"]
              "Recyclability" "low" ["high"])
    as [msg [o' [Hrun [_ [Hnew Hold]]]]].
  - reflexivity.
  - intros k [<-|[]] s Hs. vm_compute in Hs. injection Hs as <-.
    eexists. reflexivity.
  - reflexivity.
  - exists msg, o'. split; [exact Hrun|]. split.
    + apply (Hnew "Cost_per_unit" [Num 10; Num 2]); [now left | reflexivity].
    + apply (Hold "Recyclability"). now left.
Defined.

(** ** Normalising twice *)

Lemma df_set_same (c : string) (s : series) (df : DataFrame) :
  df_get c df = Some s -> df_set c s df = df.
Proof.
  induction df as [|[k old] rest IH]; simpl; [discriminate|].
  destruct (String.eqb c k).
  - intros H. injection H as <-. reflexivity.
  - intros H. now rewrite IH.
Qed.

(** A frame that already holds the result of every column it has is
    left as it is. *)
Lemma normalize_loop_fixed (cols : list string) (df : DataFrame) :
  (forall c s, In c cols -> df_get c df = Some s ->
     exists l, s = NumCol l /\
               df_get (normalized_name c) df = Some (NumCol (min_max l))) ->
  normalize_loop cols df = (inr tt, df).
Proof.
  induction cols as [|col rest IH]; intros H; simpl.
  - reflexivity.
  - assert (Hrest : normalize_loop rest df = (inr tt, df)).
    { apply IH. intros c s Hc. apply H. now right. }
    destruct (df_get col df) as [s|] eqn:Hcol; [|exact Hrest].
    destruct (H col s (or_introl eq_refl) Hcol) as [l [-> Hres]].
    cbn [normalize_series]. now rewrite (df_set_same _ _ _ Hres).
Qed.

(** X5.  [normalize_columns] is idempotent on float columns: a second
    call rewrites every [*_normalized] column with the value it has and
    leaves the object as the first call left it. *)
Theorem normalize_columns_idempotent :
  (forall (o : Packaging.optimizer) (w : world),
     (forall c, In c Packaging.columns_to_normalize ->
                numeric (Packaging.data o) c) ->
     exists o',
       Packaging.normalize_columns (o, w) = (inr tt, (o', w)) /\
       forall w', Packaging.normalize_columns (o', w') = (inr tt, (o', w')))
  /\
  (forall (o : Lifecycle.simulator) (w : world),
     (forall c, In c Lifecycle.columns_to_normalize ->
                numeric (Lifecycle.data o) c) ->
     exists o',
       Lifecycle.normalize_columns (o, w)
       = (inr tt, (o', logged w INFO "Normalizing columns for simulation.")) /\
       forall w',
         Lifecycle.normalize_columns (o', w')
         = (inr tt, (o', logged w' INFO "Normalizing columns for simulation."))).
Proof.
  split.
  - intros o w Hnum.
    destruct (packaging_normalize o w Hnum) as [o' [Hrun [_ [Hnew Hold]]]].
    exists o'. split; [exact Hrun|]. intros w'.
    unfold Packaging.normalize_columns. cbn [fst snd].
    rewrite normalize_loop_fixed; [now destruct o'|].
    intros c s Hc Hs.
    rewrite (Hold c (source_not_result _ c packaging_results_apart Hc)) in Hs.
    destruct (Hnum c Hc s Hs) as [l ->]. exists l. split; [reflexivity|].
    now apply Hnew.
  - intros o w Hnum.
    destruct (lifecycle_normalize o w Hnum) as [o' [Hrun [_ [Hnew Hold]]]].
    exists o'. split; [exact Hrun|]. intros w'.
    unfold Lifecycle.normalize_columns, bind, logging. cbn [fst snd].
    rewrite normalize_loop_fixed; [now destruct o'|].
    intros c s Hc Hs.
    rewrite (Hold c (source_not_result _ c lifecycle_results_apart Hc)) in Hs.
    destruct (Hnum c Hc s Hs) as [l ->]. exists l. split; [reflexivity|].
    now apply Hnew.
Qed.

Lemma normalize_columns_idempotent_witness :
  exists o',
    Packaging.normalize_columns
      (Packaging.mkOptimizer example_materials None, empty_world)
    = (inr tt, (o', empty_world)) /\
    Packaging.normalize_columns (o', empty_world) = (inr tt, (o', empty_world)).
Proof.
  destruct (proj1 normalize_columns_idempotent
              (Packaging.mkOptimizer example_materials None) empty_world
              example_numeric) as [o' [Hrun Hagain]].
  exists o'. split; [exact Hrun | apply Hagain].
Defined.

(** ** The scoring loop on a table of floats *)

Lemma Forall2_In_l {A B : Type} (R : A -> B -> Prop) (l1 : list A)
    (l2 : list B) (x : A) :
  Forall2 R l1 l2 -> In x l1 -> exists y, In y l2 /\ R x y.
Proof.
  induction 1 as [|a b r1 r2 Hab Hrest IH]; intros Hin; [destruct Hin|].
  destruct Hin as [<-|Hin].
  - exists b. split; [now left | assumption].
  - destruct (IH Hin) as [y [Hy Hxy]]. exists y. split; [now right | assumption].
Qed.

(** The loop keeps the number of rows when the columns it reads have one
    entry per row. *)
Lemma normalize_loop_nrows (cols : list string) :
  results_apart cols ->
  forall df,
    (forall c, In c cols ->
       exists l, df_get c df = Some (NumCol l) /\ List.length l = nrows df) ->
    nrows (snd (normalize_loop cols df)) = nrows df.
Proof.
  induction cols as [|col rest IH]; intros Hapart df Hcols.
  - reflexivity.
  - pose proof Hapart as [Hsrc _].
    destruct (Hcols col (or_introl eq_refl)) as [l [Hcol Hlen]].
    cbn [normalize_loop]. rewrite Hcol. cbn [normalize_series].
    set (df1 := df_set (normalized_name col) (NumCol (min_max l)) df).
    assert (Hrows : nrows df1 = nrows df).
    { apply nrows_df_set.
      - intros E. rewrite E in Hcol. discriminate.
      - cbn [series_len]. unfold min_max. now rewrite length_map. }
    rewrite IH; [exact Hrows | exact (results_apart_tail _ _ Hapart) |].
    intros c Hc. destruct (Hcols c (or_intror Hc)) as [l' [Hc' Hlen']].
    exists l'. split; [|now rewrite Hrows].
    unfold df1. rewrite df_get_set_other; [exact Hc'|].
    intros Heq. apply (Hsrc col (or_introl eq_refl)). rewrite Heq. now right.
Qed.

(** The frame after the loop, on a table of floats. *)
Lemma normalize_loop_table (df : DataFrame) (label : string)
    (cols : list string) (labels : list value) (ls : list (list cell)) :
  results_apart cols ->
  ~ In label (map normalized_name cols) ->
  float_table df label cols labels ls ->
  exists df',
    normalize_loop cols df = (inr tt, df') /\
    float_table df' label (map normalized_name cols) labels (map min_max ls) /\
    (forall c, ~ In c (map normalized_name cols) -> df_get c df' = df_get c df) /\
    (forall c l, In c cols -> df_get c df = Some (NumCol l) ->
       df_get (normalized_name c) df' = Some (NumCol (min_max l))).
Proof.
  intros Hapart Hlabel [[s [Hs Hvals]] [Hlen Hcols]].
  assert (Hfloat : forall c, In c cols ->
            exists l, df_get c df = Some (NumCol l) /\ List.length l = nrows df).
  { intros c Hc. destruct (Forall2_In_l _ _ _ c Hcols Hc) as [l [_ H]].
    now exists l. }
  destruct (normalize_loop_spec cols Hapart df) as [df' [Hrun [Hnew Hold]]].
  { intros c Hc s' Hs'. destruct (Hfloat c Hc) as [l [Hl _]].
    exists l. congruence. }
  pose proof (normalize_loop_nrows cols Hapart df Hfloat) as Hrows.
  rewrite Hrun in Hrows. cbn [snd] in Hrows.
  exists df'. split; [exact Hrun|]. split; [|split; [exact Hold | exact Hnew]].
  split; [|split].
  - exists s. split; [|exact Hvals]. now rewrite Hold.
  - now rewrite Hrows.
  - assert (Haux : forall cs ls',
              Forall2 (fun c l => df_get c df = Some (NumCol l) /\
                                  List.length l = nrows df) cs ls' ->
              (forall c, In c cs -> In c cols) ->
              Forall2 (fun c l => df_get c df' = Some (NumCol l) /\
                                  List.length l = nrows df')
                (map normalized_name cs) (map min_max ls')).
    { induction 1 as [|c l cs ls' [Hc Hl] Hrest IH]; intros Hsub;
        cbn [map]; constructor.
      - split.
        + apply Hnew; [apply Hsub; now left | exact Hc].
        + unfold min_max. rewrite length_map. now rewrite Hrows.
      - apply IH. intros k Hk. apply Hsub. now right. }
    apply Haux; [exact Hcols | auto].
Qed.

Lemma row_float_row_at (c : string) (df : DataFrame) (l : list cell) (i : nat) :
  df_get c df = Some (NumCol l) -> row_float c (row_at df i) = inr (nth i l NaN).
Proof.
  intros H. unfold row_float. rewrite row_get_row_at, H. cbn [series_values].
  now rewrite (map_nth VNum).
Qed.

Lemma start_point_row_at (features : list string) (ls : list (list cell))
    (df : DataFrame) (n i : nat) :
  Forall2 (fun c l => df_get c df = Some (NumCol l) /\ List.length l = n)
    features ls ->
  start_point features (row_at df i) = inr (map (fun l => nth i l NaN) ls).
Proof.
  induction 1 as [|c l cs ls' [Hc _] Hrest IH]; cbn [start_point map].
  - reflexivity.
  - now rewrite (row_float_row_at _ _ _ _ Hc), IH.
Qed.

(** On a table of floats the scoring loop ends normally, with one entry
    per row. *)
Lemma score_rows_table (label : string) (features : list string)
    (minimize : solver) (f : list cell -> cell) (df : DataFrame)
    (labels : list value) (ls : list (list cell)) :
  float_table df label features labels ls ->
  score_rows label features minimize f (iterrows df)
  = inr (map (fun i =>
                (nth i labels (VNum NaN),
                 res_fun (minimize f (map (fun l => nth i l NaN) ls) unit_bounds)))
           (seq 0 (List.length labels))).
Proof.
  intros [[s [Hs Hvals]] [Hlen Hcols]]. unfold iterrows. rewrite <- Hlen.
  generalize (seq 0 (List.length labels)) as idx.
  induction idx as [|i idx IH]; cbn [map score_rows].
  - reflexivity.
  - unfold score_row. rewrite (start_point_row_at _ _ _ _ _ Hcols).
    rewrite row_get_row_at, Hs, Hvals, IH. reflexivity.
Qed.

Lemma row_scores_normalized (minimize : solver) (f : list cell -> cell)
    (labels : list value) (ls : list (list cell)) :
  map (fun i =>
         (nth i labels (VNum NaN),
          res_fun (minimize f (map (fun l => nth i l NaN) (map min_max ls))
                     unit_bounds)))
      (seq 0 (List.length labels))
  = row_scores minimize f labels ls.
Proof. unfold row_scores. apply map_ext. intros i. now rewrite map_map. Qed.

Lemma label_not_result_packaging :
  ~ In "Material" (map normalized_name Packaging.columns_to_normalize).
Proof. simpl. intuition discriminate. Qed.

Lemma label_not_result_lifecycle :
  ~ In "Stage" (map normalized_name Lifecycle.columns_to_normalize).
Proof. simpl. intuition discriminate. Qed.

(** The run of [optimize] on a table of floats. *)
Lemma optimize_run (minimize : solver) (wt : Packaging.weights)
    (o : Packaging.optimizer) (w : world)
    (labels : list value) (ls : list (list cell)) :
  float_table (Packaging.data o) "Material" Packaging.columns_to_normalize
    labels ls ->
  let ranked :=
    sorted score_of
      (row_scores minimize (Packaging.objective_function wt) labels ls) in
  exists df',
    normalize_loop Packaging.columns_to_normalize (Packaging.data o)
    = (inr tt, df') /\
    Packaging.optimize minimize wt (o, w)
    = (inr ranked, (Packaging.mkOptimizer df' (Some ranked), w)).
Proof.
  intros Htable ranked.
  destruct (normalize_loop_table _ _ _ _ _ packaging_results_apart
              label_not_result_packaging Htable) as [df' [Hrun [Htable' _]]].
  exists df'. split; [exact Hrun|].
  unfold Packaging.optimize, bind, Packaging.normalize_columns, self, set_self,
    ret, raise.
  cbn [fst snd]. rewrite Hrun. cbn [fst snd Packaging.data].
  change Packaging.normalized_features
    with (map normalized_name Packaging.columns_to_normalize).
  rewrite (score_rows_table _ _ minimize (Packaging.objective_function wt)
             _ _ _ Htable').
  rewrite row_scores_normalized. reflexivity.
Qed.

(** The run of [simulate] on a table of floats. *)
Lemma simulate_run (minimize : solver) (wt : Lifecycle.weights)
    (o : Lifecycle.simulator) (w : world)
    (labels : list value) (ls : list (list cell)) :
  float_table (Lifecycle.data o) "Stage" Lifecycle.columns_to_normalize
    labels ls ->
  let ranked :=
    sorted score_of
      (row_scores minimize (Lifecycle.objective_function wt) labels ls) in
  exists df',
    normalize_loop Lifecycle.columns_to_normalize (Lifecycle.data o)
    = (inr tt, df') /\
    Lifecycle.simulate minimize wt (o, w)
    = (inr ranked,
       (Lifecycle.mkSimulator df' (Some ranked),
        logged
          (logged
             (logged w INFO
                "Starting simulation with weights: cost=%s, carbon=%s, water=%s, energy=%s")
             INFO "Normalizing columns for simulation.")
          INFO "Simulation completed.")).
Proof.
  intros Htable ranked.
  destruct (normalize_loop_table _ _ _ _ _ lifecycle_results_apart
              label_not_result_lifecycle Htable) as [df' [Hrun [Htable' _]]].
  exists df'. split; [exact Hrun|].
  assert (Hnorm : forall w1,
            Lifecycle.normalize_columns (o, w1)
            = (inr tt,
               (Lifecycle.mkSimulator df' (Lifecycle.simulation_results o),
                logged w1 INFO "Normalizing columns for simulation."))).
  { intros w1. unfold Lifecycle.normalize_columns, bind, logging.
    cbn [fst snd]. now rewrite Hrun. }
  unfold Lifecycle.simulate.
  unfold bind at 1. unfold logging at 1. cbn [fst snd].
  unfold bind at 1. rewrite Hnorm.
  unfold bind, self, set_self, ret, raise, logging.
  cbn [fst snd Lifecycle.data].
  change Lifecycle.normalized_features
    with (map normalized_name Lifecycle.columns_to_normalize).
  rewrite (score_rows_table _ _ minimize (Lifecycle.objective_function wt)
             _ _ _ Htable').
  rewrite row_scores_normalized. reflexivity.
Qed.

Lemma map_fst_row_scores (minimize : solver) (f : list cell -> cell)
    (labels : list value) (ls : list (list cell)) :
  map fst (row_scores minimize f labels ls) = labels.
Proof.
  unfold row_scores. rewrite map_map. cbn [fst]. apply map_nth_seq.
Qed.

(** X6.  On a table whose label column and four measure columns are
    there, the measures being floats with one entry per row, [optimize]
    and [simulate] end normally for every solver and all weights: the
    ranking has exactly one entry per row, its labels are the labels of
    the table in some order, it is stored on the object, and no column
    but the [*_normalized] ones is changed. *)
Theorem scoring_ranks_every_row :
  (forall (minimize : solver) (wt : Packaging.weights)
          (o : Packaging.optimizer) (w : world)
          (labels : list value) (ls : list (list cell)),
     float_table (Packaging.data o) "Material" Packaging.columns_to_normalize
       labels ls ->
     exists ranked o',
       Packaging.optimize minimize wt (o, w) = (inr ranked, (o', w)) /\
       Packaging.optimized_results o' = Some ranked /\
       Permutation (map fst ranked) labels /\
       List.length ranked = nrows (Packaging.data o) /\
       forall c, ~ In c Packaging.normalized_features ->
         df_get c (Packaging.data o') = df_get c (Packaging.data o))
  /\
  (forall (minimize : solver) (wt : Lifecycle.weights)
          (o : Lifecycle.simulator) (w : world)
          (labels : list value) (ls : list (list cell)),
     float_table (Lifecycle.data o) "Stage" Lifecycle.columns_to_normalize
       labels ls ->
     exists ranked o' w',
       Lifecycle.simulate minimize wt (o, w) = (inr ranked, (o', w')) /\
       out w' = out w /\
       Lifecycle.simulation_results o' = Some ranked /\
       Permutation (map fst ranked) labels /\
       List.length ranked = nrows (Lifecycle.data o) /\
       forall c, ~ In c Lifecycle.normalized_features ->
         df_get c (Lifecycle.data o') = df_get c (Lifecycle.data o)).
Proof.
  split.
  - intros minimize wt o w labels ls Htable.
    destruct (optimize_run minimize wt o w labels ls Htable)
      as [df' [Hloop Hrun]].
    set (results := row_scores minimize (Packaging.objective_function wt)
                      labels ls) in *.
    assert (Hperm : Permutation results (sorted score_of results))
      by apply sorted_spec.
    eexists _, _. split; [exact Hrun|]. cbn [Packaging.optimized_results].
    split; [reflexivity|]. split; [|split].
    + rewrite <- (map_fst_row_scores minimize
                    (Packaging.objective_function wt) labels ls).
      apply Permutation_sym, Permutation_map, Hperm.
    + rewrite <- (Permutation_length Hperm). unfold results, row_scores.
      rewrite length_map, length_seq. apply Htable.
    + intros c Hc. cbn [Packaging.data].
      pose proof (normalize_loop_others Packaging.columns_to_normalize c Hc
                    (Packaging.data o)) as Hkeep.
      now rewrite Hloop in Hkeep.
  - intros minimize wt o w labels ls Htable.
    destruct (simulate_run minimize wt o w labels ls Htable)
      as [df' [Hloop Hrun]].
    set (results := row_scores minimize (Lifecycle.objective_function wt)
                      labels ls) in *.
    assert (Hperm : Permutation results (sorted score_of results))
      by apply sorted_spec.
    eexists _, _, _. split; [exact Hrun|]. cbn [Lifecycle.simulation_results].
    split; [reflexivity|]. split; [reflexivity|]. split; [|split].
    + rewrite <- (map_fst_row_scores minimize
                    (Lifecycle.objective_function wt) labels ls).
      apply Permutation_sym, Permutation_map, Hperm.
    + rewrite <- (Permutation_length Hperm). unfold results, row_scores.
      rewrite length_map, length_seq. apply Htable.
    + intros c Hc. cbn [Lifecycle.data].
      pose proof (normalize_loop_others Lifecycle.columns_to_normalize c Hc
                    (Lifecycle.data o)) as Hkeep.
      now rewrite Hloop in Hkeep.
Qed.

Lemma example_float_table :
  float_table example_materials "Material" Packaging.columns_to_normalize
    [VStr "A"; VStr "B"] example_measures.
Proof.
  split; [eexists; split; reflexivity|]. split; [reflexivity|].
  repeat (constructor; [split; reflexivity|]). constructor.
Qed.

Lemma scoring_ranks_every_row_witness :
  exists ranked o',
    Packaging.optimize coordinate_descent Packaging.default_weights
      (Packaging.mkOptimizer example_materials None, empty_world)
    = (inr ranked, (o', empty_world)) /\
    Permutation (map fst ranked) [VStr "A"; VStr "B"].
Proof.
  destruct (proj1 scoring_ranks_every_row coordinate_descent
              Packaging.default_weights
              (Packaging.mkOptimizer example_materials None) empty_world
              [VStr "A"; VStr "B"] example_measures example_float_table)
    as [ranked [o' [Hrun [_ [Hperm _]]]]].
  exists ranked, o'. split; assumption.
Defined.

(** ** Corner evaluation and the scoring loop *)

Lemma sort_by_no_swap {A : Type} (lt : A -> A -> bool) (l : list A) :
  (forall a b, In a l -> In b l -> lt a b = false) -> sort_by lt l = l.
Proof.
  induction l as [|x rest IH]; intros H; cbn [sort_by].
  - reflexivity.
  - rewrite IH by (intros a b Ha Hb; apply H; now right).
    destruct rest as [|y rest']; [reflexivity|]. cbn [insert_by].
    now rewrite (H y x (or_intror (or_introl eq_refl)) (or_introl eq_refl)).
Qed.

Lemma nth_in_unit_interval (l : list cell) (i : nat) :
  Forall in_unit_interval l -> (i < List.length l)%nat ->
  in_unit_interval (nth i l NaN).
Proof.
  intros Hall Hi. rewrite Forall_forall in Hall. apply Hall. now apply nth_In.
Qed.

Section DataIndependence.

Variable f : list cell -> cell.
Variable corner : list cell.

Hypothesis f_number : forall y, in_unit_box y -> exists q, f y = Num (Qred q).
Hypothesis corner_is_corner : In corner (corners 4).
Hypothesis corner_least : forall y q m,
  in_unit_box y -> f y = Num q -> f corner = Num m -> m <= q.

Variable minimize : solver.
Variable labels : list value.
Variable ls : list (list cell).

Hypothesis four_measures : List.length ls = 4%nat.
Hypothesis one_entry_per_row :
  Forall (fun l => List.length l = List.length labels) ls.
Hypothesis measures_vary : Forall not_all_equal ls.

(** Every row starts the solver inside the box. *)
Lemma start_in_box (i : nat) :
  (i < List.length labels)%nat ->
  in_unit_box (map (fun l => nth i (min_max l) NaN) ls).
Proof.
  intros Hi. split; [now rewrite length_map|].
  apply Forall_map. rewrite Forall_forall in *. intros l Hl.
  destruct (min_max_order l (measures_vary l Hl)) as [Hlen [Hrange _]].
  change (in_unit_interval (nth i (min_max l) NaN)).
  apply nth_in_unit_interval; [exact Hrange|].
  rewrite Hlen, (one_entry_per_row l Hl). exact Hi.
Qed.

Lemma row_scores_within (tol : Q) :
  converges minimize f tol ->
  Forall (fun e => within tol (corner_score f) (score_of e))
    (row_scores minimize f labels ls).
Proof.
  intros Hconv. unfold row_scores. apply Forall_map, Forall_forall.
  intros i Hi. apply in_seq in Hi. cbn [score_of snd].
  rewrite (corner_score_at_corner f corner f_number corner_is_corner
             corner_least).
  apply solver_within_tolerance; try assumption.
  apply start_in_box. lia.
Qed.

(** Row by row the loop agrees with corner evaluation. *)
Lemma row_scores_agree (tol : Q) :
  converges minimize f tol ->
  agree_within tol (scores_by_corner_evaluation f labels)
    (row_scores minimize f labels ls).
Proof.
  intros Hconv. unfold agree_within, scores_by_corner_evaluation, row_scores.
  rewrite <- (map_nth_seq labels (VNum NaN)) at 1. rewrite map_map.
  assert (Haux : forall idx, (forall i, In i idx -> (i < List.length labels)%nat) ->
            Forall2
              (fun c e => fst e = fst c /\ within tol (score_of c) (score_of e))
              (map (fun i => (nth i labels (VNum NaN), corner_score f)) idx)
              (map (fun i =>
                      (nth i labels (VNum NaN),
                       res_fun (minimize f (map (fun l => nth i (min_max l) NaN) ls)
                                  unit_bounds))) idx)).
  { induction idx as [|i idx IH]; intros Hidx; cbn [map]; constructor.
    - cbn [fst score_of snd]. split; [reflexivity|].
      rewrite (corner_score_at_corner f corner f_number corner_is_corner
                 corner_least).
      apply solver_within_tolerance; try assumption.
      apply start_in_box. apply Hidx. now left.
    - apply IH. intros j Hj. apply Hidx. now right. }
  apply Haux. intros i Hi. apply in_seq in Hi. lia.
Qed.

(** Any two rows get scores that differ by no more than the tolerance. *)
Lemma row_scores_close (tol : Q) (e1 e2 : value * cell) :
  converges minimize f tol ->
  In e1 (row_scores minimize f labels ls) ->
  In e2 (row_scores minimize f labels ls) ->
  exists s1 s2,
    score_of e1 = Num s1 /\ score_of e2 = Num s2 /\
    - tol <= s1 - s2 <= tol.
Proof.
  intros Hconv H1 H2.
  pose proof (row_scores_within tol Hconv) as Hall.
  rewrite Forall_forall in Hall.
  destruct (Hall e1 H1) as [m1 [s1 [Hm1 [Hs1 Hb1]]]].
  destruct (Hall e2 H2) as [m2 [s2 [Hm2 [Hs2 Hb2]]]].
  rewrite Hm1 in Hm2. injection Hm2 as Hm.
  exists s1, s2. split; [exact Hs1|]. split; [exact Hs2|].
  assert (Hmm : m1 == m2) by (rewrite Hm; reflexivity).
  lra.
Qed.

End DataIndependence.

Lemma float_table_shape (df : DataFrame) (label : string) (cols : list string)
    (labels : list value) (ls : list (list cell)) :
  float_table df label cols labels ls ->
  List.length ls = List.length cols /\
  Forall (fun l => List.length l = List.length labels) ls.
Proof.
  intros [_ [Hlen Hcols]]. split.
  - symmetry. exact (Forall2_length Hcols).
  - rewrite Hlen. clear Hlen.
    induction Hcols as [|c l cs ls' [_ Hl] _ IH]; constructor; assumption.
Qed.

(** The loop over the rows of a normalised table, written out. *)
Lemma score_rows_normalized (label : string) (cols : list string)
    (minimize : solver) (f : list cell -> cell) (df df' : DataFrame)
    (labels : list value) (ls : list (list cell)) :
  results_apart cols ->
  ~ In label (map normalized_name cols) ->
  float_table df label cols labels ls ->
  normalize_loop cols df = (inr tt, df') ->
  score_rows label (map normalized_name cols) minimize f (iterrows df')
  = inr (row_scores minimize f labels ls).
Proof.
  intros Hapart Hlabel Htable Hrun.
  destruct (normalize_loop_table _ _ _ _ _ Hapart Hlabel Htable)
    as [df1 [Hrun1 [Htable' _]]].
  rewrite Hrun in Hrun1. injection Hrun1 as <-.
  rewrite (score_rows_table _ _ minimize f _ _ _ Htable').
  now rewrite row_scores_normalized.
Qed.

(** An entry of a ranking is an entry of the list that was ranked. *)
Lemma In_sorted (results : list (value * cell)) (e : value * cell) :
  In e (sorted score_of results) -> In e results.
Proof.
  intros H. eapply Permutation_in; [|exact H].
  apply Permutation_sym. apply sorted_spec.
Qed.


Lemma example_measures_vary : Forall varied example_measures.
Proof.
  repeat constructor;
    try (eexists _, _; simpl; repeat split;
         [left; reflexivity | right; left; reflexivity | discriminate]).
Qed.

Lemma example_measures_bounded : Forall (Forall bounded) example_measures.
Proof.
  repeat (constructor;
          [repeat (constructor; [vm_compute; split; discriminate|]);
           constructor|]).
  constructor.
Qed.




(** A list whose scores are all the same is its own ranking. *)
Lemma sorted_equal_scores (k : cell) (results : list (value * cell)) :
  Forall (fun e => score_of e = k) results ->
  sorted score_of results = results.
Proof.
  intros Hall. rewrite Forall_forall in Hall.
  unfold sorted. apply sort_by_no_swap.
  intros x y Hx Hy. rewrite (Hall x Hx), (Hall y Hy).
  destruct k; try reflexivity. apply ltb_irrefl.
Qed.

(** X8.  When the solver reports one and the same value [k] for every
    row of the table, the sort has nothing to move, as no comparison of
    two scores succeeds: the ranking of [optimize] and of [simulate] is
    the rows in the order of the table, each with the score [k],
    whatever the measures are.  The entries of the table are finite
    numbers of magnitude at most 2^53. *)
Theorem equal_scores_rank_in_table_order :
  (forall (minimize : solver) (wt : Packaging.weights) (k : cell)
          (o : Packaging.optimizer) (w : world)
          (labels : list value) (ls : list (list cell)),
     let f := Packaging.objective_function wt in
     float_table (Packaging.data o) "Material" Packaging.columns_to_normalize
       labels ls ->
     Forall (Forall bounded) ls ->
     Forall (fun e => score_of e = k) (row_scores minimize f labels ls) ->
     exists o',
       Packaging.optimize minimize wt (o, w)
       = (inr (map (fun v => (v, k)) labels), (o', w)))
  /\
  (forall (minimize : solver) (wt : Lifecycle.weights) (k : cell)
          (o : Lifecycle.simulator) (w : world)
          (labels : list value) (ls : list (list cell)),
     let f := Lifecycle.objective_function wt in
     float_table (Lifecycle.data o) "Stage" Lifecycle.columns_to_normalize
       labels ls ->
     Forall (Forall bounded) ls ->
     Forall (fun e => score_of e = k) (row_scores minimize f labels ls) ->
     exists o' w',
       Lifecycle.simulate minimize wt (o, w)
       = (inr (map (fun v => (v, k)) labels), (o', w'))).
Proof.
  assert (Hrows : forall minimize f k labels ls,
            Forall (fun e => score_of e = k) (row_scores minimize f labels ls) ->
            sorted score_of (row_scores minimize f labels ls)
            = map (fun v => (v, k)) labels).
  { intros minimize f k labels ls Hall.
    rewrite (sorted_equal_scores k _ Hall).
    rewrite <- (map_fst_row_scores minimize f labels ls) at 2.
    rewrite map_map. rewrite <- (map_id (row_scores minimize f labels ls)) at 1.
    apply map_ext_in. intros [v s] He. rewrite Forall_forall in Hall.
    specialize (Hall _ He). cbn [score_of snd fst] in *. now rewrite Hall. }
  split.
  - intros minimize wt k o w labels ls f Htable _ Hall.
    destruct (optimize_run minimize wt o w labels ls Htable)
      as [df' [_ Hrun]].
    cbv zeta in Hrun. fold f in Hrun. rewrite (Hrows _ _ _ _ _ Hall) in Hrun.
    eexists. exact Hrun.
  - intros minimize wt k o w labels ls f Htable _ Hall.
    destruct (simulate_run minimize wt o w labels ls Htable)
      as [df' [_ Hrun]].
    cbv zeta in Hrun. fold f in Hrun. rewrite (Hrows _ _ _ _ _ Hall) in Hrun.
    eexists _, _. exact Hrun.
Qed.

Lemma equal_scores_rank_in_table_order_witness :
  exists o',
    Packaging.optimize coordinate_descent Packaging.default_weights
      (Packaging.mkOptimizer example_materials None, empty_world)
    = (inr [(VStr "A", Num 0); (VStr "B", Num 0)], (o', empty_world)).
Proof.
  apply (proj1 equal_scores_rank_in_table_order coordinate_descent
           Packaging.default_weights (Num 0)
           (Packaging.mkOptimizer example_materials None) empty_world
           [VStr "A"; VStr "B"] example_measures
           example_float_table example_measures_bounded).
  repeat constructor.
Defined.

(** ** Scoring twice *)

(** After the loop the table is still one the loop can run on, and a
    second pass changes nothing. *)
Lemma normalize_loop_again (df df' : DataFrame) (label : string)
    (cols : list string) (labels : list value) (ls : list (list cell)) :
  results_apart cols ->
  ~ In label (map normalized_name cols) ->
  float_table df label cols labels ls ->
  normalize_loop cols df = (inr tt, df') ->
  float_table df' label cols labels ls /\
  normalize_loop cols df' = (inr tt, df').
Proof.
  intros Hapart Hlabel Htable Hrun.
  destruct (normalize_loop_table _ _ _ _ _ Hapart Hlabel Htable)
    as [df1 [Hrun1 [Htable' [Hold Hnew]]]].
  rewrite Hrun in Hrun1. injection Hrun1 as <-.
  destruct Htable as [[s [Hs Hvals]] [Hlen Hcols]].
  destruct Htable' as [_ [Hlen' _]].
  assert (Hsame : forall c, In c cols -> df_get c df' = df_get c df).
  { intros c Hc. apply Hold. now apply source_not_result. }
  split.
  - split; [|split].
    + exists s. split; [|exact Hvals]. now rewrite Hold.
    + exact Hlen'.
    + assert (Haux : forall cs ls',
                Forall2 (fun c l => df_get c df = Some (NumCol l) /\
                                    List.length l = nrows df) cs ls' ->
                (forall c, In c cs -> In c cols) ->
                Forall2 (fun c l => df_get c df' = Some (NumCol l) /\
                                    List.length l = nrows df') cs ls').
      { induction 1 as [|c l cs ls' [Hc Hl] Hrest IH]; intros Hsub; constructor.
        - split.
          + rewrite Hsame; [exact Hc | apply Hsub; now left].
          + congruence.
        - apply IH. intros k Hk. apply Hsub. now right. }
      apply Haux; [exact Hcols | auto].
  - apply normalize_loop_fixed. intros c s' Hc Hs'.
    rewrite (Hsame c Hc) in Hs'.
    destruct (Forall2_In_l _ _ _ c Hcols Hc) as [l [_ [Hl _]]].
    exists l. split; [congruence|]. now apply Hnew.
Qed.

(** X9.  Scoring is repeatable: after [optimize] (or [simulate]) has run
    on a table of floats, a second call with the same solver and weights
    returns the same ranking and leaves the object as the first call
    left it.  The second normalisation finds every [*_normalized] column
    already in place. *)
Theorem scoring_twice_gives_the_same_ranking :
  (forall (minimize : solver) (wt : Packaging.weights)
          (o : Packaging.optimizer) (w : world)
          (labels : list value) (ls : list (list cell)),
     float_table (Packaging.data o) "Material" Packaging.columns_to_normalize
       labels ls ->
     exists ranked o',
       Packaging.optimize minimize wt (o, w) = (inr ranked, (o', w)) /\
       forall w', Packaging.optimize minimize wt (o', w')
                  = (inr ranked, (o', w')))
  /\
  (forall (minimize : solver) (wt : Lifecycle.weights)
          (o : Lifecycle.simulator) (w : world)
          (labels : list value) (ls : list (list cell)),
     float_table (Lifecycle.data o) "Stage" Lifecycle.columns_to_normalize
       labels ls ->
     exists ranked o' w1,
       Lifecycle.simulate minimize wt (o, w) = (inr ranked, (o', w1)) /\
       forall w', exists w2,
         Lifecycle.simulate minimize wt (o', w') = (inr ranked, (o', w2)) /\
         out w2 = out w').
Proof.
  split.
  - intros minimize wt o w labels ls Htable.
    destruct (optimize_run minimize wt o w labels ls Htable)
      as [df' [Hloop Hrun]].
    destruct (normalize_loop_again _ _ _ _ _ _ packaging_results_apart
                label_not_result_packaging Htable Hloop) as [Htable' Hfixed].
    eexists _, _. split; [exact Hrun|]. intros w'.
    destruct (optimize_run minimize wt
                (Packaging.mkOptimizer df'
                   (Some (sorted score_of
                            (row_scores minimize
                               (Packaging.objective_function wt) labels ls))))
                w' labels ls Htable') as [df'' [Hloop' Hrun']].
    cbn [Packaging.data] in Hloop'. rewrite Hfixed in Hloop'.
    injection Hloop' as <-. exact Hrun'.
  - intros minimize wt o w labels ls Htable.
    destruct (simulate_run minimize wt o w labels ls Htable)
      as [df' [Hloop Hrun]].
    destruct (normalize_loop_again _ _ _ _ _ _ lifecycle_results_apart
                label_not_result_lifecycle Htable Hloop) as [Htable' Hfixed].
    eexists _, _, _. split; [exact Hrun|]. intros w'.
    destruct (simulate_run minimize wt
                (Lifecycle.mkSimulator df'
                   (Some (sorted score_of
                            (row_scores minimize
                               (Lifecycle.objective_function wt) labels ls))))
                w' labels ls Htable') as [df'' [Hloop' Hrun']].
    cbn [Lifecycle.data] in Hloop'. rewrite Hfixed in Hloop'.
    injection Hloop' as <-. eexists. split; [exact Hrun' | reflexivity].
Qed.

Lemma scoring_twice_gives_the_same_ranking_witness :
  exists ranked o',
    Packaging.optimize coordinate_descent Packaging.default_weights
      (Packaging.mkOptimizer example_materials None, empty_world)
    = (inr ranked, (o', empty_world)) /\
    Packaging.optimize coordinate_descent Packaging.default_weights
      (o', empty_world)
    = (inr ranked, (o', empty_world)).
Proof.
  destruct (proj1 scoring_twice_gives_the_same_ranking coordinate_descent
              Packaging.default_weights
              (Packaging.mkOptimizer example_materials None) empty_world
              [VStr "A"; VStr "B"] example_measures example_float_table)
    as [ranked [o' [Hrun Hagain]]].
  exists ranked, o'. split; [exact Hrun | apply Hagain].
Defined.

(** ** Reporting a ranking *)

Lemma for_each_emit {S A : Type} (g : A -> event) (l : list A) (s : S)
    (w : world) :
  for_each l (fun r => emit (g r)) (s, w) = (inr tt, (s, emitted w (map g l))).
Proof.
  revert w. induction l as [|x rest IH]; intros [lg ot]; cbn [for_each map].
  - unfold ret, emitted. cbn [log out]. now rewrite app_nil_r.
  - unfold bind, emit at 1. cbn [fst snd log out]. rewrite IH.
    unfold emitted. cbn [log out]. now rewrite <- app_assoc.
Qed.

Lemma emit_run {S : Type} (e : event) (s : S) (w : world) :
  emit e (s, w) = (inr tt, (s, emitted w [e])).
Proof. reflexivity. Qed.

Lemma emitted_app (w : world) (l1 l2 : list event) :
  emitted (emitted w l1) l2 = emitted w (l1 ++ l2).
Proof. unfold emitted. cbn [log out]. now rewrite <- app_assoc. Qed.

Lemma optimizer_reports (o : Packaging.optimizer) (w : world)
    (ranked : list (value * cell)) (output_file : string) :
  Packaging.optimized_results o = Some ranked ->
  (Packaging.display_results ;;;
   Packaging.export_results output_file ;;;
   Packaging.visualize_results ;;;
   Packaging.visualize_results_interactive) (o, w)
  = (inr tt, (o, emitted w (optimizer_report output_file ranked))).
Proof.
  intros Hres.
  unfold Packaging.display_results, Packaging.export_results,
    Packaging.visualize_results, Packaging.visualize_results_interactive.
  unfold bind, self. cbn [fst snd]. rewrite Hres.
  repeat (rewrite emit_run; cbn [fst snd]).
  rewrite for_each_emit. cbn [fst snd]. rewrite Hres.
  repeat (rewrite emit_run; cbn [fst snd]; try rewrite Hres).
  rewrite !emitted_app. reflexivity.
Qed.

Lemma simulator_reports (o : Lifecycle.simulator) (w : world)
    (ranked : list (value * cell)) (output_file : string) :
  Lifecycle.simulation_results o = Some ranked ->
  (Lifecycle.display_results ;;;
   Lifecycle.visualize_results ;;;
   Lifecycle.export_results output_file) (o, w)
  = (inr tt,
     (o, logged (emitted w (simulator_report output_file ranked))
           INFO ("Results exported to " ++ output_file))).
Proof.
  intros Hres.
  unfold Lifecycle.display_results, Lifecycle.export_results,
    Lifecycle.visualize_results.
  unfold bind, self. cbn [fst snd]. rewrite Hres.
  repeat (rewrite emit_run; cbn [fst snd]).
  rewrite for_each_emit. cbn [fst snd]. rewrite Hres.
  repeat (rewrite emit_run; cbn [fst snd]; try rewrite Hres).
  rewrite !emitted_app. reflexivity.
Qed.

(** X10.  Once a ranking is stored, the result methods called one
    after the other all end normally, leave the object as it is, and
    put out that ranking: the printed table lists it entry by entry in
    its order, the CSV file holds it under the script's two headers, and
    the charts draw its bars in the same order. *)
Theorem results_report_the_stored_ranking :
  (forall (o : Packaging.optimizer) (w : world)
          (ranked : list (value * cell)) (output_file : string),
     Packaging.optimized_results o = Some ranked ->
     (Packaging.display_results ;;;
      Packaging.export_results output_file ;;;
      Packaging.visualize_results ;;;
      Packaging.visualize_results_interactive) (o, w)
     = (inr tt, (o, emitted w (optimizer_report output_file ranked))))
  /\
  (forall (o : Lifecycle.simulator) (w : world)
          (ranked : list (value * cell)) (output_file : string),
     Lifecycle.simulation_results o = Some ranked ->
     (Lifecycle.display_results ;;;
      Lifecycle.visualize_results ;;;
      Lifecycle.export_results output_file) (o, w)
     = (inr tt,
        (o, logged (emitted w (simulator_report output_file ranked))
              INFO ("Results exported to " ++ output_file)))).
Proof.
  split.
  - exact optimizer_reports.
  - exact simulator_reports.
Qed.

Lemma results_report_the_stored_ranking_witness :
  out (snd (snd
    ((Packaging.display_results ;;;
      Packaging.export_results "optimized_results.csv" ;;;
      Packaging.visualize_results ;;;
      Packaging.visualize_results_interactive)
       (Packaging.mkOptimizer example_materials
          (Some [(VStr "A", Num 0); (VStr "B", Num 0)]), empty_world))))
  = optimizer_report "optimized_results.csv"
      [(VStr "A", Num 0); (VStr "B", Num 0)].
Proof.
  rewrite (proj1 results_report_the_stored_ranking
             (Packaging.mkOptimizer example_materials
                (Some [(VStr "A", Num 0); (VStr "B", Num 0)]))
             empty_world [(VStr "A", Num 0); (VStr "B", Num 0)]
             "optimized_results.csv" eq_refl).
  reflexivity.
Defined.

(** ** Constructors *)

Lemma optimizer_init (table : DataFrame) (w : world) :
  Optimizer.__init__ table w
  = match first_missing Packaging.required_columns table with
    | None => (inr (Packaging.mkOptimizer table None), w)
    | Some c => (inl (ValueError ("Missing required column: " ++ c)), w)
    end.
Proof.
  unfold Optimizer.__init__, construct. rewrite packaging_validate_first.
  cbn [Packaging.data]. now destruct (first_missing _ _).
Qed.

Lemma simulator_init (table : DataFrame) (w : world) :
  Simulator.__init__ table w
  = let w1 := logged (logged w INFO "Initializing Lifecycle Impact Simulator.")
                INFO "Validating input data." in
    match first_missing Lifecycle.required_columns table with
    | None => (inr (Lifecycle.mkSimulator table None), w1)
    | Some c =>
        (inl (ValueError ("Missing required column: " ++ c)),
         logged w1 ERROR ("Missing required column: " ++ c))
    end.
Proof.
  unfold Simulator.__init__, construct.
  unfold bind at 1. unfold logging at 1. cbn [fst snd].
  rewrite lifecycle_validate_first.
  cbn [Lifecycle.data]. now destruct (first_missing _ _).
Qed.

Lemma validator_init (table regulations : DataFrame) (w : world) :
  Validator.__init__ table regulations w
  = let w1 := logged
                (logged w INFO "Initializing Regulatory Compliance Validator.")
                INFO "Validating input data format." in
    match first_missing Compliance.required_data_columns table with
    | Some c =>
        (inl (ValueError ("Missing required column in data: " ++ c)),
         logged w1 ERROR ("Missing required column in data: " ++ c))
    | None =>
        match first_missing Compliance.required_regulation_columns
                regulations with
        | Some c =>
            (inl (ValueError ("Missing required column in regulations: " ++ c)),
             logged w1 ERROR ("Missing required column in regulations: " ++ c))
        | None => (inr (Compliance.mkValidator table regulations), w1)
        end
    end.
Proof.
  unfold Validator.__init__, construct.
  unfold bind at 1. unfold logging at 1. cbn [fst snd].
  rewrite compliance_validate_first.
  cbn [Compliance.data Compliance.regulations].
  destruct (first_missing _ table); [reflexivity|].
  now destruct (first_missing _ regulations).
Qed.

Lemma tracker_init (table : DataFrame) (w : world) :
  has_column "Date" table = true ->
  Tracker.__init__ table w
  = let w1 := logged (logged w INFO "Initializing Sustainability KPI Tracker.")
                INFO "Validating input data." in
    match first_missing KPI.required_columns table with
    | None => (inr (KPI.mkTracker table), w1)
    | Some c =>
        (inl (ValueError ("Missing required column: " ++ c)),
         logged w1 ERROR ("Missing required column: " ++ c))
    end.
Proof.
  intros Hdate. unfold Tracker.__init__, Tracker.read_csv, construct.
  rewrite Hdate. cbv zeta.
  rewrite kpi_validate_first.
  cbn [KPI.data]. now destruct (first_missing _ _).
Qed.

Lemma tracker_init_no_date (table : DataFrame) (w : world) :
  has_column "Date" table = false ->
  exists msg,
    Tracker.__init__ table w
    = (inl (ValueError msg),
       logged w INFO "Initializing Sustainability KPI Tracker.").
Proof.
  intros Hdate. unfold Tracker.__init__, Tracker.read_csv.
  rewrite Hdate. eexists. reflexivity.
Qed.

(** X11.  A constructor yields an object exactly when the table it read
    has every required column.  The object then holds the table as read
    and, for the optimizer and the simulator, no results yet; otherwise
    the constructor raises for the first missing column and no object
    exists.  The scripts that log write their "Initializing" line before
    the lines of the validation.  The tracker reads its file with
    [parse_dates=['Date']]: on a table without a [Date] column the
    parser raises a ValueError of its own after the "Initializing" line
    and the validation is not reached; on a table with that column the
    tracker behaves as the other scripts do. *)
Theorem constructors_validate_the_table :
  (forall (table : DataFrame) (w : world),
     Optimizer.__init__ table w
     = match first_missing Packaging.required_columns table with
       | None => (inr (Packaging.mkOptimizer table None), w)
       | Some c => (inl (ValueError ("Missing required column: " ++ c)), w)
       end)
  /\
  (forall (table : DataFrame) (w : world),
     Simulator.__init__ table w
     = let w1 := logged (logged w INFO "Initializing Lifecycle Impact Simulator.")
                   INFO "Validating input data." in
       match first_missing Lifecycle.required_columns table with
       | None => (inr (Lifecycle.mkSimulator table None), w1)
       | Some c =>
           (inl (ValueError ("Missing required column: " ++ c)),
            logged w1 ERROR ("Missing required column: " ++ c))
       end)
  /\
  (forall (table regulations : DataFrame) (w : world),
     Validator.__init__ table regulations w
     = let w1 := logged
                   (logged w INFO "Initializing Regulatory Compliance Validator.")
                   INFO "Validating input data format." in
       match first_missing Compliance.required_data_columns table with
       | Some c =>
           (inl (ValueError ("Missing required column in data: " ++ c)),
            logged w1 ERROR ("Missing required column in data: " ++ c))
       | None =>
           match first_missing Compliance.required_regulation_columns
                   regulations with
           | Some c =>
               (inl (ValueError ("Missing required column in regulations: " ++ c)),
                logged w1 ERROR
                  ("Missing required column in regulations: " ++ c))
           | None => (inr (Compliance.mkValidator table regulations), w1)
           end
       end)
  /\
  (forall (table : DataFrame) (w : world),
     let w0 := logged w INFO "Initializing Sustainability KPI Tracker." in
     (has_column "Date" table = false ->
      exists msg, Tracker.__init__ table w = (inl (ValueError msg), w0)) /\
     (has_column "Date" table = true ->
      Tracker.__init__ table w
      = let w1 := logged w0 INFO "Validating input data." in
        match first_missing KPI.required_columns table with
        | None => (inr (KPI.mkTracker table), w1)
        | Some c =>
            (inl (ValueError ("Missing required column: " ++ c)),
             logged w1 ERROR ("Missing required column: " ++ c))
        end)).
Proof.
  split; [|split; [|split]].
  - exact optimizer_init.
  - exact simulator_init.
  - exact validator_init.
  - intros table w w0. split.
    + apply tracker_init_no_date.
    + apply tracker_init.
Qed.

Lemma constructors_validate_the_table_witness :
  Tracker.__init__ example_kpis empty_world
  = (inr (KPI.mkTracker example_kpis),
     logged (logged empty_world INFO "Initializing Sustainability KPI Tracker.")
       INFO "Validating input data.")
  /\
  exists msg,
    Tracker.__init__ example_materials empty_world
    = (inl (ValueError msg),
       logged empty_world INFO "Initializing Sustainability KPI Tracker.").
Proof.
  split.
  - exact (proj2 (proj2 (proj2 (proj2 constructors_validate_the_table))
                    example_kpis empty_world) eq_refl).
  - exact (proj1 (proj2 (proj2 (proj2 constructors_validate_the_table))
                    example_materials empty_world) eq_refl).
Defined.

(** ** The script of the simulator *)

Lemma df_get_has_column (c : string) (s : series) (df : DataFrame) :
  df_get c df = Some s -> has_column c df = true.
Proof. intros H. apply has_column_In. eapply df_get_In. exact H. Qed.

Lemma stage_table_validates (table : DataFrame) (labels : list value)
    (ls : list (list cell)) :
  float_table table "Stage" Lifecycle.columns_to_normalize labels ls ->
  first_missing Lifecycle.required_columns table = None.
Proof.
  intros [[s [Hs _]] [_ Hcols]].
  unfold Lifecycle.columns_to_normalize in Hcols.
  repeat match goal with
         | H : Forall2 _ (_ :: _) _ |- _ =>
             inversion H as [|? ? ? ? [? _] ?]; clear H; subst
         end.
  cbn [first_missing Lifecycle.required_columns].
  repeat match goal with
         | H : df_get _ table = Some _ |- _ =>
             rewrite (df_get_has_column _ _ _ H); clear H
         end.
  reflexivity.
Qed.

(** X12.  The script of the simulator, run on the table its constructor
    reads.  With a required column missing it ends in the ValueError of
    the validation after three log lines and puts nothing out.  On a
    table of floats it runs to its end: six INFO lines are logged, and
    the table printed, the chart drawn and the file
    [simulation_results.csv] written all hold the ranking that
    [simulate] computed with the default weights. *)
Theorem simulator_script_runs (minimize : solver) (table : DataFrame)
    (w : world) :
  (forall c,
     first_missing Lifecycle.required_columns table = Some c ->
     Simulator.main minimize table w
     = (inl (ValueError ("Missing required column: " ++ c)),
        mkWorld
          (log w ++
           [ (INFO, "Initializing Lifecycle Impact Simulator.");
             (INFO, "Validating input data.");
             (ERROR, "Missing required column: " ++ c) ])
          (out w)))
  /\
  (forall (labels : list value) (ls : list (list cell)),
     float_table table "Stage" Lifecycle.columns_to_normalize labels ls ->
     Simulator.main minimize table w
     = (inr tt,
        mkWorld
          (log w ++
           [ (INFO, "Initializing Lifecycle Impact Simulator.");
             (INFO, "Validating input data.");
             (INFO, "Starting simulation with weights: cost=%s, carbon=%s, water=%s, energy=%s");
             (INFO, "Normalizing columns for simulation.");
             (INFO, "Simulation completed.");
             (INFO, "Results exported to simulation_results.csv") ])
          (out w ++
           simulator_report "simulation_results.csv"
             (sorted score_of
                (row_scores minimize
                   (Lifecycle.objective_function Lifecycle.default_weights)
                   labels ls))))).
Proof.
  split.
  - intros c Hc. unfold Simulator.main. rewrite simulator_init, Hc.
    cbv zeta. unfold logged. cbn [log out]. now rewrite <- !app_assoc.
  - intros labels ls Htable. unfold Simulator.main.
    rewrite simulator_init, (stage_table_validates _ _ _ Htable). cbv zeta.
    set (w1 := logged (logged w INFO _) INFO _).
    destruct (simulate_run minimize Lifecycle.default_weights
                (Lifecycle.mkSimulator table None) w1 labels ls Htable)
      as [df' [_ Hrun]].
    match goal with
    | |- context [?pipeline (Lifecycle.mkSimulator table None, w1)] =>
        assert (Hpipe : exists o',
                  pipeline (Lifecycle.mkSimulator table None, w1)
                  = (inr tt,
                     (o',
                      logged
                        (emitted
                           (logged
                              (logged
                                 (logged w1 INFO
                                    "Starting simulation with weights: cost=%s, carbon=%s, water=%s, energy=%s")
                                 INFO "Normalizing columns for simulation.")
                              INFO "Simulation completed.")
                           (simulator_report "simulation_results.csv"
                              (sorted score_of
                                 (row_scores minimize
                                    (Lifecycle.objective_function
                                       Lifecycle.default_weights)
                                    labels ls))))
                        INFO "Results exported to simulation_results.csv")))
    end.
    { unfold bind at 1. rewrite Hrun.
      erewrite simulator_reports by reflexivity. eexists. reflexivity. }
    destruct Hpipe as [o' ->].
    cbn [fst snd]. unfold w1, logged, emitted. cbn [log out].
    now rewrite <- !app_assoc.
Qed.

Lemma example_stage_table :
  float_table example_stages "Stage" Lifecycle.columns_to_normalize
    [VStr "Production"; VStr "Transport"] example_stage_measures.
Proof.
  split; [eexists; split; reflexivity|]. split; [reflexivity|].
  repeat (constructor; [split; reflexivity|]). constructor.
Qed.

Lemma simulator_script_runs_witness :
  fst (Simulator.main coordinate_descent example_stages empty_world) = inr tt /\
  out (snd (Simulator.main coordinate_descent example_stages empty_world))
  = simulator_report "simulation_results.csv"
      [(VStr "Production", Num 0); (VStr "Transport", Num 0)].
Proof.
  rewrite (proj2 (simulator_script_runs coordinate_descent example_stages
                    empty_world)
             [VStr "Production"; VStr "Transport"] example_stage_measures
             example_stage_table).
  split; reflexivity.
Defined.

(** ** The rows of the compliance join *)

Lemma join_from_length (i : nat) (lkeys rkeys : list value) :
  List.length (Compliance.join_from i lkeys rkeys)
  = list_sum
      (map (fun key =>
              Nat.max 1 (List.length (Compliance.matches_from 0 key rkeys)))
         lkeys).
Proof.
  revert i. induction lkeys as [|k rest IH]; intros i;
    cbn [Compliance.join_from map list_sum].
  - reflexivity.
  - rewrite length_app, IH. f_equal.
    destruct (Compliance.matches_from 0 k rkeys) as [|m ms];
      [reflexivity|].
    simpl. now rewrite length_map.
Qed.

Lemma join_from_at_least (i : nat) (lkeys rkeys : list value) :
  (List.length lkeys <= List.length (Compliance.join_from i lkeys rkeys))%nat.
Proof.
  rewrite join_from_length. unfold list_sum.
  induction lkeys as [|k rest IH]; cbn [map fold_right List.length].
  - lia.
  - pose proof (Nat.le_max_l 1
                  (List.length (Compliance.matches_from 0 k rkeys))).
    lia.
Qed.

(** With at most one regulation per requirement the join has one row
    per data row, in the order of the data. *)
Lemma join_from_unique (i : nat) (lkeys rkeys : list value) :
  (forall key,
     (List.length (Compliance.matches_from 0 key rkeys) <= 1)%nat) ->
  map fst (Compliance.join_from i lkeys rkeys) = seq i (List.length lkeys).
Proof.
  intros Hone. revert i. induction lkeys as [|k rest IH]; intros i;
    cbn [Compliance.join_from List.length seq].
  - reflexivity.
  - rewrite map_app, IH. specialize (Hone k).
    destruct (Compliance.matches_from 0 k rkeys) as [|m [|m' ms]];
      cbn [List.length] in Hone; try lia; reflexivity.
Qed.

(** X13.  [check_compliance] joins to the left: every row of the
    compliance data is kept, a row whose requirement has several
    regulations appears once per regulation, and a row without
    regulation appears once.  When no requirement has more than one
    regulation the table keeps its rows and their order: the Status
    column is the one that was read. *)
Theorem check_compliance_row_count (v : Compliance.validator) (w : world)
    (status threshold : list cell) (lkeys rkeys : series) :
  joinable v status threshold lkeys rkeys ->
  exists v' w',
    Compliance.check_compliance (v, w) = (inr tt, (v', w')) /\
    nrows (Compliance.data v')
    = list_sum
        (map (fun key =>
                Nat.max 1
                  (List.length
                     (Compliance.matches_from 0 key (series_values rkeys))))
           (series_values lkeys)) /\
    (List.length (series_values lkeys) <= nrows (Compliance.data v'))%nat /\
    ((forall key,
        (List.length (Compliance.matches_from 0 key (series_values rkeys))
         <= 1)%nat) ->
     List.length status = List.length (series_values lkeys) ->
     nrows (Compliance.data v') = List.length (series_values lkeys) /\
     df_get "Status" (Compliance.data v') = Some (NumCol status)).
Proof.
  intros Hjoin.
  destruct (check_compliance_run v status threshold lkeys rkeys Hjoin w)
    as [v' [w' [Hrun [Hrows [Hs _]]]]].
  exists v', w'. split; [exact Hrun|]. split; [|split].
  - rewrite Hrows. apply join_from_length.
  - rewrite Hrows. apply join_from_at_least.
  - intros Hone Hlen.
    pose proof (join_from_unique 0 (series_values lkeys) (series_values rkeys)
                  Hone) as Hfst.
    split.
    + rewrite Hrows, <- (length_map fst), Hfst. apply length_seq.
    + rewrite Hs. do 2 f_equal.
      rewrite <- (map_map fst (fun i => nth i status NaN)), Hfst, <- Hlen.
      apply map_nth_seq.
Qed.

Lemma check_compliance_row_count_witness :
  exists v' w',
    Compliance.check_compliance (example_validator, empty_world)
    = (inr tt, (v', w')) /\
    nrows (Compliance.data v') = 3%nat.
Proof.
  destruct (check_compliance_row_count example_validator empty_world
              _ _ _ _ example_joinable) as [v' [w' [Hrun [Hrows _]]]].
  exists v', w'. split; [exact Hrun | exact Hrows].
Defined.

(** ** Checking compliance twice *)

(** What a normal end of [check_compliance] leaves behind. *)
Lemma check_compliance_success (v v' : Compliance.validator) (w w' : world) :
  Compliance.check_compliance (v, w) = (inr tt, (v', w')) ->
  exists merged labels,
    Compliance.merge_left (Compliance.data v) (Compliance.regulations v)
      "Requirement" = inr merged /\
    Compliance.data v' = df_set "Compliance" (StrCol labels) merged /\
    Compliance.regulations v' = Compliance.regulations v /\
    w' = logged w INFO "Checking compliance.".
Proof.
  unfold Compliance.check_compliance, bind, logging, self, set_self, raise.
  cbn [fst snd].
  destruct (Compliance.merge_left _ _ _) as [e|merged]; [discriminate|].
  cbn [fst snd].
  destruct (Compliance.apply_rows _ _) as [e|labels]; [discriminate|].
  intros H. injection H as <- <-. exists merged, labels.
  repeat split; reflexivity.
Qed.

Lemma take_left_values (idx : list (nat * option nat)) (s : series) :
  List.length (series_values (Compliance.take_left idx s)) = List.length idx.
Proof. destruct s; simpl; now rewrite ?length_map. Qed.

Lemma take_left_dtype (idx : list (nat * option nat)) (s r : series) :
  Compliance.same_dtype (Compliance.take_left idx s) r
  = Compliance.same_dtype s r.
Proof. now destruct s, r. Qed.

Lemma merge_left_succeeds (left right : DataFrame) (lk rk : series) :
  df_get "Requirement" left = Some lk ->
  df_get "Requirement" right = Some rk ->
  Compliance.same_dtype lk rk = true ->
  exists merged, Compliance.merge_left left right "Requirement" = inr merged.
Proof.
  intros Hl Hr Hdt. unfold Compliance.merge_left.
  rewrite Hl, Hr, (key_mismatch_same _ _ Hdt).
  eexists. reflexivity.
Qed.

Section Merge.

Variables left right merged : DataFrame.
Variables lk rk : series.

Hypothesis left_key : df_get "Requirement" left = Some lk.
Hypothesis right_key : df_get "Requirement" right = Some rk.
Hypothesis joined :
  Compliance.merge_left left right "Requirement" = inr merged.

Let idx : list (nat * option nat) :=
  Compliance.join_from 0 (series_values lk) (series_values rk).

Let rename_left (k : string) : string :=
  if negb (String.eqb k "Requirement") && has_column k right
  then k ++ "_x" else k.

Let rename_right (k : string) : string :=
  if has_column k left then k ++ "_y" else k.

Lemma merged_columns :
  merged
  = (map (fun cs => (rename_left (fst cs), Compliance.take_left idx (snd cs)))
       left
     ++ map (fun cs =>
               (rename_right (fst cs), Compliance.take_right idx (snd cs)))
          (filter (fun cs => negb (String.eqb (fst cs) "Requirement")) right))%list.
Proof.
  unfold Compliance.merge_left in joined.
  rewrite left_key, right_key in joined.
  destruct (Compliance.key_mismatch lk rk); [discriminate|].
  injection joined as <-. reflexivity.
Qed.

Lemma merged_nrows : nrows merged = List.length idx.
Proof.
  rewrite merged_columns. destruct left as [|[k s] rest]; [discriminate|].
  simpl. destruct s; simpl; apply length_map.
Qed.

(** The key column keeps its name. *)
Lemma merged_key :
  df_get "Requirement" merged = Some (Compliance.take_left idx lk).
Proof.
  rewrite merged_columns, df_get_app.
  rewrite (df_get_rename rename_left (Compliance.take_left idx)).
  - now rewrite left_key.
  - intros k _. unfold rename_left. split.
    + intros ->. reflexivity.
    + intros Hne. destruct (_ && _); [|exact Hne].
      intros H.
      do 11 (destruct k as [|? k];
             [discriminate | simpl in H; injection H as _ H]).
      destruct k; discriminate.
Qed.

(** A column of the left table that the right table does not have
    keeps its name. *)
Lemma merged_left_only (c : string) (s : series) :
  df_get c left = Some s -> has_column c right = false ->
  (forall k, k ++ "_x" <> c) ->
  df_get c merged = Some (Compliance.take_left idx s).
Proof.
  intros Hc Hno Hsuffix. rewrite merged_columns, df_get_app.
  rewrite (df_get_rename rename_left (Compliance.take_left idx)).
  - now rewrite Hc.
  - intros k _. unfold rename_left. split.
    + intros ->. rewrite Hno. now rewrite andb_false_r.
    + intros Hne. destruct (_ && _); [apply Hsuffix | exact Hne].
Qed.

(** A column of the right table that the left table does not have
    keeps its name. *)
Lemma merged_right_only (c : string) (s : series) :
  df_get c right = Some s -> c <> "Requirement" ->
  has_column c left = false ->
  (forall k, k ++ "_x" <> c) -> (forall k, k ++ "_y" <> c) ->
  df_get c merged = Some (Compliance.take_right idx s).
Proof.
  intros Hc Hne Hno Hx Hy. rewrite merged_columns, df_get_app.
  rewrite (df_get_rename rename_left (Compliance.take_left idx)).
  - rewrite (proj2 (df_get_None _ _) Hno). cbn [option_map].
    rewrite (df_get_rename rename_right (Compliance.take_right idx)).
    + rewrite df_get_filter_other by exact Hne. now rewrite Hc.
    + intros k _. unfold rename_right. split.
      * intros ->. now rewrite Hno.
      * intros Hk. destruct (has_column k left); [apply Hy | exact Hk].
  - intros k Hk. unfold rename_left. split.
    + intros ->. exfalso. apply has_column_false in Hno. contradiction.
    + intros Hk'. destruct (_ && _); [apply Hx | exact Hk'].
Qed.

Lemma columns_merged (c : string) :
  In c (columns merged) ->
  (exists k, In k (columns left) /\ c = rename_left k) \/
  (exists k, In k (columns right) /\ k <> "Requirement" /\ c = rename_right k).
Proof.
  rewrite merged_columns. unfold columns.
  rewrite map_app, in_app_iff, !map_map.
  cbn [fst]. intros [H|H]; apply in_map_iff in H; destruct H as [[k s] [<- Hin]].
  - left. exists k. split; [|reflexivity]. apply in_map_iff. now exists (k, s).
  - right. exists k. cbn [fst].
    apply filter_In in Hin. destruct Hin as [Hin Hne]. cbn [fst] in Hne.
    apply negb_true_iff, String.eqb_neq in Hne.
    split; [|split; [exact Hne | reflexivity]].
    apply in_map_iff. now exists (k, s).
Qed.

(** A name both tables have, other than the key, is no column of the
    join: its two columns carry the suffixes. *)
Lemma merged_shared (c : string) :
  c <> "Requirement" ->
  has_column c left = true -> has_column c right = true ->
  (forall k, k ++ "_x" <> c) -> (forall k, k ++ "_y" <> c) ->
  has_column c merged = false /\
  has_column (c ++ "_x") merged = true /\
  has_column (c ++ "_y") merged = true.
Proof.
  intros Hne Hl Hr Hx Hy. split; [|split].
  - apply has_column_false. intros Hin.
    destruct (columns_merged c Hin) as [[k [Hk Hc]]|[k [Hk [Hkne Hc]]]].
    + unfold rename_left in Hc.
      destruct (negb (String.eqb k "Requirement") && has_column k right)
        eqn:E; [exact (Hx k (eq_sym Hc))|].
      subst k. rewrite Hr, andb_true_r in E.
      apply negb_false_iff, String.eqb_eq in E. contradiction.
    + unfold rename_right in Hc.
      destruct (has_column k left) eqn:E; [exact (Hy k (eq_sym Hc))|].
      subst k. congruence.
  - apply has_column_In. rewrite merged_columns. unfold columns.
    rewrite map_app, in_app_iff, !map_map. left. cbn [fst].
    apply has_column_In in Hl. unfold columns in Hl.
    apply in_map_iff in Hl. destruct Hl as [[k s] [Hk Hin]]. cbn [fst] in Hk.
    subst k. apply in_map_iff. exists (c, s). split; [|exact Hin].
    cbn [fst]. unfold rename_left. rewrite Hr.
    apply String.eqb_neq in Hne. now rewrite Hne.
  - apply has_column_In. rewrite merged_columns. unfold columns.
    rewrite map_app, in_app_iff, !map_map. right. cbn [fst].
    apply has_column_In in Hr. unfold columns in Hr.
    apply in_map_iff in Hr. destruct Hr as [[k s] [Hk Hin]]. cbn [fst] in Hk.
    subst k. apply in_map_iff. exists (c, s). split.
    + cbn [fst]. unfold rename_right. now rewrite Hl.
    + apply filter_In. split; [exact Hin|]. cbn [fst].
      apply negb_true_iff, String.eqb_neq. exact Hne.
Qed.

End Merge.

Lemma suffix_y_not_Status (k : string) : k ++ "_y" <> "Status".
Proof.
  intros H.
  do 6 (destruct k as [|? k]; [discriminate | simpl in H; injection H as _ H]).
  destruct k; discriminate.
Qed.

(** On a table that already has a [Threshold] column the join renames
    it, and the first row then has no entry to compare with. *)
Lemma check_compliance_with_threshold (v : Compliance.validator) (w : world)
    (s lk rk : series) :
  has_column "Threshold" (Compliance.data v) = true ->
  has_column "Threshold" (Compliance.regulations v) = true ->
  df_get "Status" (Compliance.data v) = Some s ->
  has_column "Status" (Compliance.regulations v) = false ->
  df_get "Requirement" (Compliance.data v) = Some lk ->
  df_get "Requirement" (Compliance.regulations v) = Some rk ->
  Compliance.same_dtype lk rk = true ->
  series_values lk <> [] ->
  exists merged,
    Compliance.check_compliance (v, w)
    = (inl (KeyError "Threshold"),
       (Compliance.mkValidator merged (Compliance.regulations v),
        logged w INFO "Checking compliance.")) /\
    has_column "Threshold" merged = false /\
    has_column "Threshold_x" merged = true /\
    has_column "Threshold_y" merged = true.
Proof.
  intros Hth_l Hth_r Hst Hst_r Hlk Hrk Hdt Hrows.
  destruct (merge_left_succeeds _ _ _ _ Hlk Hrk Hdt) as [merged Hmerge].
  pose proof (merged_nrows _ _ _ _ _ Hlk Hrk Hmerge) as Hn.
  pose proof (merged_left_only _ _ _ _ _ Hlk Hrk Hmerge "Status" s Hst Hst_r
                suffix_x_not_Status) as Hstatus.
  destruct (merged_shared _ _ _ _ _ Hlk Hrk Hmerge "Threshold")
    as [Hno [Hx Hy]];
    [discriminate | assumption | assumption | apply suffix_x_not_Threshold
    | apply suffix_y_not_Threshold |].
  exists merged. split; [|split; [exact Hno | split; [exact Hx | exact Hy]]].
  unfold Compliance.check_compliance, bind, logging, self, set_self, raise.
  cbn [fst snd]. rewrite Hmerge. cbn [fst snd].
  assert (Hfirst : exists n, nrows merged = S n).
  { rewrite Hn.
    pose proof (join_from_at_least 0 (series_values lk) (series_values rk)).
    destruct (series_values lk); [contradiction|].
    destruct (Compliance.join_from _ _ _); [simpl in *; lia|].
    eexists. reflexivity. }
  destruct Hfirst as [n Hfirst]. unfold iterrows. rewrite Hfirst.
  cbn [seq map Compliance.apply_rows]. unfold Compliance.compliance_of at 1.
  rewrite !row_get_row_at, Hstatus.
  rewrite (proj2 (df_get_None _ _) Hno). reflexivity.
Qed.

(** X14.  [check_compliance] cannot be run twice.  After a first run on
    joinable tables with at least one row the data carries the
    [Threshold] column of the regulations, so a second run joins it in
    again under the names [Threshold_x] and [Threshold_y], finds no
    [Threshold] in the first row and raises KeyError.  By then the
    object already holds the twice-joined table. *)
Theorem check_compliance_twice_raises (v : Compliance.validator) (w : world)
    (status threshold : list cell) (lkeys rkeys : series) :
  joinable v status threshold lkeys rkeys ->
  series_values lkeys <> [] ->
  exists v' w',
    Compliance.check_compliance (v, w) = (inr tt, (v', w')) /\
    exists v'' w'',
      Compliance.check_compliance (v', w')
      = (inl (KeyError "Threshold"), (v'', w'')) /\
      Compliance.regulations v'' = Compliance.regulations v /\
      has_column "Threshold" (Compliance.data v'') = false /\
      has_column "Threshold_x" (Compliance.data v'') = true /\
      has_column "Threshold_y" (Compliance.data v'') = true.
Proof.
  intros Hjoin Hrows.
  destruct (check_compliance_run v status threshold lkeys rkeys Hjoin w)
    as [v' [w' [Hrun [_ [Hs [Ht _]]]]]].
  exists v', w'. split; [exact Hrun|].
  destruct (check_compliance_success _ _ _ _ Hrun)
    as [merged [labels [Hmerge [Hdata [Hregs _]]]]].
  destruct Hjoin as [_ [Hth [_ [Hno_st [Hlk [Hrk Hdt]]]]]].
  pose proof (merged_key _ _ _ _ _ Hlk Hrk Hmerge) as Hkey.
  set (idx := Compliance.join_from 0 (series_values lkeys)
                (series_values rkeys)) in *.
  destruct (check_compliance_with_threshold v' w'
              (NumCol (map (fun p => nth (fst p) status NaN) idx))
              (Compliance.take_left idx lkeys) rkeys)
    as [merged2 [Hrun2 Hcols]].
  - eapply df_get_has_column. exact Ht.
  - rewrite Hregs. eapply df_get_has_column. exact Hth.
  - exact Hs.
  - now rewrite Hregs.
  - rewrite Hdata, df_get_set_other by discriminate. exact Hkey.
  - now rewrite Hregs.
  - now rewrite take_left_dtype.
  - intros E. apply (f_equal (@List.length value)) in E.
    rewrite take_left_values in E. cbn [List.length] in E.
    pose proof (join_from_at_least 0 (series_values lkeys)
                  (series_values rkeys)) as Hle.
    fold idx in Hle. destruct (series_values lkeys); [contradiction|].
    simpl in Hle. lia.
  - eexists _, _. split; [exact Hrun2|]. cbn [Compliance.regulations Compliance.data].
    split; [exact Hregs | exact Hcols].
Qed.

Lemma example_has_rows : series_values (StrCol ["Emissions"; "Recycling"; "Noise"]) <> [].
Proof. discriminate. Qed.

Lemma check_compliance_twice_raises_witness :
  exists v' w',
    Compliance.check_compliance (example_validator, empty_world)
    = (inr tt, (v', w')) /\
    exists v'' w'',
      Compliance.check_compliance (v', w')
      = (inl (KeyError "Threshold"), (v'', w'')) /\
      has_column "Threshold_x" (Compliance.data v'') = true.
Proof.
  destruct (check_compliance_twice_raises example_validator empty_world
              _ _ _ _ example_joinable example_has_rows)
    as [v' [w' [Hrun [v'' [w'' [Hrun2 [_ [_ [Hx _]]]]]]]]].
  exists v', w'. split; [exact Hrun|]. exists v'', w''. split; assumption.
Defined.

(** ** Errors of the compliance check *)

(** A key column that holds a string is text to pandas. *)
Lemma string_like_text (s : series) (t : string) :
  In (VStr t) (series_values s) -> Compliance.string_like s = true.
Proof.
  destruct s as [l|l]; cbn [series_values].
  - intros H. apply in_map_iff in H. destruct H as [x [H _]]. discriminate.
  - intros H. cbn [Compliance.string_like]. apply orb_true_iff. right.
    apply existsb_exists. exists (VStr t). now split.
Qed.

Lemma has_rows_not_empty (a b : series) :
  series_len a <> O -> series_len b <> O ->
  Compliance.one_side_empty a b = false.
Proof.
  intros Ha Hb. unfold Compliance.one_side_empty.
  apply Nat.eqb_neq in Ha, Hb. now rewrite Ha, Hb.
Qed.

(** X15.  What [check_compliance] does when the join itself fails: a
    table without [Requirement] column raises KeyError for that name,
    and key columns of different dtype, one of them holding a string,
    raise ValueError when both have rows.  In both cases the object is
    as it was and only the INFO line is logged.  When exactly one of
    the key columns has no rows pandas does not compare the dtypes, and
    the join goes through. *)
Theorem check_compliance_join_errors (v : Compliance.validator) (w : world) :
  (df_get "Requirement" (Compliance.data v) = None \/
   df_get "Requirement" (Compliance.regulations v) = None ->
   Compliance.check_compliance (v, w)
   = (inl (KeyError "Requirement"), (v, logged w INFO "Checking compliance.")))
  /\
  (forall lk rk t,
     df_get "Requirement" (Compliance.data v) = Some lk ->
     df_get "Requirement" (Compliance.regulations v) = Some rk ->
     Compliance.same_dtype lk rk = false ->
     series_len lk <> O -> series_len rk <> O ->
     In (VStr t) (series_values lk) \/ In (VStr t) (series_values rk) ->
     exists msg,
       Compliance.check_compliance (v, w)
       = (inl (ValueError msg), (v, logged w INFO "Checking compliance.")))
  /\
  (forall lk rk,
     df_get "Requirement" (Compliance.data v) = Some lk ->
     df_get "Requirement" (Compliance.regulations v) = Some rk ->
     Compliance.one_side_empty lk rk = true ->
     exists merged,
       Compliance.merge_left (Compliance.data v) (Compliance.regulations v)
         "Requirement" = inr merged).
Proof.
  split; [|split].
  - intros H.
    unfold Compliance.check_compliance, bind, logging, self, set_self, raise.
    cbn [fst snd]. unfold Compliance.merge_left.
    destruct H as [H|H]; rewrite H; [reflexivity|].
    now destruct (df_get "Requirement" (Compliance.data v)).
  - intros lk rk t Hlk Hrk Hdt Hl Hr Htext.
    assert (Hbad : Compliance.key_mismatch lk rk = true).
    { unfold Compliance.key_mismatch.
      rewrite (has_rows_not_empty _ _ Hl Hr), Hdt. cbn [negb andb].
      apply orb_true_iff.
      destruct Htext as [H|H]; [left|right]; eapply string_like_text; exact H. }
    unfold Compliance.check_compliance, bind, logging, self, set_self, raise.
    cbn [fst snd]. unfold Compliance.merge_left. rewrite Hlk, Hrk, Hbad.
    eexists. reflexivity.
  - intros lk rk Hlk Hrk Hone.
    unfold Compliance.merge_left, Compliance.key_mismatch.
    rewrite Hlk, Hrk, Hone. eexists. reflexivity.
Qed.

Lemma check_compliance_join_errors_witness :
  exists msg,
    Compliance.check_compliance (mismatched_validator, empty_world)
    = (inl (ValueError msg),
       (mismatched_validator, logged empty_world INFO "Checking compliance.")).
Proof.
  apply (proj1 (proj2 (check_compliance_join_errors mismatched_validator
                         empty_world))
           (NumCol [Num 1]) (StrCol ["Emissions"]) "Emissions");
    try reflexivity; try discriminate.
  right. left. reflexivity.
Defined.

Lemma join_from_head (i : nat) (k : value) (rest rkeys : list value) :
  exists oj tail,
    Compliance.join_from i (k :: rest) rkeys = (i, oj) :: tail.
Proof.
  cbn [Compliance.join_from].
  destruct (Compliance.matches_from 0 k rkeys) as [|m ms]; simpl;
    eexists _, _; reflexivity.
Qed.

(** X16.  A [Status] column of text against float thresholds makes
    [check_compliance] raise a TypeError at the first row: a string
    cannot be compared with a float.  The join has been stored by then,
    so the object is left holding the joined table as the join returned
    it; the [Compliance] column is not written. *)
Theorem check_compliance_status_text (v : Compliance.validator) (w : world)
    (first : string) (others : list string) (threshold : list cell)
    (lk rk : series) :
  df_get "Status" (Compliance.data v) = Some (StrCol (first :: others)) ->
  has_column "Status" (Compliance.regulations v) = false ->
  df_get "Threshold" (Compliance.regulations v) = Some (NumCol threshold) ->
  has_column "Threshold" (Compliance.data v) = false ->
  df_get "Requirement" (Compliance.data v) = Some lk ->
  df_get "Requirement" (Compliance.regulations v) = Some rk ->
  Compliance.same_dtype lk rk = true ->
  series_values lk <> [] ->
  exists msg merged,
    Compliance.check_compliance (v, w)
    = (inl (TypeError msg),
       (Compliance.mkValidator merged (Compliance.regulations v),
        logged w INFO "Checking compliance.")) /\
    Compliance.merge_left (Compliance.data v) (Compliance.regulations v)
      "Requirement" = inr merged.
Proof.
  intros Hst Hst_r Hth Hth_l Hlk Hrk Hdt Hrows.
  destruct (merge_left_succeeds _ _ _ _ Hlk Hrk Hdt) as [merged Hmerge].
  pose proof (merged_nrows _ _ _ _ _ Hlk Hrk Hmerge) as Hn.
  pose proof (merged_left_only _ _ _ _ _ Hlk Hrk Hmerge "Status" _ Hst Hst_r
                suffix_x_not_Status) as Hstatus.
  assert (Hne : "Threshold" <> "Requirement") by discriminate.
  pose proof (merged_right_only _ _ _ _ _ Hlk Hrk Hmerge "Threshold" _ Hth
                Hne Hth_l suffix_x_not_Threshold suffix_y_not_Threshold)
    as Hthreshold.
  destruct (series_values lk) as [|k rest] eqn:Hkeys; [contradiction|].
  destruct (join_from_head 0 k rest (series_values rk)) as [oj [tail Hidx]].
  rewrite Hidx in Hn, Hstatus, Hthreshold.
  eexists _, merged. split; [|exact Hmerge].
  unfold Compliance.check_compliance, bind, logging, self, set_self, raise.
  cbn [fst snd]. rewrite Hmerge. cbn [fst snd].
  unfold iterrows. rewrite Hn.
  cbn [List.length seq map Compliance.apply_rows].
  unfold Compliance.compliance_of at 1.
  rewrite !row_get_row_at, Hstatus, Hthreshold. reflexivity.
Qed.

Lemma check_compliance_status_text_witness :
  exists msg merged,
    Compliance.check_compliance (worded_validator, empty_world)
    = (inl (TypeError msg),
       (Compliance.mkValidator merged (Compliance.regulations worded_validator),
        logged empty_world INFO "Checking compliance.")) /\
    has_column "Compliance" merged = false.
Proof.
  destruct (check_compliance_status_text worded_validator empty_world
              "Pass" ["Fail"] [Num 50; Num 50]
              (StrCol ["Emissions"; "Recycling"])
              (StrCol ["Emissions"; "Recycling"])
              eq_refl eq_refl eq_refl eq_refl eq_refl eq_refl eq_refl)
    as [msg [merged [Hrun Hmerge]]].
  - discriminate.
  - exists msg, merged. split; [exact Hrun|].
    vm_compute in Hmerge. injection Hmerge as <-. reflexivity.
Defined.

(** ** KPI performance, row by row *)

(** The run of [calculate_performance] on float columns. *)
Lemma calculate_performance_floats (t : KPI.tracker) (w : world)
    (actual target : list cell) :
  df_get "Actual" (KPI.data t) = Some (NumCol actual) ->
  df_get "Target" (KPI.data t) = Some (NumCol target) ->
  let performance :=
    map (fun p => mul (div (fst p) (snd p)) (Num 100)) (combine actual target) in
  KPI.calculate_performance (t, w)
  = (inr tt,
     (KPI.mkTracker
        (df_set "Status" (StrCol (map KPI.status_of performance))
           (df_set "Performance" (NumCol performance) (KPI.data t))),
      logged w INFO "Calculating performance metrics.")).
Proof.
  intros Ha Ht performance.
  assert (Hp : map (fun q => mul q (Num 100))
                 (map (fun p => div (fst p) (snd p)) (combine actual target))
               = performance) by apply map_map.
  unfold KPI.calculate_performance, bind, logging, self, set_self.
  cbn [fst snd]. rewrite Ha, Ht. cbn [KPI.series_div]. rewrite Hp.
  reflexivity.
Qed.

Lemma geb_Num (a b : Q) : geb (Num a) (Num b) = true <-> b <= a.
Proof. exact (leb_Num b a). Qed.

Lemma status_of_on_track (x : cell) :
  KPI.status_of x = "On Track" <-> geb x (Num 100) = true.
Proof.
  unfold KPI.status_of. destruct (geb x (Num 100)); split; congruence.
Qed.

Lemma performance_positive_target (a g : Q) :
  0 < g ->
  exists x, mul (div (Num a) (Num g)) (Num 100) = Num x /\
            (100 <= x <-> g <= a).
Proof.
  intros Hg. cbn [div].
  assert (Hz : Qeq_bool g 0 = false).
  { apply not_true_iff_false. rewrite Qeq_bool_iff. lra. }
  rewrite Hz. cbn [mul]. eexists. split; [reflexivity|].
  rewrite !Qred_correct. set (r := a / g).
  assert (Hr : r * g == a) by (unfold r; field; lra).
  split; intros H.
  - assert (1 <= r) by lra. rewrite <- Hr. nra.
  - assert (1 <= r); [|lra].
    unfold r. apply Qle_shift_div_l; lra.
Qed.

Lemma performance_negative_target (a g : Q) :
  g < 0 ->
  exists x, mul (div (Num a) (Num g)) (Num 100) = Num x /\
            (100 <= x <-> a <= g).
Proof.
  intros Hg. cbn [div].
  assert (Hz : Qeq_bool g 0 = false).
  { apply not_true_iff_false. rewrite Qeq_bool_iff. lra. }
  rewrite Hz. cbn [mul]. eexists. split; [reflexivity|].
  rewrite !Qred_correct. set (r := a / g).
  assert (Hr : r * g == a) by (unfold r; field; lra).
  split; intros H.
  - assert (1 <= r) by lra. rewrite <- Hr. nra.
  - assert (1 <= r); [|lra].
    destruct (Qlt_le_dec r 1) as [Hlt|Hge]; [|exact Hge].
    exfalso. assert (g < r * g) by nra. lra.
Qed.

Lemma nth_error_performance (actual target : list cell) (i : nat) (a g : cell) :
  nth_error actual i = Some a -> nth_error target i = Some g ->
  nth_error
    (map (fun p => mul (div (fst p) (snd p)) (Num 100)) (combine actual target))
    i
  = Some (mul (div a g) (Num 100)).
Proof.
  intros Ha Hg. now rewrite nth_error_map, (nth_error_combine _ _ _ _ _ Ha Hg).
Qed.

(** X17.  Which rows [calculate_performance] calls ['On Track'], read
    off the two numbers of the row when both are finite and of
    magnitude at most 2^53, so that an [int64] entry is the same number
    as a float.  Against a positive target a row is on track exactly
    when Actual reaches Target; against a negative target the division
    turns the comparison round, and the row is on track exactly when
    Actual is at most Target.  A target of zero is left out: what the
    division returns then depends on the sign of the zero. *)
Theorem calculate_performance_status_by_target (t : KPI.tracker) (w : world)
    (actual target : list cell) :
  df_get "Actual" (KPI.data t) = Some (NumCol actual) ->
  df_get "Target" (KPI.data t) = Some (NumCol target) ->
  exists t' status,
    KPI.calculate_performance (t, w)
    = (inr tt, (t', logged w INFO "Calculating performance metrics.")) /\
    df_get "Status" (KPI.data t') = Some (StrCol status) /\
    forall i a g,
      nth_error actual i = Some (Num a) ->
      nth_error target i = Some (Num g) ->
      bounded (Num a) -> bounded (Num g) ->
      exists s,
        nth_error status i = Some s /\
        (0 < g -> (s = "On Track" <-> g <= a)) /\
        (g < 0 -> (s = "On Track" <-> a <= g)).
Proof.
  intros Ha Ht.
  pose proof (calculate_performance_floats t w actual target Ha Ht) as Hrun.
  cbv zeta in Hrun.
  eexists _, _. split; [exact Hrun|]. cbn [KPI.data].
  split; [apply df_get_set_same|].
  intros i a g Hia Hig _ _.
  exists (KPI.status_of (mul (div (Num a) (Num g)) (Num 100))). split.
  { now rewrite nth_error_map, (nth_error_performance _ _ _ _ _ Hia Hig). }
  rewrite status_of_on_track. split.
  - intros Hg. destruct (performance_positive_target a g Hg) as [x [-> Hx]].
    now rewrite geb_Num.
  - intros Hg. destruct (performance_negative_target a g Hg) as [x [-> Hx]].
    now rewrite geb_Num.
Qed.

Lemma calculate_performance_status_by_target_witness :
  exists t' status,
    KPI.calculate_performance (KPI.mkTracker example_kpis, empty_world)
    = (inr tt, (t', logged empty_world INFO "Calculating performance metrics.")) /\
    df_get "Status" (KPI.data t') = Some (StrCol status) /\
    nth_error status 0 = Some "On Track" /\
    nth_error status 1 <> Some "On Track".
Proof.
  destruct (calculate_performance_status_by_target
              (KPI.mkTracker example_kpis) empty_world
              [Num 120; Num 40; Num 3] [Num 100; Num 50; Num 0]
              eq_refl eq_refl) as [t' [status [Hrun [Hst Hrows]]]].
  exists t', status. split; [exact Hrun|]. split; [exact Hst|]. split.
  - destruct (Hrows 0%nat 120 100 eq_refl eq_refl) as [s [Hs [Hpos _]]];
      try (vm_compute; split; discriminate).
    rewrite Hs. f_equal. apply Hpos; lra.
  - destruct (Hrows 1%nat 40 50 eq_refl eq_refl) as [s [Hs [Hpos _]]];
      try (vm_compute; split; discriminate).
    rewrite Hs. intros H. injection H as H. apply Hpos in H; lra.
Defined.

(** ** Errors and repetition of the KPI calculation *)

(** X18.  What [calculate_performance] does on a table it cannot
    divide.  The column [Actual] is read first: without it the method
    raises KeyError for [Actual], whether or not [Target] is there;
    with it and without [Target] it raises KeyError for [Target]; an
    [Actual] column of text over float targets raises a TypeError.  In
    each case the table is as it was and only the INFO line is
    logged. *)
Theorem calculate_performance_errors (t : KPI.tracker) (w : world) :
  (df_get "Actual" (KPI.data t) = None ->
   KPI.calculate_performance (t, w)
   = (inl (KeyError "Actual"),
      (t, logged w INFO "Calculating performance metrics.")))
  /\
  (forall actual,
     df_get "Actual" (KPI.data t) = Some actual ->
     df_get "Target" (KPI.data t) = None ->
     KPI.calculate_performance (t, w)
     = (inl (KeyError "Target"),
        (t, logged w INFO "Calculating performance metrics.")))
  /\
  (forall first others target,
     df_get "Actual" (KPI.data t) = Some (StrCol (first :: others)) ->
     df_get "Target" (KPI.data t) = Some (NumCol target) ->
     exists msg,
       KPI.calculate_performance (t, w)
       = (inl (TypeError msg),
          (t, logged w INFO "Calculating performance metrics."))).
Proof.
  split; [|split].
  - intros Ha.
    unfold KPI.calculate_performance, bind, logging, self, set_self, raise.
    cbn [fst snd]. now rewrite Ha.
  - intros actual Ha Ht.
    unfold KPI.calculate_performance, bind, logging, self, set_self, raise.
    cbn [fst snd]. now rewrite Ha, Ht.
  - intros first others target Ha Ht.
    unfold KPI.calculate_performance, bind, logging, self, set_self, raise.
    cbn [fst snd]. rewrite Ha, Ht. eexists. reflexivity.
Qed.

Lemma calculate_performance_errors_witness :
  exists msg,
    KPI.calculate_performance (KPI.mkTracker worded_kpis, empty_world)
    = (inl (TypeError msg),
       (KPI.mkTracker worded_kpis,
        logged empty_world INFO "Calculating performance metrics.")).
Proof.
  exact (proj2 (proj2 (calculate_performance_errors
                         (KPI.mkTracker worded_kpis) empty_world))
           "high" ["low"] [Num 100; Num 50] eq_refl eq_refl).
Defined.

(** X19.  [calculate_performance] only adds: every column other than
    [Performance] and [Status] reads as before, and calling it a second
    time changes nothing, since the two columns are computed from
    [Actual] and [Target] alone. *)
Theorem calculate_performance_idempotent (t : KPI.tracker) (w : world)
    (actual target : list cell) :
  df_get "Actual" (KPI.data t) = Some (NumCol actual) ->
  df_get "Target" (KPI.data t) = Some (NumCol target) ->
  exists t',
    KPI.calculate_performance (t, w)
    = (inr tt, (t', logged w INFO "Calculating performance metrics.")) /\
    (forall c, c <> "Performance" -> c <> "Status" ->
       df_get c (KPI.data t') = df_get c (KPI.data t)) /\
    forall w',
      KPI.calculate_performance (t', w')
      = (inr tt, (t', logged w' INFO "Calculating performance metrics.")).
Proof.
  intros Ha Ht.
  pose proof (calculate_performance_floats t w actual target Ha Ht) as Hrun.
  cbv zeta in Hrun.
  set (performance := map _ (combine actual target)) in Hrun.
  set (t' := KPI.mkTracker _) in Hrun.
  assert (Hkeep : forall c, c <> "Performance" -> c <> "Status" ->
            df_get c (KPI.data t') = df_get c (KPI.data t)).
  { intros c Hp Hs. unfold t'. cbn [KPI.data].
    rewrite !df_get_set_other by congruence. reflexivity. }
  exists t'. split; [exact Hrun|]. split; [exact Hkeep|]. intros w'.
  assert (Ha' : df_get "Actual" (KPI.data t') = Some (NumCol actual)).
  { rewrite Hkeep by discriminate. exact Ha. }
  assert (Ht' : df_get "Target" (KPI.data t') = Some (NumCol target)).
  { rewrite Hkeep by discriminate. exact Ht. }
  rewrite (calculate_performance_floats t' w' actual target Ha' Ht').
  cbv zeta. fold performance. unfold t'. cbn [KPI.data].
  assert (Hperf : df_get "Performance"
                    (df_set "Status" (StrCol (map KPI.status_of performance))
                       (df_set "Performance" (NumCol performance) (KPI.data t)))
                  = Some (NumCol performance)).
  { rewrite df_get_set_other by discriminate. apply df_get_set_same. }
  rewrite (df_set_same _ _ _ Hperf).
  rewrite df_set_same by apply df_get_set_same. reflexivity.
Qed.

Lemma calculate_performance_idempotent_witness :
  exists t',
    KPI.calculate_performance (KPI.mkTracker example_kpis, empty_world)
    = (inr tt, (t', logged empty_world INFO "Calculating performance metrics.")) /\
    KPI.calculate_performance (t', empty_world)
    = (inr tt, (t', logged empty_world INFO "Calculating performance metrics.")).
Proof.
  destruct (calculate_performance_idempotent
              (KPI.mkTracker example_kpis) empty_world
              [Num 120; Num 40; Num 3] [Num 100; Num 50; Num 0]
              eq_refl eq_refl) as [t' [Hrun [_ Hagain]]].
  exists t'. split; [exact Hrun | apply Hagain].
Defined.

(** ** The circularity chart and score *)

(** X20.  What [visualize_circularity] does on a frame it cannot draw.
    Without the column [circularity_score], or with it and without
    [material], it raises a KeyError under its own message; a score
    column that mixes text and numbers cannot be sorted, and the
    TypeError of the sort passes through as it is.  In each case
    nothing is drawn. *)
Theorem visualize_circularity_errors (df : DataFrame) (w : world) :
  (df_get "circularity_score" df = None ->
   Circularity.visualize_circularity df (tt, w)
   = (inl (KeyError "Missing column for visualization: 'circularity_score'"),
      (tt, w)))
  /\
  (forall scores,
     df_get "circularity_score" df = Some (NumCol scores) ->
     df_get "material" df = None ->
     Circularity.visualize_circularity df (tt, w)
     = (inl (KeyError "Missing column for visualization: 'material'"),
        (tt, w)))
  /\
  (forall keys,
     df_get "circularity_score" df = Some (ObjCol keys) ->
     Circularity.unorderable keys = true ->
     exists msg,
       Circularity.visualize_circularity df (tt, w)
       = (inl (TypeError msg), (tt, w))).
Proof.
  split; [|split].
  - intros Hscore.
    unfold Circularity.visualize_circularity, Circularity.sort_values_descending.
    now rewrite Hscore.
  - intros scores Hscore Hmat.
    unfold Circularity.visualize_circularity, Circularity.sort_values_descending.
    rewrite Hscore. cbn [series_values].
    unfold Circularity.unorderable. rewrite existsb_is_str_floats. cbn [andb].
    cbv zeta. rewrite !df_get_map, Hscore, Hmat. reflexivity.
  - intros keys Hscore Hmixed.
    unfold Circularity.visualize_circularity, Circularity.sort_values_descending.
    rewrite Hscore. cbn [series_values]. rewrite Hmixed.
    eexists. reflexivity.
Qed.

Lemma visualize_circularity_errors_witness :
  Circularity.visualize_circularity example_materials (tt, empty_world)
  = (inl (KeyError "Missing column for visualization: 'circularity_score'"),
     (tt, empty_world)).
Proof.
  exact (proj1 (visualize_circularity_errors example_materials empty_world)
           eq_refl).
Defined.

Lemma dot_rows_map (f : nat -> list value) (g : nat -> cell)
    (weights : list cell) (idx : list nat) :
  (forall i, In i idx -> Analyzer.dot_row (f i) weights = inr (g i)) ->
  Analyzer.dot_rows (map f idx) weights = inr (map g idx).
Proof.
  induction idx as [|i rest IH]; intros H; cbn [map Analyzer.dot_rows].
  - reflexivity.
  - rewrite (H i (or_introl eq_refl)), IH; [reflexivity|].
    intros j Hj. apply H. now right.
Qed.

(** The weighted sum of the four factors of a row. *)
Lemma weighted_sum_number (x1 x2 x3 x4 : Q) :
  exists s,
    add (mul (Num x1) (Num (4 # 10)))
      (add (mul (Num x2) (Num (3 # 10)))
         (add (mul (Num x3) (Num (2 # 10)))
            (add (mul (Num x4) (Num (- (1 # 10)))) (Num 0))))
    = Num s /\
    s == (4 # 10) * x1 + (3 # 10) * x2 + (2 # 10) * x3 - (1 # 10) * x4.
Proof.
  eexists. split; [reflexivity|]. rewrite !Qred_correct. ring.
Qed.

Lemma weighted_sum_nan (a b c d : cell) :
  a = NaN \/ b = NaN \/ c = NaN \/ d = NaN ->
  add (mul a (Num (4 # 10)))
    (add (mul b (Num (3 # 10)))
       (add (mul c (Num (2 # 10)))
          (add (mul d (Num (- (1 # 10)))) (Num 0))))
  = NaN.
Proof.
  intros [ -> | [ -> | [ -> | -> ] ] ]; cbn [mul add].
  - reflexivity.
  - now destruct (mul a _).
  - destruct (mul a _), (mul b _); reflexivity.
  - destruct (mul a _), (mul b _), (mul c _); reflexivity.
Qed.

Section CircularityScore.

Variable not_in_index : list string -> string.
Variable df : DataFrame.
Variables r u e c : list cell.

Hypothesis recyclability : df_get "recyclability" df = Some (NumCol r).
Hypothesis reuse_potential : df_get "reuse_potential" df = Some (NumCol u).
Hypothesis end_of_life_recovery :
  df_get "end_of_life_recovery" df = Some (NumCol e).
Hypothesis carbon_footprint : df_get "carbon_footprint" df = Some (NumCol c).

Let score (i : nat) : cell :=
  add (mul (nth i r NaN) (Num (4 # 10)))
    (add (mul (nth i u NaN) (Num (3 # 10)))
       (add (mul (nth i e NaN) (Num (2 # 10)))
          (add (mul (nth i c NaN) (Num (- (1 # 10)))) (Num 0)))).

(** The run of [calculate_circularity_score] on float factors. *)
Lemma calculate_circularity_score_floats :
  Analyzer.calculate_circularity_score not_in_index df
  = inr (df_set "circularity_score" (NumCol (map score (seq 0 (nrows df)))) df).
Proof.
  unfold Analyzer.calculate_circularity_score.
  cbn [map fst snd Analyzer.CIRCULARITY_FACTORS Analyzer.getitem].
  rewrite recyclability, reuse_potential, end_of_life_recovery, carbon_footprint.
  cbv zeta. cbn [forallb Analyzer.is_float andb].
  rewrite (dot_rows_map _ score); [reflexivity|].
  intros i _. cbn [map series_values]. rewrite !(map_nth VNum).
  reflexivity.
Qed.

End CircularityScore.

Lemma nth_error_map_seq {A : Type} (f : nat -> A) (n i : nat) :
  (i < n)%nat -> nth_error (map f (seq 0 n)) i = Some (f i).
Proof.
  intros Hi. rewrite nth_error_map.
  rewrite (nth_error_nth' (seq 0 n) 0%nat) by now rewrite length_seq.
  now rewrite seq_nth.
Qed.

(** X21.  On float factor columns [calculate_circularity_score] ends
    normally and writes a float column [circularity_score] with one
    entry per row, leaving every other column as it was.  A row whose
    four factors are numbers scores
    [0.4 recyclability + 0.3 reuse_potential + 0.2 end_of_life_recovery
     - 0.1 carbon_footprint]; a row with a missing factor scores NaN,
    for the product does not skip missing values. *)
Theorem circularity_score_is_weighted_sum
    (not_in_index : list string -> string) (df : DataFrame)
    (r u e c : list cell) :
  df_get "recyclability" df = Some (NumCol r) ->
  df_get "reuse_potential" df = Some (NumCol u) ->
  df_get "end_of_life_recovery" df = Some (NumCol e) ->
  df_get "carbon_footprint" df = Some (NumCol c) ->
  exists scores,
    Analyzer.calculate_circularity_score not_in_index df
    = inr (df_set "circularity_score" (NumCol scores) df) /\
    List.length scores = nrows df /\
    (forall i x1 x2 x3 x4,
       (i < nrows df)%nat ->
       nth i r NaN = Num x1 -> nth i u NaN = Num x2 ->
       nth i e NaN = Num x3 -> nth i c NaN = Num x4 ->
       exists s,
         nth_error scores i = Some (Num s) /\
         s == (4 # 10) * x1 + (3 # 10) * x2 + (2 # 10) * x3 - (1 # 10) * x4) /\
    (forall i,
       (i < nrows df)%nat ->
       nth i r NaN = NaN \/ nth i u NaN = NaN \/
       nth i e NaN = NaN \/ nth i c NaN = NaN ->
       nth_error scores i = Some NaN).
Proof.
  intros Hr Hu He Hc.
  eexists. split;
    [exact (calculate_circularity_score_floats not_in_index df r u e c
              Hr Hu He Hc)|].
  split; [now rewrite length_map, length_seq|]. split.
  - intros i x1 x2 x3 x4 Hi H1 H2 H3 H4.
    rewrite (nth_error_map_seq _ _ _ Hi), H1, H2, H3, H4.
    destruct (weighted_sum_number x1 x2 x3 x4) as [s [Hs Hval]].
    exists s. split; [now rewrite Hs | exact Hval].
  - intros i Hi Hnan. rewrite (nth_error_map_seq _ _ _ Hi).
    now rewrite weighted_sum_nan.
Qed.

Lemma circularity_score_is_weighted_sum_witness :
  exists scores s,
    Analyzer.calculate_circularity_score listed example_factors
    = inr (df_set "circularity_score" (NumCol scores) example_factors) /\
    nth_error scores 0 = Some (Num s) /\
    s == 2 # 5.
Proof.
  destruct (circularity_score_is_weighted_sum listed example_factors
              [Num 1; Num (1 # 2)] [Num 0; Num 1] [Num 1; Num 1]
              [Num 2; Num 1] eq_refl eq_refl eq_refl eq_refl)
    as [scores [Hrun [_ [Hrows _]]]].
  destruct (Hrows 0%nat 1 0 1 2) as [s [Hs Hval]];
    [simpl; lia | reflexivity | reflexivity | reflexivity | reflexivity |].
  exists scores, s. split; [exact Hrun|]. split; [exact Hs|].
  rewrite Hval. reflexivity.
Defined.

(** X22.  The score and the chart fit together: on a frame with a
    [material] column and float factors,
    [calculate_circularity_score] followed by [visualize_circularity]
    draws one bar per row, each material with its own score: first the
    bars of the rows that have a score, by decreasing score, then the
    bars of the rows whose score is missing. *)
Theorem scored_frame_is_drawn (not_in_index : list string -> string)
    (df : DataFrame) (w : world) (material : series) (r u e c : list cell) :
  df_get "material" df = Some material ->
  series_len material = nrows df ->
  df_get "recyclability" df = Some (NumCol r) ->
  df_get "reuse_potential" df = Some (NumCol u) ->
  df_get "end_of_life_recovery" df = Some (NumCol e) ->
  df_get "carbon_footprint" df = Some (NumCol c) ->
  exists scored scores bars,
    Analyzer.calculate_circularity_score not_in_index df = inr scored /\
    df_get "circularity_score" scored = Some (NumCol scores) /\
    Circularity.visualize_circularity scored (tt, w)
    = (inr tt,
       (tt, emitted w [BarChart "Circularity Scores by Material" bars])) /\
    Permutation (combine (series_values material) (map VNum scores)) bars /\
    descending_then_missing bars.
Proof.
  intros Hmat Hlen Hr Hu He Hc.
  pose proof (calculate_circularity_score_floats not_in_index df r u e c
                Hr Hu He Hc) as Hrun.
  match type of Hrun with
  | _ = inr (df_set _ (NumCol ?l) _) => set (scores := l) in *
  end.
  destruct (visualize_circularity_bars
              (df_set "circularity_score" (NumCol scores) df) material scores w)
    as [bars [Hdraw [Hperm [_ Hdesc]]]].
  - apply df_get_set_same.
  - rewrite df_get_set_other by discriminate. exact Hmat.
  - rewrite Hlen. unfold scores. now rewrite length_map, length_seq.
  - eexists _, scores, bars. split; [exact Hrun|].
    split; [apply df_get_set_same|]. split; [exact Hdraw|].
    split; assumption.
Qed.

Lemma scored_frame_is_drawn_witness :
  exists scored scores bars,
    Analyzer.calculate_circularity_score listed example_factors = inr scored /\
    df_get "circularity_score" scored = Some (NumCol scores) /\
    Circularity.visualize_circularity scored (tt, empty_world)
    = (inr tt,
       (tt, emitted empty_world
              [BarChart "Circularity Scores by Material" bars])) /\
    descending_then_missing bars.
Proof.
  destruct (scored_frame_is_drawn listed example_factors empty_world
              (StrCol ["X"; "Y"])
              [Num 1; Num (1 # 2)] [Num 0; Num 1] [Num 1; Num 1]
              [Num 2; Num 1] eq_refl eq_refl eq_refl eq_refl eq_refl eq_refl)
    as [scored [scores [bars [Hrun [Hget [Hdraw [_ Hdesc]]]]]]].
  exists scored, scores, bars. repeat split; assumption.
Defined.

(** ** Errors of the circularity score *)

Lemma getitem_missing (labels : list string) (df : DataFrame) (c : string) :
  In c labels -> df_get c df = None -> Analyzer.getitem labels df = None.
Proof.
  induction labels as [|k rest IH]; intros Hin Hc; [destruct Hin|].
  cbn [Analyzer.getitem]. destruct Hin as [->|Hin].
  - now rewrite Hc.
  - rewrite (IH Hin Hc). now destruct (df_get k df).
Qed.

Lemma getitem_columns (labels : list string) (df : DataFrame)
    (selected : list series) :
  Analyzer.getitem labels df = Some selected ->
  Forall2 (fun c s => df_get c df = Some s) labels selected.
Proof.
  revert selected. induction labels as [|k rest IH]; intros selected H;
    cbn [Analyzer.getitem] in H.
  - injection H as <-. constructor.
  - destruct (df_get k df) as [s|] eqn:Hk; [|discriminate].
    destruct (Analyzer.getitem rest df) as [ss|]; [|discriminate].
    injection H as <-. constructor; [exact Hk | now apply IH].
Qed.

(** A string anywhere in a row stops the product. *)
Lemma dot_row_text (row : list value) (weights : list cell) :
  (List.length row <= List.length weights)%nat ->
  (exists s, In (VStr s) row) ->
  Analyzer.dot_row row weights
  = inl (TypeError "can't multiply sequence by non-int of type 'float'").
Proof.
  revert weights. induction row as [|v vs IH]; intros weights Hlen [s Hs];
    [destruct Hs|].
  destruct weights as [|weight rest]; [simpl in Hlen; lia|].
  cbn [Analyzer.dot_row]. destruct v as [x|t]; cbn [Analyzer.times];
    [|reflexivity].
  destruct Hs as [Hs|Hs]; [discriminate|].
  rewrite IH; [reflexivity | simpl in Hlen; lia | now exists s].
Qed.

(** X23.  What [calculate_circularity_score] does on a frame it cannot
    score.  A missing factor column raises a KeyError under the
    function's own message; a factor column of text raises the
    TypeError of the product at the first row, which the function does
    not catch.  No frame is returned in either case. *)
Theorem circularity_score_errors (not_in_index : list string -> string)
    (df : DataFrame) :
  (forall c,
     In c (map fst Analyzer.CIRCULARITY_FACTORS) ->
     df_get c df = None ->
     exists names,
       Analyzer.calculate_circularity_score not_in_index df
       = inl (KeyError ("Missing column in input data: " ++ not_in_index names))
       /\ In c names)
  /\
  (forall c first others,
     In c (map fst Analyzer.CIRCULARITY_FACTORS) ->
     (forall k, In k (map fst Analyzer.CIRCULARITY_FACTORS) ->
                has_column k df = true) ->
     df_get c df = Some (StrCol (first :: others)) ->
     (0 < nrows df)%nat ->
     exists msg,
       Analyzer.calculate_circularity_score not_in_index df
       = inl (TypeError msg)).
Proof.
  split.
  - intros c Hc Hnone. unfold Analyzer.calculate_circularity_score.
    rewrite (getitem_missing _ _ c Hc Hnone). eexists. split; [reflexivity|].
    apply filter_In. split; [exact Hc|].
    apply negb_true_iff. now apply df_get_None.
  - intros c first others Hc Hall Hget Hrows.
    unfold Analyzer.calculate_circularity_score.
    destruct (Analyzer.getitem (map fst Analyzer.CIRCULARITY_FACTORS) df)
      as [selected|] eqn:Hsel.
    + pose proof (getitem_columns _ _ _ Hsel) as Hcols.
      destruct (Forall2_In_l _ _ _ c Hcols Hc) as [s [Hs Hcs]].
      rewrite Hget in Hcs. injection Hcs as <-.
      cbv zeta. destruct (nrows df) as [|n]; [lia|].
      cbn [seq map Analyzer.dot_rows].
      rewrite dot_row_text; [eexists; reflexivity | |].
      * rewrite length_map, <- (Forall2_length Hcols). reflexivity.
      * exists first. apply in_map_iff.
        exists (StrCol (first :: others)). split; [reflexivity | exact Hs].
    + exfalso.
      assert (Hfind : forall labels,
                (forall k, In k labels -> has_column k df = true) ->
                Analyzer.getitem labels df <> None).
      { induction labels as [|k rest IH]; intros Hhave;
          cbn [Analyzer.getitem]; [discriminate|].
        destruct (df_get k df) eqn:Hk.
        - destruct (Analyzer.getitem rest df) eqn:Hrest; [discriminate|].
          exfalso. apply IH; [|reflexivity].
          intros k' Hk'. apply Hhave. now right.
        - apply df_get_None in Hk.
          rewrite (Hhave k (or_introl eq_refl)) in Hk. discriminate. }
      exact (Hfind _ Hall Hsel).
Qed.

Lemma circularity_score_errors_witness :
  exists names,
    Analyzer.calculate_circularity_score listed example_materials
    = inl (KeyError ("Missing column in input data: " ++ listed names)) /\
    In "recyclability" names.
Proof.
  apply (proj1 (circularity_score_errors listed example_materials)
           "recyclability").
  - simpl. tauto.
  - reflexivity.
Defined.

(** ** A table without rows *)

Lemma no_rows_get (df : DataFrame) (c : string) (s : series) :
  no_rows df -> df_get c df = Some s -> series_len s = O.
Proof.
  intros Hall. induction Hall as [|[k s'] rest Hk _ IH]; simpl; [discriminate|].
  destruct (String.eqb c k); [|exact IH].
  intros H. injection H as <-. exact Hk.
Qed.

Lemma no_rows_set (df : DataFrame) (c : string) (s : series) :
  no_rows df -> series_len s = O -> no_rows (df_set c s df).
Proof.
  intros Hall Hs. induction Hall as [|[k s'] rest Hk Hrest IH]; simpl.
  - repeat constructor. exact Hs.
  - destruct (String.eqb c k); constructor; assumption.
Qed.

Lemma no_rows_nrows (df : DataFrame) : no_rows df -> nrows df = O.
Proof. intros Hall. destruct Hall as [|[k s] rest Hk _]; [reflexivity | exact Hk]. Qed.

Lemma normalize_loop_no_rows (cols : list string) (df : DataFrame) :
  no_rows df ->
  exists df', normalize_loop cols df = (inr tt, df') /\ no_rows df'.
Proof.
  revert df. induction cols as [|col rest IH]; intros df Hall;
    cbn [normalize_loop].
  - now exists df.
  - destruct (df_get col df) as [s|] eqn:Hcol; [|now apply IH].
    pose proof (no_rows_get _ _ _ Hall Hcol) as Hs.
    destruct s as [l|l]; destruct l; try discriminate;
      cbn [normalize_series]; apply IH; now apply no_rows_set.
Qed.

(** X24.  A table without rows is no error: [optimize] and [simulate]
    return the empty ranking and store it, whatever the solver, and the
    result methods then put out their headers alone.  The columns of
    such a table need not hold floats; a CSV file with only a header
    gives columns of dtype object. *)
Theorem scoring_a_table_without_rows :
  (forall (minimize : solver) (wt : Packaging.weights)
          (o : Packaging.optimizer) (w : world),
     no_rows (Packaging.data o) ->
     exists o',
       Packaging.optimize minimize wt (o, w) = (inr [], (o', w)) /\
       Packaging.optimized_results o' = Some [] /\
       Packaging.display_results (o', w)
       = (inr tt,
          (o', emitted w
                 [ Print "Sustainable Packaging Recommendations:";
                   Print "Material		Score";
                   Print "--------------------------------" ])))
  /\
  (forall (minimize : solver) (wt : Lifecycle.weights)
          (o : Lifecycle.simulator) (w : world),
     no_rows (Lifecycle.data o) ->
     exists o' w',
       Lifecycle.simulate minimize wt (o, w) = (inr [], (o', w')) /\
       out w' = out w /\
       Lifecycle.simulation_results o' = Some [] /\
       Lifecycle.display_results (o', w')
       = (inr tt,
          (o', emitted w'
                 [ Print "Lifecycle Impact Simulation Results:";
                   Print "Stage		Impact Score";
                   Print "--------------------------------" ]))).
Proof.
  split.
  - intros minimize wt o w Hempty.
    destruct (normalize_loop_no_rows Packaging.columns_to_normalize _ Hempty)
      as [df' [Hrun Hempty']].
    exists (Packaging.mkOptimizer df' (Some [])).
    split; [|split; [reflexivity|]].
    + unfold Packaging.optimize, bind, Packaging.normalize_columns, self,
        set_self, ret, raise.
      cbn [fst snd]. rewrite Hrun. cbn [fst snd Packaging.data].
      unfold iterrows. rewrite (no_rows_nrows _ Hempty'). reflexivity.
    + unfold Packaging.display_results, bind, self.
      cbn [fst snd Packaging.optimized_results].
      repeat (rewrite emit_run; cbn [fst snd]).
      cbn [for_each]. unfold ret. now rewrite !emitted_app.
  - intros minimize wt o w Hempty.
    destruct (normalize_loop_no_rows Lifecycle.columns_to_normalize _ Hempty)
      as [df' [Hrun Hempty']].
    assert (Hnorm : forall w1,
              Lifecycle.normalize_columns (o, w1)
              = (inr tt,
                 (Lifecycle.mkSimulator df' (Lifecycle.simulation_results o),
                  logged w1 INFO "Normalizing columns for simulation."))).
    { intros w1. unfold Lifecycle.normalize_columns, bind, logging.
      cbn [fst snd]. now rewrite Hrun. }
    eexists (Lifecycle.mkSimulator df' (Some [])), _.
    split; [|split; [|split; [reflexivity|]]].
    + unfold Lifecycle.simulate.
      unfold bind at 1. unfold logging at 1. cbn [fst snd].
      unfold bind at 1. rewrite Hnorm.
      unfold bind, self, set_self, ret, raise, logging.
      cbn [fst snd Lifecycle.data].
      unfold iterrows. rewrite (no_rows_nrows _ Hempty'). reflexivity.
    + reflexivity.
    + unfold Lifecycle.display_results, bind, self.
      cbn [fst snd Lifecycle.simulation_results].
      repeat (rewrite emit_run; cbn [fst snd]).
      cbn [for_each]. unfold ret. now rewrite !emitted_app.
Qed.

Lemma header_only_no_rows : no_rows header_only.
Proof. repeat constructor. Qed.

Lemma scoring_a_table_without_rows_witness :
  exists o',
    Packaging.optimize coordinate_descent Packaging.default_weights
      (Packaging.mkOptimizer header_only None, empty_world)
    = (inr [], (o', empty_world)) /\
    Packaging.optimized_results o' = Some [].
Proof.
  destruct (proj1 scoring_a_table_without_rows coordinate_descent
              Packaging.default_weights
              (Packaging.mkOptimizer header_only None) empty_world
              header_only_no_rows) as [o' [Hrun [Hres _]]].
  exists o'. split; assumption.
Defined.

(** ** A measure column that is not there *)

Lemma score_rows_missing_feature (label c : string) (rest : list string)
    (minimize : solver) (f : list cell -> cell) (df : DataFrame) :
  (0 < nrows df)%nat ->
  df_get c df = None ->
  score_rows label (c :: rest) minimize f (iterrows df) = inl (KeyError c).
Proof.
  intros Hrows Hnone. unfold iterrows.
  destruct (nrows df) as [|n]; [lia|].
  cbn [seq map score_rows]. unfold score_row. cbn [start_point].
  unfold row_float. now rewrite row_get_row_at, Hnone.
Qed.

(** X25.  [normalize_columns] passes over a column that is not there,
    so a table that has lost its cost column is not refused by it:
    [optimize] and [simulate] normalise the measures that are left and
    then raise a KeyError for the normalised cost at the first row.  No
    ranking is stored. *)
Theorem scoring_without_the_cost_column :
  (forall (minimize : solver) (wt : Packaging.weights)
          (o : Packaging.optimizer) (w : world)
          (labels : list value) (ls : list (list cell)),
     has_column "Cost_per_unit" (Packaging.data o) = false ->
     has_column "Cost_per_unit_normalized" (Packaging.data o) = false ->
     float_table (Packaging.data o) "Material"
       ["Recyclability"; "Carbon_Footprint"; "Durability"] labels ls ->
     labels <> [] ->
     exists o',
       Packaging.optimize minimize wt (o, w)
       = (inl (KeyError "Cost_per_unit_normalized"), (o', w)) /\
       Packaging.optimized_results o' = Packaging.optimized_results o /\
       has_column "Recyclability_normalized" (Packaging.data o') = true)
  /\
  (forall (minimize : solver) (wt : Lifecycle.weights)
          (o : Lifecycle.simulator) (w : world)
          (labels : list value) (ls : list (list cell)),
     has_column "Cost" (Lifecycle.data o) = false ->
     has_column "Cost_normalized" (Lifecycle.data o) = false ->
     float_table (Lifecycle.data o) "Stage"
       ["Carbon_Footprint"; "Water_Usage"; "Energy_Consumption"] labels ls ->
     labels <> [] ->
     exists o' w',
       Lifecycle.simulate minimize wt (o, w)
       = (inl (KeyError "Cost_normalized"), (o', w')) /\
       out w' = out w /\
       Lifecycle.simulation_results o' = Lifecycle.simulation_results o /\
       has_column "Carbon_Footprint_normalized" (Lifecycle.data o') = true).
Proof.
  split.
  - intros minimize wt o w labels ls Hno Hno' Htable Hrows.
    destruct (normalize_loop_table (Packaging.data o) "Material"
                ["Recyclability"; "Carbon_Footprint"; "Durability"] labels ls)
      as [df' [Hrun [Htable' [Hold Hnew]]]].
    { exact (results_apart_tail _ _ packaging_results_apart). }
    { simpl. intuition discriminate. }
    { exact Htable. }
    assert (Hloop : normalize_loop Packaging.columns_to_normalize
                      (Packaging.data o) = (inr tt, df')).
    { unfold Packaging.columns_to_normalize. cbn [normalize_loop].
      now rewrite (proj2 (df_get_None _ _) Hno). }
    exists (Packaging.mkOptimizer df' (Packaging.optimized_results o)).
    split; [|split; [reflexivity|]].
    + unfold Packaging.optimize, bind, Packaging.normalize_columns, self,
        set_self, ret, raise.
      cbn [fst snd]. rewrite Hloop. cbn [fst snd Packaging.data].
      unfold Packaging.normalized_features.
      rewrite score_rows_missing_feature; [reflexivity | |].
      * destruct Htable' as [_ [Hlen _]]. rewrite <- Hlen.
        destruct labels; [contradiction | simpl; lia].
      * rewrite Hold; [now apply df_get_None|]. simpl. intuition discriminate.
    + cbn [Packaging.data]. destruct Htable' as [_ [_ Hcols]].
      inversion Hcols as [|? ? ? ? [Hc _] _]; subst.
      exact (df_get_has_column _ _ _ Hc).
  - intros minimize wt o w labels ls Hno Hno' Htable Hrows.
    destruct (normalize_loop_table (Lifecycle.data o) "Stage"
                ["Carbon_Footprint"; "Water_Usage"; "Energy_Consumption"]
                labels ls)
      as [df' [Hrun [Htable' [Hold Hnew]]]].
    { exact (results_apart_tail _ _ lifecycle_results_apart). }
    { simpl. intuition discriminate. }
    { exact Htable. }
    assert (Hnorm : forall w1,
              Lifecycle.normalize_columns (o, w1)
              = (inr tt,
                 (Lifecycle.mkSimulator df' (Lifecycle.simulation_results o),
                  logged w1 INFO "Normalizing columns for simulation."))).
    { assert (Hloop : normalize_loop Lifecycle.columns_to_normalize
                        (Lifecycle.data o) = (inr tt, df')).
      { unfold Lifecycle.columns_to_normalize. cbn [normalize_loop].
        now rewrite (proj2 (df_get_None _ _) Hno). }
      intros w1. unfold Lifecycle.normalize_columns, bind, logging.
      cbn [fst snd]. now rewrite Hloop. }
    eexists (Lifecycle.mkSimulator df' (Lifecycle.simulation_results o)), _.
    split; [|split; [|split; [reflexivity|]]].
    + unfold Lifecycle.simulate.
      unfold bind at 1. unfold logging at 1. cbn [fst snd].
      unfold bind at 1. rewrite Hnorm.
      unfold bind, self, set_self, ret, raise, logging.
      cbn [fst snd Lifecycle.data].
      unfold Lifecycle.normalized_features.
      rewrite score_rows_missing_feature; [reflexivity | |].
      * destruct Htable' as [_ [Hlen _]]. rewrite <- Hlen.
        destruct labels; [contradiction | simpl; lia].
      * rewrite Hold; [now apply df_get_None|]. simpl. intuition discriminate.
    + reflexivity.
    + cbn [Lifecycle.data]. destruct Htable' as [_ [_ Hcols]].
      inversion Hcols as [|? ? ? ? [Hc _] _]; subst.
      exact (df_get_has_column _ _ _ Hc).
Qed.

Lemma no_cost_table :
  float_table no_cost "Material"
    ["Recyclability"; "Carbon_Footprint"; "Durability"]
    [VStr "A"; VStr "B"]
    [ [Num (2 # 10); Num (9 # 10)]; [Num 5; Num 1];
      [Num (8 # 10); Num (3 # 10)] ].
Proof.
  split; [eexists; split; reflexivity|]. split; [reflexivity|].
  repeat (constructor; [split; reflexivity|]). constructor.
Qed.

Lemma no_cost_has_rows : [VStr "A"; VStr "B"] <> [].
Proof. discriminate. Qed.

Lemma scoring_without_the_cost_column_witness :
  exists o',
    Packaging.optimize coordinate_descent Packaging.default_weights
      (Packaging.mkOptimizer no_cost None, empty_world)
    = (inl (KeyError "Cost_per_unit_normalized"), (o', empty_world)) /\
    Packaging.optimized_results o' = None.
Proof.
  destruct (proj1 scoring_without_the_cost_column coordinate_descent
              Packaging.default_weights
              (Packaging.mkOptimizer no_cost None) empty_world
              _ _ eq_refl eq_refl no_cost_table no_cost_has_rows)
    as [o' [Hrun [Hres _]]].
  exists o'. split; [exact Hrun | exact Hres].
Defined.

(** ** The labels of the compliance check *)

(** X26.  On joinable tables [check_compliance] labels every row of the
    joined table, and with one of its two labels only: the column
    [Compliance] has one entry per row and holds nothing but
    ['Compliant'] and ['Non-Compliant'].  The regulations are not
    changed. *)
Theorem check_compliance_labels_every_row (v : Compliance.validator)
    (w : world) (status threshold : list cell) (lkeys rkeys : series) :
  joinable v status threshold lkeys rkeys ->
  exists v' labels,
    Compliance.check_compliance (v, w)
    = (inr tt, (v', logged w INFO "Checking compliance.")) /\
    Compliance.regulations v' = Compliance.regulations v /\
    df_get "Compliance" (Compliance.data v') = Some (StrCol labels) /\
    List.length labels = nrows (Compliance.data v') /\
    Forall (fun s => s = "Compliant" \/ s = "Non-Compliant") labels.
Proof.
  intros Hjoin.
  destruct (check_compliance_run v status threshold lkeys rkeys Hjoin w)
    as [v' [w' [Hrun [Hrows [_ [_ Hc]]]]]].
  destruct (check_compliance_success _ _ _ _ Hrun)
    as [merged [labels [_ [_ [Hregs Hw]]]]].
  subst w'. eexists v', _. split; [exact Hrun|]. split; [exact Hregs|].
  split; [exact Hc|]. split.
  - now rewrite length_map, Hrows.
  - apply Forall_map, Forall_forall. intros p _. unfold label_of.
    destruct (geb _ _); [now left | now right].
Qed.

Lemma check_compliance_labels_every_row_witness :
  exists v' labels,
    Compliance.check_compliance (example_validator, empty_world)
    = (inr tt, (v', logged empty_world INFO "Checking compliance.")) /\
    df_get "Compliance" (Compliance.data v') = Some (StrCol labels) /\
    List.length labels = 3%nat.
Proof.
  destruct (check_compliance_labels_every_row example_validator empty_world
              _ _ _ _ example_joinable)
    as [v' [labels [Hrun [_ [Hc [Hlen _]]]]]].
  exists v', labels. split; [exact Hrun|]. split; [exact Hc|].
  rewrite Hlen.
  apply (f_equal (fun r => nrows (Compliance.data (fst (snd r))))) in Hrun.
  cbn [fst snd] in Hrun. rewrite <- Hrun. reflexivity.
Defined.

(** ** A freshly constructed object *)

(** X27.  Constructing does not score.  On the object a constructor
    returns, every result method raises its "run first" error until
    [optimize] or [simulate] has been called, and the table the object
    holds is the table that was read. *)
Theorem fresh_object_has_no_results :
  (forall (table : DataFrame) (w w' : world) (o : Packaging.optimizer)
          (output_file : string),
     Optimizer.__init__ table w = (inr o, w') ->
     Packaging.data o = table /\
     Packaging.display_results (o, w')
     = (inl (ValueError "Run optimize() before displaying results."), (o, w')) /\
     Packaging.export_results output_file (o, w')
     = (inl (ValueError "Run optimize() before exporting results."), (o, w')) /\
     Packaging.visualize_results (o, w')
     = (inl (ValueError "Run optimize() before visualizing results."), (o, w')))
  /\
  (forall (table : DataFrame) (w w' : world) (o : Lifecycle.simulator)
          (output_file : string),
     Simulator.__init__ table w = (inr o, w') ->
     Lifecycle.data o = table /\
     fst (Lifecycle.display_results (o, w'))
     = inl (ValueError "Run simulate() before displaying results.") /\
     fst (Lifecycle.export_results output_file (o, w'))
     = inl (ValueError "Run simulate() before exporting results.") /\
     fst (Lifecycle.visualize_results (o, w'))
     = inl (ValueError "Run simulate() before visualizing results.")).
Proof.
  split.
  - intros table w w' o output_file Hinit. rewrite optimizer_init in Hinit.
    destruct (first_missing _ _); [discriminate|].
    injection Hinit as <- <-. repeat split.
  - intros table w w' o output_file Hinit. rewrite simulator_init in Hinit.
    cbv zeta in Hinit. destruct (first_missing _ _); [discriminate|].
    injection Hinit as <- <-. repeat split.
Qed.

Lemma fresh_object_has_no_results_witness :
  exists o,
    Optimizer.__init__ example_materials empty_world = (inr o, empty_world) /\
    Packaging.display_results (o, empty_world)
    = (inl (ValueError "Run optimize() before displaying results."),
       (o, empty_world)).
Proof.
  exists (Packaging.mkOptimizer example_materials None).
  split; [reflexivity|].
  exact (proj1 (proj2 (proj1 fresh_object_has_no_results example_materials
                         empty_world empty_world
                         (Packaging.mkOptimizer example_materials None)
                         "optimized_results.csv" eq_refl))).
Defined.
